(** * Workflow memory of pipeline-backend

    A shallow embedding of [pkg/memory/memory.go] and of the [Map] type of
    [pkg/data], together with the properties of the workflow memory core:
    batch indexing, path resolution by [Get], event emission when streaming
    is enabled, snapshot and restore through the durable store, and the
    structural projection of values.  The operator [crop] of the image
    component follows, with its two masks, the rounded corners and the
    circle.

    Go features are rendered as follows.
    - A call either returns or panics: [result] has [Ok], [Err] (the Go
      pair [(zero, err)] with [err != nil]) and [Panic].
    - A method that mutates its receiver and returns [error] yields an
      [exec]: the returned error (if any) together with the state reached,
      or a panic.
    - [int] is [Z]; strings are byte strings ([string]); [map[string]T] is
      [gmap string T]; slices are lists.
    - [sync.Mutex] serialises calls; the embedding gives the sequential
      semantics of one call at a time, so the mutex does not appear.
    - Values are trees: a [*data.Map] stored at two places of the memory is
      represented by two equal subtrees. *)

From Stdlib Require Import ZArith Ascii String.
From stdpp Require Import base option list gmap strings fin_maps pretty.

Set Warnings "-register-all".

Local Open Scope string_scope.
Local Open Scope Z_scope.

(** ** Go runtime *)

Module golang.

(** The [error] interface.  [Errorf] is an error built by [fmt.Errorf];
    [Foreign] is an error value handed back by a library ([redis],
    [gob], [json], [protojson]). *)
Inductive error : Type :=
| Errorf (msg : string)
| Foreign (pkg msg : string).

(** Run-time panics raised by the operations the code uses. *)
Inductive panic : Type :=
| IndexOutOfRange      (* s[i] with i outside 0 <= i < len(s) *)
| SliceBoundsOutOfRange (* s[a:b] with a > b or b > len(s) *)
| InterfaceConversion  (* x.(T) without ", ok" on another dynamic type *)
| NilDereference       (* method call on a nil interface *)
| MakeSliceLenOutOfRange. (* make([]T, n) with n < 0 *)

Inductive result (A : Type) : Type :=
| Ok (a : A)
| Err (e : error)
| Panic (p : panic).
Arguments Ok {A} a.
Arguments Err {A} e.
Arguments Panic {A} p.

Definition result_bind {A B} (f : A -> result B) (r : result A) : result B :=
  match r with
  | Ok a => f a
  | Err e => Err e
  | Panic p => Panic p
  end.

#[global] Instance result_ret : MRet result := fun A a => Ok a.
#[global] Instance result_mbind : MBind result := fun A B f r => result_bind f r.
#[global] Instance result_fmap : FMap result :=
  fun A B f r => result_bind (fun a => Ok (f a)) r.

(** Outcome of a mutating method: [Done err s] is a normal return of
    [err] in state [s]; [Crash p] is a panic. *)
Inductive exec (S : Type) : Type :=
| Done (err : option error) (s : S)
| Crash (p : panic).
Arguments Done {S} err s.
Arguments Crash {S} p.

(** [s[i]] on a slice. *)
Definition index {A} (s : list A) (i : Z) : result A :=
  if (0 <=? i) && (i <? Z.of_nat (length s)) then
    match s !! Z.to_nat i with
    | Some a => Ok a
    | None => Panic IndexOutOfRange
    end
  else Panic IndexOutOfRange.

(** ** Byte strings: the functions of [strings], [fmt] and [strconv]
    that [Get] calls *)

Definition len (s : string) : Z := Z.of_nat (String.length s).

Fixpoint HasPrefix (s p : string) : bool :=
  match p, s with
  | EmptyString, _ => true
  | String _ _, EmptyString => false
  | String b p', String a s' => if Ascii.eqb a b then HasPrefix s' p' else false
  end.

Fixpoint HasSuffix (s suffix : string) : bool :=
  if String.eqb s suffix then true
  else match s with
       | EmptyString => false
       | String _ s' => HasSuffix s' suffix
       end.

(** [strings.FieldsFunc]: the maximal runs of bytes not satisfying [f];
    [cur] is the run being read.  The source tests runes; its predicate
    holds of two ASCII bytes only, which no other rune contains, so the
    fields are the same read byte by byte. *)
Fixpoint FieldsFunc_from (f : ascii -> bool) (cur s : string) : list string :=
  match s with
  | EmptyString => if String.eqb cur "" then [] else [cur]
  | String c s' =>
      if f c then
        (if String.eqb cur "" then FieldsFunc_from f "" s'
         else cur :: FieldsFunc_from f "" s')
      else FieldsFunc_from f (cur +:+ String c "") s'
  end.

Definition FieldsFunc (s : string) (f : ascii -> bool) : list string :=
  FieldsFunc_from f "" s.

(** [strings.Split] for a non-empty separator: cut at each leftmost
    occurrence.  [skip] counts the bytes of a separator still to pass. *)
Fixpoint Split_from (sep : string) (skip : nat) (cur s : string) : list string :=
  match s with
  | EmptyString => [cur]
  | String c s' =>
      match skip with
      | S k => Split_from sep k cur s'
      | O =>
          if HasPrefix s sep then cur :: Split_from sep (String.length sep - 1) "" s'
          else Split_from sep 0 (cur +:+ String c "") s'
      end
  end.

Definition Split (s sep : string) : list string := Split_from sep 0 "" s.

(** [s[a:b]] on a string. *)
Definition slice (s : string) (a b : Z) : result string :=
  if (0 <=? a) && (a <=? b) && (b <=? len s) then
    Ok (String.substring (Z.to_nat a) (Z.to_nat (b - a)) s)
  else Panic SliceBoundsOutOfRange.

Definition digit (c : ascii) : option Z :=
  let n := Z.of_N (N_of_ascii c) in
  if (48 <=? n) && (n <=? 57) then Some (n - 48) else None.

Definition is_digit (c : ascii) : bool :=
  match digit c with
  | Some _ => true
  | None => false
  end.

(** Value of a non-empty string of decimal digits. *)
Fixpoint digits_from (acc : Z) (s : string) : option Z :=
  match s with
  | EmptyString => Some acc
  | String c s' =>
      match digit c with
      | Some d => digits_from (acc * 10 + d) s'
      | None => None
      end
  end.

Definition digits (s : string) : option Z :=
  match s with
  | EmptyString => None
  | _ => digits_from 0 s
  end.

Definition maxInt : Z := 2 ^ 63 - 1.
Definition minInt : Z := - 2 ^ 63.

(** [strconv.Atoi]: an optional sign, then decimal digits, the value in
    the range of [int] (64 bits).  [None] stands for [err != nil]. *)
Definition Atoi (s : string) : option Z :=
  match s with
  | EmptyString => None
  | String c r =>
      let '(neg, ds) :=
        if Ascii.eqb c "-"%char then (true, r)
        else if Ascii.eqb c "+"%char then (false, r)
        else (false, s) in
      match digits ds with
      | None => None
      | Some n =>
          let v := if neg then - n else n in
          if (minInt <=? v) && (v <=? maxInt) then Some v else None
      end
  end.

End golang.
Import golang.

(** ** [google.golang.org/protobuf/types/known/structpb]

    The JSON-shaped envelope that a value is projected to. *)

Module structpb.

Inductive Value : Type :=
| NullValue
| NumberValue (f : Z)
| StringValue (s : string)
| BoolValue (b : bool)
| StructValue (fields : gmap string Value)
| ListValue (values : list Value).

Definition NewNullValue : Value := NullValue.
Definition NewStructValue (mp : gmap string Value) : Value := StructValue mp.

End structpb.

(** ** Package [data] *)

Module data.

(** Modelled from the spec: of package [data] only [Map] is in the
    source; the interface [Value] and the types [Null], [Boolean],
    [Number], [String] and [Array] are missing.  The variants are those of
    the spec's data model; [memory.go] uses [*data.Map] with [Fields],
    [*data.Array] with [Values] and [*data.Boolean] with [GetBoolean].
    [Nil] is the nil interface value, which a [map[string]Value] yields
    for an absent key and which a caller may store.  A [Number] carries
    the 64 bits of its [float64]. *)
Inductive Value : Type :=
| Nil
| Null
| Boolean (b : bool)
| Number (f : Z)
| String (s : string)
| Array (Values : list Value)
| Map (Fields : gmap string Value).

(** [NewMap(m)]: a nil [m] becomes the empty map. *)
Definition NewMap (m : option (gmap string Value)) : Value :=
  match m with
  | None => Map ∅
  | Some m => Map m
  end.

Definition NewBoolean (b : bool) : Value := Boolean b.

(** [m[k]] on a Go map: the zero value, nil, for an absent key. *)
Definition at_key (m : gmap string Value) (k : string) : Value :=
  default Nil (m !! k).

(** [v.( *data.Map).Fields] *)
Definition Fields (v : Value) : result (gmap string Value) :=
  match v with
  | Map fs => Ok fs
  | _ => Panic InterfaceConversion
  end.

(** [v.( *data.Array).Values] *)
Definition Values (v : Value) : result (list Value) :=
  match v with
  | Array vs => Ok vs
  | _ => Panic InterfaceConversion
  end.

(** [v.( *data.Boolean).GetBoolean()] *)
Definition GetBoolean (v : Value) : result bool :=
  match v with
  | Boolean b => Ok b
  | _ => Panic InterfaceConversion
  end.

(** The source holds two revisions of [Map.ToStructValue]. *)
Inductive MapRevision : Type :=
| ValueReceiver    (* func (m Map) ToStructValue, in the file that has Map.Get *)
| PointerReceiver. (* func (m *Map) ToStructValue *)

(** Body of [for k, v := range m.Fields] in [func (m Map) ToStructValue]:
    a nil value and a [*Null] add nothing to [mp]. *)
Definition range_skip_null (proj : Value -> result structpb.Value)
    (k : string) (v : Value) (acc : result (gmap string structpb.Value))
  : result (gmap string structpb.Value) :=
  mp ← acc;
  match v with
  | Nil => Ok mp
  | Null => Ok mp
  | _ => s ← proj v; Ok (<[k := s]> mp)
  end.

(** Body of the loop in [func (m *Map) ToStructValue]: a nil value is
    written as a null literal, any other value is projected. *)
Definition range_keep_null (proj : Value -> result structpb.Value)
    (k : string) (v : Value) (acc : result (gmap string structpb.Value))
  : result (gmap string structpb.Value) :=
  mp ← acc;
  match v with
  | Nil => Ok (<[k := structpb.NewNullValue]> mp)
  | _ => s ← proj v; Ok (<[k := s]> mp)
  end.

(** [v.ToStructValue()].  The [Map] case is the source, in the revision
    [rev].  Modelled from the spec: the methods of the other variants are
    missing; [Null] becomes a null literal, [Boolean], [Number] and
    [String] their scalar form, [Array] the ordered list of the
    projections of its elements.  A method call on the nil interface
    panics. *)
Fixpoint ToStructValue (rev : MapRevision) (v : Value) : result structpb.Value :=
  match v with
  | Nil => Panic NilDereference
  | Null => Ok structpb.NewNullValue
  | Boolean b => Ok (structpb.BoolValue b)
  | Number f => Ok (structpb.NumberValue f)
  | String s => Ok (structpb.StringValue s)
  | Array vs => structpb.ListValue <$> mapM (ToStructValue rev) vs
  | Map fs =>
      structpb.NewStructValue <$>
        map_fold
          (match rev with
           | ValueReceiver => range_skip_null (ToStructValue rev)
           | PointerReceiver => range_keep_null (ToStructValue rev)
           end)
          (Ok ∅) fs
  end.

End data.

(** ** [github.com/redis/go-redis]: the durable store and the event bus

    A client holds the keys with the instant at which each expires, the
    messages published so far (oldest first) and, when the server cannot be
    reached, the error every command returns. *)

Module redis.

Definition bytes : Type := list Byte.byte.

Record Client : Type := mkClient {
  keys : gmap string (bytes * Z);
  messages : list (string * bytes);
  fault : option error
}.

(** The error [redis.Nil] of a missing key. *)
Definition Nil : error := Foreign "redis" "nil".

Definition Publish (rc : Client) (channel : string) (message : bytes)
  : option error * Client :=
  match fault rc with
  | Some e => (Some e, rc)
  | None => (None, mkClient (keys rc) (messages rc ++ [(channel, message)]) None)
  end.

(** [Set(key, value, expiration)] at instant [now]. *)
Definition Set_ (rc : Client) (now : Z) (key : string) (value : bytes)
    (expiration : Z) : option error * Client :=
  match fault rc with
  | Some e => (Some e, rc)
  | None =>
      (None, mkClient (<[key := (value, now + expiration)]> (keys rc)) (messages rc) None)
  end.

(** [Get(key)] at instant [now]: a key that has expired is gone. *)
Definition Get (rc : Client) (now : Z) (key : string) : result bytes :=
  match fault rc with
  | Some e => Err e
  | None =>
      match keys rc !! key with
      | Some (value, expiry) => if now <? expiry then Ok value else Err Nil
      | None => Err Nil
      end
  end.

End redis.

(** ** Package [memory] *)

Module memory.

(** [type PipelineDataType string], and likewise the other three. *)
Abbreviation PipelineDataType := string.
Abbreviation ComponentStatusType := string.
Abbreviation ComponentDataType := string.

Definition PipelineVariable : PipelineDataType := "variable".
Definition PipelineSecret : PipelineDataType := "secret".
Definition PipelineOutput : PipelineDataType := "output".
Definition PipelineOutputTemplate : PipelineDataType := "_output".

Definition ComponentStatusStarted : ComponentStatusType := "started".
Definition ComponentStatusSkipped : ComponentStatusType := "skipped".
Definition ComponentStatusCompleted : ComponentStatusType := "completed".

Definition ComponentDataInput : ComponentDataType := "input".
Definition ComponentDataOutput : ComponentDataType := "output".
Definition ComponentDataElement : ComponentDataType := "element".
Definition ComponentDataSetup : ComponentDataType := "setup".

(** Modelled from the spec: package [constant] is missing; the skeleton of
    a component has the keys [input] and [output]. *)
Definition SegInput : string := "input".
Definition SegOutput : string := "output".

Abbreviation EventType := string.

Definition PipelineStarted : EventType := "pipeline_started".
Definition PipelineOutputUpdated : EventType := "pipeline_output_updated".
Definition PipelineCompleted : EventType := "pipeline_completed".
Definition PipelineClosed : EventType := "pipeline_closed".
Definition ComponentStatusUpdated : EventType := "component_status_updated".
Definition ComponentInputUpdated : EventType := "component_input_updated".
Definition ComponentOutputUpdated : EventType := "component_output_updated".

(** [time.Time] as nanoseconds; [time.Hour]. *)
Definition Time : Type := Z.
Definition Hour : Z := 3600 * 10 ^ 9.

(** The byte [0x22], used where the source writes a quote in a string. *)
Definition quote : string := String "034"%char EmptyString.

(** [fmt.Sprintf("pipeline_trigger:%s", workflowID)] *)
Definition trigger_key (workflowID : string) : string :=
  "pipeline_trigger:" +:+ workflowID.

(** The process: the shared redis client and the wall clock. *)
Record World : Type := mkWorld {
  redisClient : redis.Client;
  now : Time
}.

Section Memory.

(** [datamodel.Recipe], opaque to this package, and the dynamic object
    [map[string]any] that [json.Unmarshal] fills. *)
Context {Recipe_t JSONObject : Type}.

(** Which of the two [Map.ToStructValue] the process is built with. *)
Variable rev : data.MapRevision.

(** [protojson.Marshal] on a [*structpb.Value] and [json.Unmarshal]
    into a [map[string]any]. *)
Variable protojson_Marshal : structpb.Value -> result redis.bytes.
Variable json_Unmarshal : redis.bytes -> result JSONObject.

(** The payload of an event: the dynamic type of [Event.Data].  A field
    left out of a struct literal has its zero value. *)
Inductive EventData : Type :=
| NoData
| PipelineStartedEventData (UpdateTime : Time) (BatchIndex : Z) (Variable_ : JSONObject)
| PipelineCompletedEventData (UpdateTime : Time) (BatchIndex : Z) (Output : JSONObject)
| ComponentStatusEventData (UpdateTime : Time) (ComponentID : string)
    (BatchIndex : Z) (Status : gmap ComponentStatusType bool)
| ComponentInputEventData (UpdateTime : Time) (ComponentID : string)
    (BatchIndex : Z) (Input : JSONObject)
| ComponentOutputEventData (UpdateTime : Time) (ComponentID : string)
    (BatchIndex : Z) (Output : JSONObject).

Record Event : Type := mkEvent {
  Event_Event : EventType;
  Event_Data : EventData
}.

(** [Event{}] *)
Definition zeroEvent : Event := mkEvent "" NoData.

(** The struct; [mu] has no content.  [redisClient] points to the
    client of the process, which is in the [World]. *)
Record workflowMemory : Type := mkWorkflowMemory {
  ID : string;
  Data : list data.Value;
  Recipe : option Recipe_t;
  streaming : bool
}.

(** What [gob] writes of a [workflowMemory]: its exported fields. *)
Record snapshot : Type := mkSnapshot {
  snap_ID : string;
  snap_Data : list data.Value;
  snap_Recipe : option Recipe_t
}.

Definition exported (wfm : workflowMemory) : snapshot :=
  mkSnapshot (ID wfm) (Data wfm) (Recipe wfm).

(** [gob.NewEncoder(&buf).Encode] on an [Event]. *)
Variable gob_Encode_Event : Event -> result redis.bytes.

(** Modelled from the spec: the binary codec of a workflow memory, that
    is [encoding/gob] with the encoders and the type registrations of
    package [data], is missing.  [gob.NewEncoder(&buf).Encode] on a
    [*workflowMemory] and [gob.NewDecoder(buf).Decode] into a
    [workflowMemory] are two functions on the exported fields; the spec
    has every value round-trip through the codec, which the snapshot
    theorem takes as its hypothesis. *)
Variable gob_Encode_wfm : snapshot -> result redis.bytes.
Variable gob_Decode_wfm : redis.bytes -> result snapshot.

Record memoryStore : Type := mkMemoryStore {
  workflows : gmap string workflowMemory
}.

(** [wfm.Data[batchIdx] = v] for an index already checked. *)
Definition store_root (wfm : workflowMemory) (batchIdx : Z) (v : data.Value)
  : workflowMemory :=
  mkWorkflowMemory (ID wfm) (<[Z.to_nat batchIdx := v]> (Data wfm))
    (Recipe wfm) (streaming wfm).

(** [wfm.Data[batchIdx].( *data.Map).Fields] *)
Definition root_fields (wfm : workflowMemory) (batchIdx : Z)
  : result (gmap string data.Value) :=
  root ← index (Data wfm) batchIdx; data.Fields root.

(** *** The store *)

(** The map that [NewWorkflowMemory] puts at each batch index. *)
Definition new_root : data.Value :=
  data.NewMap (Some {[ PipelineVariable := data.NewMap None;
                       PipelineSecret := data.NewMap None;
                       PipelineOutput := data.NewMap None ]}).

(** [make([]data.Value, n)] followed by the loop over [range n]. *)
Definition new_data (n : nat) : list data.Value :=
  foldl (fun wfmData idx => <[idx := new_root]> wfmData)
        (replicate n data.Nil) (seq 0 n).

Definition NewWorkflowMemory (ms : memoryStore) (workflowID : string)
    (r : option Recipe_t) (batchSize : Z) : result (workflowMemory * memoryStore) :=
  if batchSize <? 0 then Panic MakeSliceLenOutOfRange
  else
    let wfmData := new_data (Z.to_nat batchSize) in
    let ms' := mkMemoryStore
                 (<[workflowID := mkWorkflowMemory workflowID wfmData r false]>
                    (workflows ms)) in
    match workflows ms' !! workflowID with
    | None => Err (Errorf "workflow memory not found")
    | Some wfm => Ok (wfm, ms')
    end.

Definition GetWorkflowMemory (ms : memoryStore) (workflowID : string)
  : result workflowMemory :=
  match workflows ms !! workflowID with
  | None => Err (Errorf "workflow memory not found")
  | Some wfm => Ok wfm
  end.

Definition PurgeWorkflowMemory (ms : memoryStore) (workflowID : string)
  : option error * memoryStore :=
  (None, mkMemoryStore (delete workflowID (workflows ms))).

Definition SendWorkflowStatusEvent (w : World) (workflowID : string)
    (event : Event) : exec World :=
  match gob_Encode_Event event with
  | Ok buf =>
      let '(err, rc) := redis.Publish (redisClient w) workflowID buf in
      Done err (mkWorld rc (now w))
  | Err e => Done (Some e) w
  | Panic p => Crash p
  end.

Definition WriteWorkflowMemoryToRedis (ms : memoryStore) (w : World)
    (workflowID : string) : exec World :=
  match workflows ms !! workflowID with
  | None => Done (Some (Errorf "workflow memory not found")) w
  | Some wfm =>
      match gob_Encode_wfm (exported wfm) with
      | Ok buf =>
          let '(err, rc) :=
            redis.Set_ (redisClient w) (now w) (trigger_key workflowID) buf Hour in
          Done err (mkWorld rc (now w))
      | Err e => Done (Some e) w
      | Panic p => Crash p
      end
  end.

(** The decoder fills a zero [workflowMemory]: [streaming], not
    exported, stays false; [ID] is then set from the argument. *)
Definition LoadWorkflowMemoryFromRedis (ms : memoryStore) (w : World)
    (workflowID : string) : result (workflowMemory * memoryStore) :=
  b ← redis.Get (redisClient w) (now w) (trigger_key workflowID);
  s ← gob_Decode_wfm b;
  let wfm := mkWorkflowMemory workflowID (snap_Data s) (snap_Recipe s) false in
  Ok (wfm, mkMemoryStore (<[workflowID := wfm]> (workflows ms))).

(** *** The workflow memory *)

Definition EnableStreaming (wfm : workflowMemory) : workflowMemory :=
  mkWorkflowMemory (ID wfm) (Data wfm) (Recipe wfm) true.

Definition GetBatchSize (wfm : workflowMemory) : Z :=
  Z.of_nat (length (Data wfm)).

Definition SetRecipe (wfm : workflowMemory) (r : option Recipe_t) : workflowMemory :=
  mkWorkflowMemory (ID wfm) (Data wfm) r (streaming wfm).

Definition GetRecipe (wfm : workflowMemory) : option Recipe_t := Recipe wfm.

Definition compMemory : data.Value :=
  data.NewMap (Some {[
    SegInput := data.NewMap None;
    SegOutput := data.NewMap None;
    "status" := data.NewMap (Some {[ "started" := data.NewBoolean false;
                                     "skipped" := data.NewBoolean false;
                                     "completed" := data.NewBoolean false ]});
    "setup" := data.NewMap None ]}).

(** No result: [Ok] is a normal return in the new state. *)
Definition InitComponent (wfm : workflowMemory) (batchIdx : Z)
    (componentID : string) : result workflowMemory :=
  fs ← root_fields wfm batchIdx;
  Ok (store_root wfm batchIdx (data.Map (<[componentID := compMemory]> fs))).

(** [fmt.Errorf("component %s not exist", componentID)] *)
Definition component_not_exist (componentID : string) : error :=
  Errorf ("component " +:+ componentID +:+ " not exist").

(** [wfm.Data[batchIdx].( *data.Map).Fields[componentID]] with the
    [, ok] test that precedes every access to a component. *)
Definition component (wfm : workflowMemory) (batchIdx : Z) (componentID : string)
  : result (gmap string data.Value * data.Value) :=
  fs ← root_fields wfm batchIdx;
  match fs !! componentID with
  | None => Err (component_not_exist componentID)
  | Some comp => Ok (fs, comp)
  end.

(** The three conversions of a value into the dynamic object of an
    event, each of which may return an error. *)
Definition to_dynamic (value : data.Value) : result JSONObject :=
  s ← data.ToStructValue rev value;
  b ← protojson_Marshal s;
  json_Unmarshal b.

(** Encode [event] and publish it on the channel of the workflow. *)
Definition publish (wfm : workflowMemory) (w : World) (event : result Event)
  : exec (workflowMemory * World) :=
  match event ≫= gob_Encode_Event with
  | Ok buf =>
      let '(err, rc) := redis.Publish (redisClient w) (ID wfm) buf in
      Done err (wfm, mkWorld rc (now w))
  | Err e => Done (Some e) (wfm, w)
  | Panic p => Crash p
  end.

(** The assignment of [SetComponentData], before any event. *)
Definition write_component_data (wfm : workflowMemory) (batchIdx : Z)
    (componentID : string) (t : ComponentDataType) (value : data.Value)
  : result workflowMemory :=
  '(fs, comp) ← component wfm batchIdx componentID;
  cfs ← data.Fields comp;
  Ok (store_root wfm batchIdx
        (data.Map (<[componentID := data.Map (<[t := value]> cfs)]> fs))).

(** The event of [SetComponentData]: neither literal sets [BatchIndex];
    for a type other than input and output the event stays [Event{}]. *)
Definition component_data_event (w : World) (componentID : string)
    (t : ComponentDataType) (data : JSONObject) : Event :=
  if String.eqb t ComponentDataInput then
    mkEvent ComponentInputUpdated (ComponentInputEventData (now w) componentID 0 data)
  else if String.eqb t ComponentDataOutput then
    mkEvent ComponentOutputUpdated (ComponentOutputEventData (now w) componentID 0 data)
  else zeroEvent.

Definition SetComponentData (wfm : workflowMemory) (w : World) (batchIdx : Z)
    (componentID : string) (t : ComponentDataType) (value : data.Value)
  : exec (workflowMemory * World) :=
  match write_component_data wfm batchIdx componentID t value with
  | Panic p => Crash p
  | Err e => Done (Some e) (wfm, w)
  | Ok wfm' =>
      if streaming wfm' then
        publish wfm' w (component_data_event w componentID t <$> to_dynamic value)
      else Done None (wfm', w)
  end.

Definition GetComponentData (wfm : workflowMemory) (batchIdx : Z)
    (componentID : string) (t : ComponentDataType) : result data.Value :=
  '(_, comp) ← component wfm batchIdx componentID;
  cfs ← data.Fields comp;
  Ok (data.at_key cfs t).

(** [....Fields[componentID].( *data.Map).Fields["status"].( *data.Map).Fields] *)
Definition status_fields (comp : data.Value) : result (gmap string data.Value) :=
  cfs ← data.Fields comp;
  data.Fields (data.at_key cfs "status").

Definition write_component_status (wfm : workflowMemory) (batchIdx : Z)
    (componentID : string) (t : ComponentStatusType) (value : bool)
  : result workflowMemory :=
  '(fs, comp) ← component wfm batchIdx componentID;
  cfs ← data.Fields comp;
  sfs ← data.Fields (data.at_key cfs "status");
  Ok (store_root wfm batchIdx
        (data.Map (<[componentID :=
           data.Map (<["status" := data.Map (<[t := data.NewBoolean value]> sfs)]> cfs)]> fs))).

(** The event of [SetComponentStatus], read from the memory after the
    assignment. *)
Definition component_status_event (wfm : workflowMemory) (w : World)
    (batchIdx : Z) (componentID : string) : result Event :=
  fs ← root_fields wfm batchIdx;
  st ← status_fields (data.at_key fs componentID);
  started ← data.GetBoolean (data.at_key st ComponentStatusStarted);
  skipped ← data.GetBoolean (data.at_key st ComponentStatusSkipped);
  completed ← data.GetBoolean (data.at_key st ComponentStatusCompleted);
  Ok (mkEvent ComponentStatusUpdated
        (ComponentStatusEventData (now w) componentID batchIdx
           {[ ComponentStatusStarted := started;
              ComponentStatusSkipped := skipped;
              ComponentStatusCompleted := completed ]})).

Definition SetComponentStatus (wfm : workflowMemory) (w : World) (batchIdx : Z)
    (componentID : string) (t : ComponentStatusType) (value : bool)
  : exec (workflowMemory * World) :=
  match write_component_status wfm batchIdx componentID t value with
  | Panic p => Crash p
  | Err e => Done (Some e) (wfm, w)
  | Ok wfm' =>
      if streaming wfm' then
        publish wfm' w (component_status_event wfm' w batchIdx componentID)
      else Done None (wfm', w)
  end.

Definition GetComponentStatus (wfm : workflowMemory) (batchIdx : Z)
    (componentID : string) (t : ComponentStatusType) : result bool :=
  '(_, comp) ← component wfm batchIdx componentID;
  st ← status_fields comp;
  data.GetBoolean (data.at_key st t).

Definition write_pipeline_data (wfm : workflowMemory) (batchIdx : Z)
    (t : PipelineDataType) (value : data.Value) : result workflowMemory :=
  fs ← root_fields wfm batchIdx;
  Ok (store_root wfm batchIdx (data.Map (<[t := value]> fs))).

(** The event of [SetPipelineData]: filled for the output only; the
    literal does not set [BatchIndex]. *)
Definition pipeline_data_event (w : World) (t : PipelineDataType)
    (data : JSONObject) : Event :=
  if String.eqb t PipelineOutput then
    mkEvent PipelineOutputUpdated (PipelineCompletedEventData (now w) 0 data)
  else zeroEvent.

Definition SetPipelineData (wfm : workflowMemory) (w : World) (batchIdx : Z)
    (t : PipelineDataType) (value : data.Value) : exec (workflowMemory * World) :=
  match write_pipeline_data wfm batchIdx t value with
  | Panic p => Crash p
  | Err e => Done (Some e) (wfm, w)
  | Ok wfm' =>
      if streaming wfm' then
        publish wfm' w (pipeline_data_event w t <$> to_dynamic value)
      else Done None (wfm', w)
  end.

(** [fmt.Errorf("%s not exist", string(t))] *)
Definition GetPipelineData (wfm : workflowMemory) (batchIdx : Z)
    (t : PipelineDataType) : result data.Value :=
  fs ← root_fields wfm batchIdx;
  match fs !! t with
  | None => Err (Errorf (t +:+ " not exist"))
  | Some v => Ok v
  end.

Definition Set_ (wfm : workflowMemory) (batchIdx : Z) (key : string)
    (value : data.Value) : result workflowMemory :=
  fs ← root_fields wfm batchIdx;
  Ok (store_root wfm batchIdx (data.Map (<[key := value]> fs))).

(** *** [Get]: the path resolver *)

(** The predicate given to [strings.FieldsFunc]. *)
Definition is_separator (s : ascii) : bool :=
  Ascii.eqb s "."%char || Ascii.eqb s "["%char.

(** One turn of the first loop: [newPath += ...]. *)
Definition bracketed (newPath split : string) : string :=
  if HasSuffix split "]" then newPath +:+ "[" +:+ split
  else newPath +:+ "[" +:+ quote +:+ split +:+ quote +:+ "]".

(** One turn of the second loop, on the current [ptr]. *)
Definition walk (ptr : result data.Value) (s : string) : result data.Value :=
  ptr ← ptr;
  match Atoi s with
  | Some i => vs ← data.Values ptr; index vs i
  | None =>
      key ← slice s 1 (len s - 1);
      fs ← data.Fields ptr;
      Ok (data.at_key fs key)
  end.

Definition Get (wfm : workflowMemory) (batchIdx : Z) (path : string)
  : result data.Value :=
  if String.eqb path "" then index (Data wfm) batchIdx
  else
    let splits := FieldsFunc path is_separator in
    let newPath := foldl bracketed "" splits in
    newPath ← slice newPath 1 (len newPath - 1);
    let ss := Split newPath "][" in
    ptr ← index (Data wfm) batchIdx;
    foldl walk (Ok ptr) ss.


(** *** What an observer of the bus sees *)

(** Between [w] and [w'] exactly one message went out, on [channel],
    and it is the encoding of [event]. *)
Definition publishes (w w' : World) (channel : string) (event : Event) : Prop :=
  exists buf,
    gob_Encode_Event event = Ok buf
    /\ redis.messages (redisClient w')
       = (redis.messages (redisClient w) ++ [(channel, buf)])%list.

(** The field [BatchIndex] of a payload. *)
Definition BatchIndex_of (d : EventData) : option Z :=
  match d with
  | NoData => None
  | PipelineStartedEventData _ b _ => Some b
  | PipelineCompletedEventData _ b _ => Some b
  | ComponentStatusEventData _ _ b _ => Some b
  | ComponentInputEventData _ _ b _ => Some b
  | ComponentOutputEventData _ _ b _ => Some b
  end.

(** The process [w] at a moment when every command to the server
    fails with [e]. *)
Definition with_fault (w : World) (e : error) : World :=
  mkWorld (redis.mkClient (redis.keys (redisClient w))
             (redis.messages (redisClient w)) (Some e)) (now w).

(** Between [w] and [w'] a call that returned [err] sent at most one
    message, on [channel], and did nothing else: no key was written, and
    a call that returned an error sent nothing. *)
Definition at_most_one_message (w w' : World) (channel : string)
    (err : option error) : Prop :=
  redis.keys (redisClient w') = redis.keys (redisClient w)
  /\ now w' = now w
  /\ match err with
     | Some _ => w' = w
     | None =>
         redis.messages (redisClient w') = redis.messages (redisClient w)
         \/ exists buf,
              redis.messages (redisClient w')
              = (redis.messages (redisClient w) ++ [(channel, buf)])%list
     end.

End Memory.

Arguments EventData JSONObject : clear implicits.
Arguments Event JSONObject : clear implicits.
Arguments workflowMemory Recipe_t : clear implicits.
Arguments snapshot Recipe_t : clear implicits.
Arguments memoryStore Recipe_t : clear implicits.

(** *** Paths, as the spec describes them

    A path is a sequence of map keys, written after a dot, and array
    indices, written in decimal between brackets: [a.b[2].c]. *)

Inductive segment : Type :=
| Key (k : string)
| Index (n : N).

Definition render_segment (s : segment) : string :=
  match s with
  | Key k => "." +:+ k
  | Index n => "[" +:+ pretty n +:+ "]"
  end.

Fixpoint render_segments (segs : list segment) : string :=
  match segs with
  | [] => ""
  | s :: rest => render_segment s +:+ render_segments rest
  end.

(** The text of a path: the dot before a leading key is not written. *)
Definition render (segs : list segment) : string :=
  match segs with
  | Key k :: rest => k +:+ render_segments rest
  | _ => render_segments segs
  end.

Fixpoint all_bytes (P : ascii -> bool) (s : string) : bool :=
  match s with
  | EmptyString => true
  | String c s' => P c && all_bytes P s'
  end.

(** A key is not empty, holds no dot and no opening bracket, and does not
    end in a closing bracket; an index fits an [int]. *)
Definition segment_ok (s : segment) : bool :=
  match s with
  | Key k =>
      negb (String.eqb k "")
      && all_bytes (fun c => negb (is_separator c)) k
      && negb (HasSuffix k "]")
  | Index n => Z.of_N n <=? maxInt
  end.

Definition well_formed (segs : list segment) : bool :=
  match segs with
  | [] => false
  | _ => forallb segment_ok segs
  end.

(** The walk along the segments that [Get] performs on the value at the
    batch index.  A key applied to a map yields the entry, nil when the key
    is absent; an index applied to an array yields the element and panics
    out of range; a key applied to anything but a map, or an index to
    anything but an array, panics.  No case returns an error. *)
Fixpoint resolve (ptr : data.Value) (segs : list segment) : result data.Value :=
  match segs with
  | [] => Ok ptr
  | Key k :: rest =>
      match ptr with
      | data.Map fs => resolve (data.at_key fs k) rest
      | _ => Panic InterfaceConversion
      end
  | Index n :: rest =>
      match ptr with
      | data.Array vs =>
          match vs !! N.to_nat n with
          | Some v => resolve v rest
          | None => Panic IndexOutOfRange
          end
      | _ => Panic InterfaceConversion
      end
  end.

(** The forms a well-formed path takes inside [Get]: the fields that
    [strings.FieldsFunc] cuts, the bracketed pieces appended to
    [newPath], and the elements of [ss] after the split. *)
Definition field_of (s : segment) : string :=
  match s with
  | Key k => k
  | Index n => pretty n +:+ "]"
  end.

Definition piece_of (s : segment) : string :=
  match s with
  | Key k => "[" +:+ quote +:+ k +:+ quote +:+ "]"
  | Index n => "[" +:+ pretty n +:+ "]"
  end.

Definition inner_of (s : segment) : string :=
  match s with
  | Key k => quote +:+ k +:+ quote
  | Index n => pretty n
  end.

(** The rewritten path between its first and last byte: the elements
    separated by a closing and an opening bracket. *)
Fixpoint join (parts : list string) : string :=
  match parts with
  | [] => ""
  | [p] => p
  | p :: rest => p +:+ "][" +:+ join rest
  end.

(** No opening bracket in a string; an opening bracket at its head. *)
Definition no_open : string -> bool :=
  all_bytes (fun c => negb (Ascii.eqb c "[")).

Definition starts_open (s : string) : bool :=
  match s with
  | String c _ => Ascii.eqb c "["
  | EmptyString => false
  end.

End memory.

(** ** The operator [crop] of the image component

    Go's [int] has 64 bits here and its arithmetic wraps around; a
    counting loop is a fold over the values of its variable.  Of the
    standard packages [image] and [image/color] the embedding has what
    the operator calls: points and rectangles, the interface
    [image.Image] as its two methods [Bounds] and [At], and [*image.RGBA]
    with [NewRGBA], [Set] and [At], its pixel buffer indexed by point
    rather than by byte offset.  Allocation is taken to succeed. *)

Module int.

Definition wrap (z : Z) : Z := (z + 2 ^ 63) mod 2 ^ 64 - 2 ^ 63.

Definition add (a b : Z) : Z := wrap (a + b).
Definition sub (a b : Z) : Z := wrap (a - b).
Definition mul (a b : Z) : Z := wrap (a * b).

(** [a / b] for a constant [b] other than zero: the quotient truncated
    toward zero. *)
Definition div (a b : Z) : Z := wrap (Z.quot a b).

(** [for v := lo; v < hi; v++ { s = body v s }] *)
Definition for_ {S : Type} (lo hi : Z) (body : Z -> S -> S) (s : S) : S :=
  foldl (fun s v => body v s) s (seqZ lo (hi - lo)).

End int.

Module float64.

(** The values of [float64] that the operator computes are rationals
    with denominator 1 or 2; [t] holds twice the value.  Halving and
    [math.Min] are exact on them; only the conversion from [int]
    rounds. *)
Definition t : Type := Z.

(** The integer nearest to [n] that has 53 significant bits, ties to
    even. *)
Definition round53 (n : Z) : Z :=
  let a := Z.abs n in
  let e := Z.log2 a - 52 in
  if e <=? 0 then n
  else
    let q := Z.shiftr a e in
    let r := Z.land a (Z.ones e) in
    let h := Z.shiftl 1 (e - 1) in
    let q := if (h <? r) || ((r =? h) && Z.odd q) then q + 1 else q in
    Z.sgn n * Z.shiftl q e.

(** [float64(n)] *)
Definition of_int (n : Z) : t := 2 * round53 n.

(** [f / 2], for [f] a whole number. *)
Definition halve (f : t) : t := Z.quot f 2.

(** [math.Min(f, g)] *)
Definition Min (f g : t) : t := if f <? g then f else g.

(** [int(f)]: the fraction is dropped. *)
Definition to_int (f : t) : Z := int.wrap (Z.quot f 2).

End float64.

Module color.

Record RGBA : Type := mkRGBA { R : Z; G : Z; B : Z; A : Z }.

(** A [color.Color] is a [color.RGBA] or a value of another type, known
    by the four 32-bit channels that its method [RGBA()] returns. *)
Inductive Color : Type :=
| OfRGBA (c : RGBA)
| Other (r g b a : Z).

Definition uint8 (z : Z) : Z := z mod 256.

(** [color.RGBAModel.Convert(c).(color.RGBA)] *)
Definition RGBAModel_Convert (c : Color) : RGBA :=
  match c with
  | OfRGBA c => c
  | Other r g b a =>
      mkRGBA (uint8 (Z.shiftr r 8)) (uint8 (Z.shiftr g 8))
             (uint8 (Z.shiftr b 8)) (uint8 (Z.shiftr a 8))
  end.

(** [color.Transparent], the [color.Alpha16{0}]. *)
Definition Transparent : Color := Other 0 0 0 0.

End color.

Module image.

Record Point : Type := mkPoint { X : Z; Y : Z }.

Record Rectangle : Type := mkRectangle { Min : Point; Max : Point }.

Definition Dx (r : Rectangle) : Z := int.sub (X (Max r)) (X (Min r)).
Definition Dy (r : Rectangle) : Z := int.sub (Y (Max r)) (Y (Min r)).

(** [p.In(r)] *)
Definition In (p : Point) (r : Rectangle) : bool :=
  (X (Min r) <=? X p) && (X p <? X (Max r))
  && (Y (Min r) <=? Y p) && (Y p <? Y (Max r)).

(** [image.Rect(x0, y0, x1, y1)] *)
Definition Rect (x0 y0 x1 y1 : Z) : Rectangle :=
  let '(x0, x1) := if x1 <? x0 then (x1, x0) else (x0, x1) in
  let '(y0, y1) := if y1 <? y0 then (y1, y0) else (y0, y1) in
  mkRectangle (mkPoint x0 y0) (mkPoint x1 y1).

Record Image : Type := mkImage {
  Bounds : Rectangle;
  At : Z -> Z -> color.Color
}.

Record RGBA : Type := mkRGBA {
  RGBA_Rect : Rectangle;
  Pix : Z -> Z -> color.RGBA
}.

(** [p.RGBAAt(x, y)]: the zero colour outside the rectangle. *)
Definition RGBAAt (p : RGBA) (x y : Z) : color.RGBA :=
  if In (mkPoint x y) (RGBA_Rect p) then Pix p x y else color.mkRGBA 0 0 0 0.

(** A [*image.RGBA] passed as an [image.Image]. *)
Definition as_Image (p : RGBA) : Image :=
  mkImage (RGBA_Rect p) (fun x y => color.OfRGBA (RGBAAt p x y)).

(** [p.Set(x, y, c)]: nothing outside the rectangle. *)
Definition Set_ (p : RGBA) (x y : Z) (c : color.Color) : RGBA :=
  if In (mkPoint x y) (RGBA_Rect p) then
    mkRGBA (RGBA_Rect p)
      (fun x' y' => if (x' =? x) && (y' =? y) then color.RGBAModel_Convert c
                    else Pix p x' y')
  else p.

(** The length of a pixel buffer, [-1] when it does not fit an [int]. *)
Definition mul3NonNeg (x y z : Z) : Z :=
  if (x <? 0) || (y <? 0) || (z <? 0) then -1
  else if 2 ^ 64 <=? x * y then -1
  else if 2 ^ 64 <=? x * y * z then -1
  else if 2 ^ 63 <=? x * y * z then -1
  else x * y * z.

(** [image.NewRGBA(r)]: every pixel zero.  [None] is the panic "image:
    NewRGBA Rectangle has huge or negative dimensions". *)
Definition NewRGBA (r : Rectangle) : option RGBA :=
  if mul3NonNeg 4 (Dx r) (Dy r) <? 0 then None
  else Some (mkRGBA r (fun _ _ => color.mkRGBA 0 0 0 0)).

End image.

(** The package [image] of the component, named [operator] here. *)
Module operator.

(** The field [Image], of the type [base64Image] that is not in the
    source, is handed over decoded. *)
Record cropInput : Type := mkCropInput {
  CornerRadius : Z;
  CircleRadius : Z;
  TopOffset : Z;
  RightOffset : Z;
  BottomOffset : Z;
  LeftOffset : Z
}.

(** How a call ends: it returns a value, it returns an error, or it
    panics with a message. *)
Inductive outcome (A : Type) : Type :=
| Returns (a : A)
| Fails (e : error)
| Panics (msg : string).
Arguments Returns {A} a.
Arguments Fails {A} e.
Arguments Panics {A} msg.

Definition isInsideRoundedCorner (x y width height radius radiusSquared : Z) : bool :=
  let inside (dx dy : Z) :=
    int.add (int.mul dx dx) (int.mul dy dy) <? radiusSquared in
  if (x <? radius) && (y <? radius) then
    inside (int.sub (int.sub radius x) 1) (int.sub (int.sub radius y) 1)
  else if (int.sub width radius <=? x) && (y <? radius) then
    inside (int.sub x (int.sub width radius)) (int.sub (int.sub radius y) 1)
  else if (x <? radius) && (int.sub height radius <=? y) then
    inside (int.sub (int.sub radius x) 1) (int.sub y (int.sub height radius))
  else if (int.sub width radius <=? x) && (int.sub height radius <=? y) then
    inside (int.sub x (int.sub width radius)) (int.sub y (int.sub height radius))
  else true.

Definition cropCornerRadius (img : image.Image) (radius : Z) : option image.RGBA :=
  let bounds := image.Bounds img in
  let width := image.Dx bounds in
  let height := image.Dy bounds in
  result ← image.NewRGBA bounds;
  let radiusSquared := int.mul radius radius in
  Some
    (int.for_ 0 height (fun y result =>
       int.for_ 0 width (fun x result =>
         if isInsideRoundedCorner x y width height radius radiusSquared
         then image.Set_ result x y (image.At img x y)
         else image.Set_ result x y color.Transparent) result) result).

Definition cropCircle (img : image.Image) (centerX centerY radius : Z)
  : option image.RGBA :=
  let bounds := image.Bounds img in
  result ← image.NewRGBA bounds;
  let radiusSquared := int.mul radius radius in
  Some
    (int.for_ (image.Y (image.Min bounds)) (image.Y (image.Max bounds)) (fun y result =>
       int.for_ (image.X (image.Min bounds)) (image.X (image.Max bounds)) (fun x result =>
         let dx := int.sub x centerX in
         let dy := int.sub y centerY in
         if int.add (int.mul dx dx) (int.mul dy dy) <=? radiusSquared
         then image.Set_ result x y (image.At img x y)
         else image.Set_ result x y color.Transparent) result) result).

Definition of_option {A : Type} (r : option A) : outcome A :=
  match r with
  | Some a => Returns a
  | None => Panics "image: NewRGBA Rectangle has huge or negative dimensions"
  end.

(** [crop] from the decoded image to the image that it encodes: the
    conversions of the input and of the output ([base.ConvertFromStructpb],
    [decodeBase64Image], [encodeBase64Image], [base.ConvertToStructpb])
    are not in the source. *)
Definition crop (inputStruct : cropInput) (img : image.Image) : outcome image.RGBA :=
  let bounds := image.Bounds img in
  let width := image.Dx bounds in
  let height := image.Dy bounds in
  let x1 := LeftOffset inputStruct in
  let y1 := TopOffset inputStruct in
  let x2 := int.sub width (RightOffset inputStruct) in
  let y2 := int.sub height (BottomOffset inputStruct) in
  if (x1 <? 0) || (y1 <? 0) || (width <? x2) || (height <? y2)
     || (x2 <=? x1) || (y2 <=? y1)
  then Fails (Errorf "invalid crop dimensions")
  else
    match image.NewRGBA (image.Rect 0 0 (int.sub x2 x1) (int.sub y2 y1)) with
    | None => of_option None
    | Some croppedImg =>
        let croppedImg :=
          int.for_ y1 y2 (fun y croppedImg =>
            int.for_ x1 x2 (fun x croppedImg =>
              image.Set_ croppedImg (int.sub x x1) (int.sub y y1) (image.At img x y))
              croppedImg) croppedImg in
        if 0 <? CircleRadius inputStruct then
          let bounds := image.RGBA_Rect croppedImg in
          let width := image.Dx bounds in
          let height := image.Dy bounds in
          let centerX := int.div width 2 in
          let centerY := int.div height 2 in
          let radius := CircleRadius inputStruct in
          let maxRadius := if height <? width then height else width in
          let radius :=
            if int.div maxRadius 2 <? radius then int.div maxRadius 2 else radius in
          of_option (cropCircle (image.as_Image croppedImg) centerX centerY radius)
        else if 0 <? CornerRadius inputStruct then
          let bounds := image.RGBA_Rect croppedImg in
          let width := image.Dx bounds in
          let height := image.Dy bounds in
          let maxRadius :=
            float64.halve (float64.Min (float64.of_int width) (float64.of_int height)) in
          let radius :=
            float64.to_int
              (float64.Min (float64.of_int (CornerRadius inputStruct)) maxRadius) in
          of_option (cropCornerRadius (image.as_Image croppedImg) radius)
        else Returns croppedImg
    end.

End operator.

(** ** A process to run the operations in

    Stand-ins for the libraries, with which the operations compute: every
    conversion succeeds, the dynamic object of an event keeps the
    projection it was made from, and [gob] writes an event as the bytes of
    its tag. *)

Module scenario.

Definition protojson_Marshal (s : structpb.Value) : result redis.bytes := Ok [].

Definition json_Unmarshal (b : redis.bytes) : result unit := Ok tt.

Definition gob_Encode_Event (e : memory.Event unit) : result redis.bytes :=
  Ok (list_byte_of_string (memory.Event_Event e)).

Definition world0 : memory.World :=
  memory.mkWorld (redis.mkClient ∅ [] None) 0.

(** The same process when the server cannot be reached. *)
Definition world_down : memory.World :=
  memory.mkWorld (redis.mkClient ∅ [] (Some (Foreign "redis" "connection refused"))) 0.

Definition store0 : memory.memoryStore unit := memory.mkMemoryStore ∅.

(** A workflow of two batches, as [NewWorkflowMemory] builds it. *)
Definition fresh : memory.workflowMemory unit :=
  memory.mkWorkflowMemory "w1" [memory.new_root; memory.new_root] None false.

(** [fresh] after [InitComponent(1, c1)], and then [EnableStreaming()]. *)
Definition initialised : memory.workflowMemory unit :=
  memory.mkWorkflowMemory "w1"
    [memory.new_root;
     data.Map (<["c1" := memory.compMemory]>
                 {[ "variable" := data.Map ∅; "secret" := data.Map ∅;
                    "output" := data.Map ∅ ]})]
    None false.

Definition started : memory.workflowMemory unit :=
  memory.EnableStreaming initialised.

(** The root of scenario S3. *)
Definition nested : data.Value :=
  data.Map {[ "a" := data.Map {[ "b" :=
    data.Array [data.Map {[ "c" := data.Number 10 ]};
                data.Map {[ "c" := data.Number 20 ]}] ]} ]}.

Definition s3 : memory.workflowMemory unit :=
  memory.mkWorkflowMemory "w3" [nested] None false.

(** The process is built with the [Map.ToStructValue] that skips nulls. *)
Definition rev : data.MapRevision := data.ValueReceiver.

Definition SetComponentData :=
  memory.SetComponentData (Recipe_t := unit) rev protojson_Marshal json_Unmarshal
    gob_Encode_Event.

Definition SetComponentStatus :=
  memory.SetComponentStatus (Recipe_t := unit) gob_Encode_Event.

Definition SetPipelineData :=
  memory.SetPipelineData (Recipe_t := unit) rev protojson_Marshal json_Unmarshal
    gob_Encode_Event.

(** The state in which a call returned; [d] if it panicked. *)
Definition state_of {S : Type} (r : exec S) (d : S) : S :=
  match r with
  | Done _ s => s
  | Crash _ => d
  end.

(** A store that holds [started], and a [gob] for its snapshot: the bytes
    are the identifier, and the decoder knows this one workflow. *)
Definition store1 : memory.memoryStore unit :=
  memory.mkMemoryStore {[ "w1" := started ]}.

Definition gob_Encode_wfm (s : memory.snapshot unit) : result redis.bytes :=
  Ok (list_byte_of_string (memory.snap_ID s)).

Definition gob_Decode_wfm (b : redis.bytes) : result (memory.snapshot unit) :=
  if String.eqb (string_of_list_byte b) "w1" then Ok (memory.exported started)
  else Err (Foreign "gob" "unexpected EOF").

(** Run [f] in the state in which [r] returned nil. *)
Definition and_then {S : Type} (r : exec S) (f : S -> exec S) : exec S :=
  match r with
  | Done None s => f s
  | _ => r
  end.

(** Scenario S2 on the component [c1] of batch 1: started, input, output,
    completed. *)
Definition lifecycle : exec (memory.workflowMemory unit * memory.World) :=
  and_then
    (and_then
       (and_then
          (SetComponentStatus started world0 1 "c1" memory.ComponentStatusStarted true)
          (fun s => SetComponentData s.1 s.2 1 "c1" memory.ComponentDataInput
                      (data.Map {[ "x" := data.Number 1 ]})))
       (fun s => SetComponentData s.1 s.2 1 "c1" memory.ComponentDataOutput
                   (data.Map {[ "y" := data.Number 2 ]})))
    (fun s => SetComponentStatus s.1 s.2 1 "c1" memory.ComponentStatusCompleted true).

(** A store that holds two workflows. *)
Definition store2 : memory.memoryStore unit :=
  memory.mkMemoryStore
    {[ "w1" := started;
       "w2" := memory.mkWorkflowMemory "w2" [memory.new_root] None false ]}.

(** A picture of eight by six pixels, each of its own colour. *)
Definition picture : image.Image :=
  image.mkImage (image.Rect 0 0 8 6)
    (fun x y => color.OfRGBA (color.mkRGBA x y 0 255)).

End scenario.

(** * Properties *)

(** ** Slices and results *)

Section Runtime.

Context {A : Type}.

Lemma index_in_range (s : list A) (i : Z) (a : A) :
  0 <= i < Z.of_nat (length s) -> s !! Z.to_nat i = Some a -> index s i = Ok a.
Proof.
  intros Hi Ha. unfold index.
  replace ((0 <=? i) && (i <? Z.of_nat (length s))) with true by lia.
  now rewrite Ha.
Qed.

Lemma index_out_of_range (s : list A) (i : Z) :
  ~ (0 <= i < Z.of_nat (length s)) -> index s i = Panic IndexOutOfRange.
Proof.
  intros Hi. unfold index.
  replace ((0 <=? i) && (i <? Z.of_nat (length s))) with false by lia.
  reflexivity.
Qed.

Lemma index_Ok (s : list A) (i : Z) (a : A) :
  index s i = Ok a -> 0 <= i < Z.of_nat (length s) /\ s !! Z.to_nat i = Some a.
Proof.
  unfold index. destruct ((0 <=? i) && (i <? Z.of_nat (length s))) eqn:Hb; [|discriminate].
  destruct (s !! Z.to_nat i) eqn:Hl; [|discriminate].
  intros [= ->]. split; [lia | reflexivity].
Qed.

Lemma index_never_fails (s : list A) (i : Z) (e : error) : index s i <> Err e.
Proof.
  unfold index. destruct ((0 <=? i) && (i <? Z.of_nat (length s))); [|discriminate].
  destruct (s !! Z.to_nat i); discriminate.
Qed.

End Runtime.

Lemma bind_Ok {A B} (r : result A) (f : A -> result B) (b : B) :
  r ≫= f = Ok b -> exists a, r = Ok a /\ f a = Ok b.
Proof. destruct r as [a| |]; simpl; [eauto | discriminate | discriminate]. Qed.

(** Reduce the binds of [result] whose argument is known. *)
Tactic Notation "run" :=
  cbn [mbind mret fmap result_mbind result_ret result_fmap result_bind].
Tactic Notation "run" "in" hyp(H) :=
  cbn [mbind mret fmap result_mbind result_ret result_fmap result_bind] in H.

(** ** Byte strings *)

Lemma append_nil_l (s : string) : "" +:+ s = s.
Proof. reflexivity. Qed.

Lemma append_cons (c : ascii) (s t : string) : String c s +:+ t = String c (s +:+ t).
Proof. reflexivity. Qed.

Lemma append_nil_r (s : string) : s +:+ "" = s.
Proof. induction s as [|c s IH]; [reflexivity|]. now rewrite append_cons, IH. Qed.

Lemma append_assoc (s t u : string) : (s +:+ t) +:+ u = s +:+ (t +:+ u).
Proof.
  induction s as [|c s IH]; [reflexivity|]. now rewrite !append_cons, IH.
Qed.

Lemma length_append (s t : string) :
  String.length (s +:+ t) = (String.length s + String.length t)%nat.
Proof.
  induction s as [|c s IH]; [reflexivity|].
  rewrite append_cons. simpl. now rewrite IH.
Qed.

Lemma substring_prefix (s t : string) :
  substring 0 (String.length s) (s +:+ t) = s.
Proof.
  induction s as [|c s IH].
  - simpl. destruct t; reflexivity.
  - rewrite append_cons. simpl. now rewrite IH.
Qed.

Lemma all_bytes_append (P : ascii -> bool) (s t : string) :
  memory.all_bytes P (s +:+ t) = memory.all_bytes P s && memory.all_bytes P t.
Proof.
  induction s as [|c s IH]; [reflexivity|].
  rewrite append_cons. simpl. rewrite IH. now rewrite andb_assoc.
Qed.

Lemma HasSuffix_append (s t : string) : HasSuffix (s +:+ t) t = true.
Proof.
  induction s as [|c s IH].
  - rewrite append_nil_l. destruct t; simpl.
    + reflexivity.
    + now rewrite Ascii.eqb_refl, String.eqb_refl.
  - rewrite append_cons. cbn [HasSuffix].
    destruct (String.eqb _ t); [reflexivity | exact IH].
Qed.

(** *** [strings.FieldsFunc] *)
Lemma FieldsFunc_from_run (f : ascii -> bool) (k : string) :
  memory.all_bytes (fun c => negb (f c)) k = true ->
  forall cur rest,
    FieldsFunc_from f cur (k +:+ rest) = FieldsFunc_from f (cur +:+ k) rest.
Proof.
  induction k as [|c k IH]; intros Hk cur rest.
  - now rewrite append_nil_l, append_nil_r.
  - simpl in Hk. apply andb_true_iff in Hk as [Hc Hk].
    rewrite append_cons. cbn [FieldsFunc_from].
    apply negb_true_iff in Hc. rewrite Hc.
    rewrite (IH Hk). f_equal.
    rewrite append_assoc. reflexivity.
Qed.

(** *** Decimal numerals *)
Lemma pretty_N_go_app (x : N) (s : string) :
  pretty_N_go x s = pretty_N_go x "" +:+ s.
Proof.
  revert s. induction (N.lt_wf_0 x) as [x _ IH]; intros s.
  destruct (decide (x = 0)%N) as [-> | Hx].
  - now rewrite !pretty_N_go_0.
  - rewrite (pretty_N_go_step x s), (pretty_N_go_step x "") by lia.
    assert (Hlt : (x `div` 10 < x)%N) by (apply N.div_lt; lia).
    rewrite (IH _ Hlt (String _ s)), (IH _ Hlt (String _ "")).
    now rewrite append_assoc.
Qed.

Lemma pretty_N_go_snoc (x : N) :
  (0 < x)%N ->
  pretty_N_go x "" = pretty_N_go (x `div` 10) "" +:+ String (pretty_N_char (x `mod` 10)) "".
Proof.
  intros Hx. rewrite pretty_N_go_step by exact Hx. apply pretty_N_go_app.
Qed.

Lemma digit_pretty_N_char (y : N) :
  (y < 10)%N -> digit (pretty_N_char y) = Some (Z.of_N y).
Proof.
  intros Hy.
  assert (H : (y = 0 \/ y = 1 \/ y = 2 \/ y = 3 \/ y = 4 \/ y = 5 \/ y = 6
               \/ y = 7 \/ y = 8 \/ y = 9)%N) by lia.
  repeat (destruct H as [-> | H]; [reflexivity|]). now subst.
Qed.

Lemma digits_from_append (a : Z) (s t : string) :
  digits_from a (s +:+ t) = digits_from a s ≫= fun b => digits_from b t.
Proof.
  revert a. induction s as [|c s IH]; intros a; [reflexivity|].
  rewrite append_cons. cbn [digits_from].
  destruct (digit c); [apply IH | reflexivity].
Qed.

Lemma digits_from_pretty_N_go (x : N) :
  digits_from 0 (pretty_N_go x "") = Some (Z.of_N x).
Proof.
  induction (N.lt_wf_0 x) as [x _ IH].
  destruct (decide (x = 0)%N) as [-> | Hx]; [reflexivity|].
  rewrite pretty_N_go_snoc by lia.
  rewrite digits_from_append, IH by (apply N.div_lt; lia).
  cbn [mbind option_bind digits_from].
  rewrite digit_pretty_N_char by (apply N.mod_lt; lia).
  f_equal. pose proof (N.div_mod x 10). lia.
Qed.


Lemma join_cons (p q : string) (rest : list string) :
  memory.join (p :: q :: rest) = p +:+ "][" +:+ memory.join (q :: rest).
Proof. reflexivity. Qed.

Lemma all_bytes_impl (P Q : ascii -> bool) (s : string) :
  (forall c, P c = true -> Q c = true) ->
  memory.all_bytes P s = true -> memory.all_bytes Q s = true.
Proof.
  intros HPQ. induction s as [|c s IH]; [reflexivity|]. simpl.
  intros [Hc Hs]%andb_true_iff. now rewrite (HPQ c Hc), IH.
Qed.

Lemma all_digits_pretty_N_go (x : N) :
  memory.all_bytes is_digit (pretty_N_go x "") = true.
Proof.
  induction (N.lt_wf_0 x) as [x _ IH].
  destruct (decide (x = 0)%N) as [-> | Hx]; [reflexivity|].
  rewrite pretty_N_go_snoc by lia.
  rewrite all_bytes_append, IH by (apply N.div_lt; lia).
  simpl. unfold is_digit.
  rewrite digit_pretty_N_char by (apply N.mod_lt; lia). reflexivity.
Qed.

Lemma pretty_N_cases (n : N) :
  pretty n = "0" /\ n = 0%N
  \/ (0 < n)%N /\ pretty n = pretty_N_go n "".
Proof.
  unfold pretty, pretty_N. destruct (decide (n = 0%N)) as [-> | Hn].
  - now left.
  - right. split; [lia | reflexivity].
Qed.

Lemma all_digits_pretty (n : N) : memory.all_bytes is_digit (pretty n) = true.
Proof.
  destruct (pretty_N_cases n) as [[-> _] | [_ ->]]; [reflexivity|].
  apply all_digits_pretty_N_go.
Qed.

Lemma pretty_not_empty (n : N) : pretty n <> "".
Proof.
  destruct (pretty_N_cases n) as [[-> _] | [Hn ->]]; [discriminate|].
  rewrite pretty_N_go_snoc by exact Hn.
  destruct (pretty_N_go _ ""); discriminate.
Qed.

Lemma digits_pretty (n : N) : digits (pretty n) = Some (Z.of_N n).
Proof.
  pose proof (pretty_not_empty n) as Hne.
  destruct (pretty_N_cases n) as [[-> ->] | [Hn Hp]]; [reflexivity|].
  rewrite Hp in *. unfold digits.
  destruct (pretty_N_go n "") eqn:Hs; [congruence|].
  rewrite <- Hs. apply digits_from_pretty_N_go.
Qed.

Lemma Atoi_digits (s : string) (n : Z) :
  memory.all_bytes is_digit s = true ->
  digits s = Some n -> 0 <= n <= maxInt ->
  Atoi s = Some n.
Proof.
  intros Hall Hd Hn. destruct s as [|c r]; [discriminate|].
  simpl in Hall. apply andb_true_iff in Hall as [Hc _].
  unfold Atoi.
  assert (Hminus : Ascii.eqb c "-" = false).
  { apply Ascii.eqb_neq. intros ->. discriminate. }
  assert (Hplus : Ascii.eqb c "+" = false).
  { apply Ascii.eqb_neq. intros ->. discriminate. }
  rewrite Hminus, Hplus, Hd.
  replace ((minInt <=? n) && (n <=? maxInt)) with true; [reflexivity|].
  unfold minInt, maxInt in *. lia.
Qed.

Lemma Atoi_pretty (n : N) :
  Z.of_N n <= maxInt -> Atoi (pretty n) = Some (Z.of_N n).
Proof.
  intros Hn. apply Atoi_digits.
  - apply all_digits_pretty.
  - apply digits_pretty.
  - lia.
Qed.

Lemma Atoi_quoted (k : string) : Atoi (memory.quote +:+ k +:+ memory.quote) = None.
Proof. reflexivity. Qed.

(** *** The path on its way through [Get] *)
Lemma digit_not_separator (c : ascii) :
  is_digit c = true -> negb (memory.is_separator c) = true.
Proof.
  unfold is_digit, digit, memory.is_separator. intros H.
  destruct (Ascii.eqb_spec c ".") as [-> | _]; [discriminate|].
  destruct (Ascii.eqb_spec c "[") as [-> | _]; [discriminate|].
  reflexivity.
Qed.

Lemma field_of_run (s : memory.segment) :
  memory.segment_ok s = true ->
  memory.all_bytes (fun c => negb (memory.is_separator c)) (memory.field_of s) = true
  /\ memory.field_of s <> "".
Proof.
  destruct s as [k | n]; cbn [memory.segment_ok memory.field_of].
  - intros [[Hne Hall]%andb_true_iff _]%andb_true_iff.
    split; [exact Hall|]. intros ->. discriminate.
  - intros _. split.
    + rewrite all_bytes_append. apply andb_true_iff. split; [|reflexivity].
      eapply all_bytes_impl; [apply digit_not_separator | apply all_digits_pretty].
    + pose proof (pretty_not_empty n). destruct (pretty n); [congruence | discriminate].
Qed.

Lemma render_segment_field (s : memory.segment) :
  exists c, memory.is_separator c = true
            /\ memory.render_segment s = String c (memory.field_of s).
Proof.
  destruct s as [k | n].
  - exists "."%char. split; reflexivity.
  - exists "["%char. split; reflexivity.
Qed.

Lemma FieldsFunc_from_render_segments (segs : list memory.segment) (cur : string) :
  forallb memory.segment_ok segs = true ->
  FieldsFunc_from memory.is_separator cur (memory.render_segments segs)
  = ((if String.eqb cur "" then [] else [cur]) ++ map memory.field_of segs)%list.
Proof.
  revert cur. induction segs as [|s segs IH]; intros cur Hok.
  - cbn [memory.render_segments FieldsFunc_from map]. now rewrite app_nil_r.
  - cbn [forallb] in Hok. apply andb_true_iff in Hok as [Hs Hok].
    destruct (field_of_run s Hs) as [Hrun Hne].
    destruct (render_segment_field s) as (c & Hc & Hrender).
    cbn [memory.render_segments map]. rewrite Hrender, append_cons.
    cbn [FieldsFunc_from]. rewrite Hc.
    rewrite (FieldsFunc_from_run _ _ Hrun), append_nil_l, (IH _ Hok).
    apply String.eqb_neq in Hne. rewrite Hne.
    destruct (String.eqb cur ""); reflexivity.
Qed.

Lemma FieldsFunc_render (segs : list memory.segment) :
  forallb memory.segment_ok segs = true ->
  FieldsFunc (memory.render segs) memory.is_separator = map memory.field_of segs.
Proof.
  intros Hok. unfold FieldsFunc.
  destruct segs as [|[k | n] rest].
  - reflexivity.
  - cbn [memory.render]. cbn [forallb] in Hok.
    apply andb_true_iff in Hok as [Hs Hok].
    destruct (field_of_run _ Hs) as [Hrun Hne]. cbn [memory.field_of] in *.
    rewrite (FieldsFunc_from_run _ _ Hrun), append_nil_l.
    rewrite (FieldsFunc_from_render_segments _ _ Hok).
    apply String.eqb_neq in Hne. now rewrite Hne.
  - cbn [memory.render].
    now rewrite (FieldsFunc_from_render_segments _ _ Hok).
Qed.

Lemma render_not_empty (segs : list memory.segment) :
  memory.well_formed segs = true -> String.eqb (memory.render segs) "" = false.
Proof.
  destruct segs as [|[k | n] rest]; [discriminate| |].
  - cbn [memory.well_formed forallb memory.segment_ok memory.render].
    intros [[[Hne _]%andb_true_iff _]%andb_true_iff _]%andb_true_iff.
    apply negb_true_iff in Hne.
    destruct k; [discriminate | reflexivity].
  - intros _. reflexivity.
Qed.

Lemma bracketed_field (acc : string) (s : memory.segment) :
  memory.segment_ok s = true ->
  memory.bracketed acc (memory.field_of s)
  = acc +:+ "[" +:+ memory.inner_of s +:+ "]".
Proof.
  destruct s as [k | n]; cbn [memory.segment_ok memory.field_of memory.inner_of];
    unfold memory.bracketed.
  - intros [_ Hsuffix]%andb_true_iff. apply negb_true_iff in Hsuffix.
    rewrite Hsuffix. now rewrite !append_assoc.
  - intros _. now rewrite HasSuffix_append.
Qed.

Lemma foldl_bracketed (segs : list memory.segment) (acc : string) :
  segs <> [] -> forallb memory.segment_ok segs = true ->
  foldl memory.bracketed acc (map memory.field_of segs)
  = acc +:+ "[" +:+ memory.join (map memory.inner_of segs) +:+ "]".
Proof.
  revert acc. induction segs as [|s segs IH]; intros acc Hne Hok; [congruence|].
  cbn [forallb] in Hok. apply andb_true_iff in Hok as [Hs Hok].
  cbn [map foldl]. rewrite (bracketed_field _ _ Hs).
  destruct segs as [|s' segs]; [reflexivity|].
  rewrite IH by (congruence || exact Hok).
  cbn [map]. rewrite join_cons. rewrite !append_assoc. reflexivity.
Qed.

(** Every field adds at least two bytes to the rewritten path. *)
Lemma length_bracketed (acc split : string) :
  (String.length acc + 2 <= String.length (memory.bracketed acc split))%nat.
Proof.
  unfold memory.bracketed. destruct (HasSuffix split "]") eqn:Hs.
  - rewrite !length_append. destruct split; [discriminate|]. simpl. lia.
  - rewrite !length_append. simpl. lia.
Qed.

Lemma length_foldl_bracketed (splits : list string) (acc : string) :
  (String.length acc + 2 * length splits
   <= String.length (foldl memory.bracketed acc splits))%nat.
Proof.
  revert acc. induction splits as [|x splits IH]; intros acc; simpl; [lia|].
  specialize (IH (memory.bracketed acc x)).
  pose proof (length_bracketed acc x). lia.
Qed.

(** *** Slicing *)
Lemma slice_inside (c : ascii) (x : string) (d : string) :
  String.length d = 1%nat ->
  slice (String c (x +:+ d)) 1 (len (String c (x +:+ d)) - 1) = Ok x.
Proof.
  intros Hd. unfold slice, len. cbn [String.length].
  rewrite length_append, Hd.
  destruct (_ && _) eqn:Hcond.
  - replace (Z.to_nat (Z.of_nat (S (String.length x + 1)) - 1 - 1))
      with (String.length x) by lia.
    change (Z.to_nat 1) with 1%nat. cbn [substring].
    now rewrite substring_prefix.
  - rewrite !andb_false_iff, !Z.leb_gt in Hcond. lia.
Qed.

Lemma slice_strip_Ok (s : string) :
  (2 <= String.length s)%nat -> exists x, slice s 1 (len s - 1) = Ok x.
Proof.
  intros Hlen. unfold slice, len.
  destruct (_ && _) eqn:Hcond; [eauto|].
  rewrite !andb_false_iff, !Z.leb_gt in Hcond. lia.
Qed.

(** *** [strings.Split] *)
Lemma HasPrefix_brackets (c : ascii) (s : string) :
  HasPrefix (String c s) "][" = Ascii.eqb c "]" && memory.starts_open s.
Proof.
  cbn [HasPrefix]. destruct (Ascii.eqb c "]"); [|reflexivity].
  destruct s as [|a s]; [reflexivity|]. cbn [HasPrefix memory.starts_open].
  destruct (Ascii.eqb a "["); [destruct s|]; reflexivity.
Qed.

Lemma Split_from_run (p : string) :
  memory.no_open p = true ->
  forall cur t, memory.starts_open t = false ->
    Split_from "][" 0 cur (p +:+ t) = Split_from "][" 0 (cur +:+ p) t.
Proof.
  induction p as [|c p IH]; intros Hp cur t Ht.
  - now rewrite append_nil_l, append_nil_r.
  - unfold memory.no_open in Hp. cbn [memory.all_bytes] in Hp.
    apply andb_true_iff in Hp as [Hc Hp].
    rewrite append_cons. cbn [Split_from].
    rewrite HasPrefix_brackets.
    assert (Hnext : memory.starts_open (p +:+ t) = false).
    { destruct p as [|a p]; [exact Ht|].
      cbn [memory.all_bytes] in Hp. apply andb_true_iff in Hp as [Ha _].
      rewrite append_cons. cbn [memory.starts_open]. now apply negb_true_iff. }
    rewrite Hnext, andb_false_r.
    rewrite (IH Hp) by exact Ht. now rewrite append_assoc.
Qed.

Lemma Split_from_separator (cur x : string) :
  Split_from "][" 0 cur ("][" +:+ x) = cur :: Split_from "][" 0 "" x.
Proof.
  change ("][" +:+ x) with (String "]" (String "[" x)).
  cbn [Split_from]. rewrite HasPrefix_brackets. reflexivity.
Qed.

Lemma Split_join (p : string) (rest : list string) (cur : string) :
  forallb memory.no_open (p :: rest) = true ->
  Split_from "][" 0 cur (memory.join (p :: rest)) = (cur +:+ p) :: rest.
Proof.
  revert p cur. induction rest as [|q rest IH]; intros p cur Hok;
    cbn [forallb] in Hok; apply andb_true_iff in Hok as [Hp Hok].
  - cbn [memory.join]. rewrite <- (append_nil_r p) at 1.
    rewrite (Split_from_run p Hp) by reflexivity. reflexivity.
  - rewrite join_cons.
    rewrite (Split_from_run p Hp) by reflexivity.
    rewrite Split_from_separator.
    now rewrite (IH q "" Hok).
Qed.

(** *** The walk *)
Lemma foldl_walk_Panic (p : panic) (ss : list string) :
  foldl memory.walk (Panic p) ss = Panic p.
Proof. induction ss as [|s ss IH]; [reflexivity | exact IH]. Qed.

Lemma inner_of_no_open (s : memory.segment) :
  memory.segment_ok s = true -> memory.no_open (memory.inner_of s) = true.
Proof.
  destruct s as [k | n]; cbn [memory.segment_ok memory.inner_of]; unfold memory.no_open.
  - intros [[_ Hall]%andb_true_iff _]%andb_true_iff.
    change (memory.quote +:+ k +:+ memory.quote)
      with (String "034" (k +:+ memory.quote)).
    cbn [memory.all_bytes]. rewrite all_bytes_append.
    apply andb_true_iff. split; [reflexivity|].
    apply andb_true_iff. split; [|reflexivity].
    eapply all_bytes_impl; [|exact Hall].
    intros c. unfold memory.is_separator.
    destruct (Ascii.eqb c "."), (Ascii.eqb c "["); simpl; congruence.
  - intros _. eapply all_bytes_impl; [|apply all_digits_pretty].
    intros c Hc. apply digit_not_separator in Hc.
    unfold memory.is_separator in Hc.
    destruct (Ascii.eqb c "."), (Ascii.eqb c "["); simpl in *; congruence.
Qed.

Lemma walk_inner_of (ptr : data.Value) (s : memory.segment) (rest : list memory.segment) :
  memory.segment_ok s = true ->
  match memory.walk (Ok ptr) (memory.inner_of s) with
  | Ok v => memory.resolve ptr (s :: rest) = memory.resolve v rest
  | Err e => False
  | Panic p => memory.resolve ptr (s :: rest) = Panic p
  end.
Proof.
  destruct s as [k | n]; cbn [memory.segment_ok memory.inner_of]; intros Hok.
  - unfold memory.walk. cbn [mbind result_mbind result_bind].
    rewrite Atoi_quoted.
    change (memory.quote +:+ k +:+ memory.quote)
      with (String "034" (k +:+ memory.quote)).
    rewrite slice_inside by reflexivity.
    cbn [mbind result_mbind result_bind].
    destruct ptr; reflexivity.
  - unfold memory.walk. cbn [mbind result_mbind result_bind].
    apply Z.leb_le in Hok. rewrite (Atoi_pretty n Hok).
    destruct ptr as [| | | | |vs|]; try reflexivity.
    cbn [data.Values mbind result_mbind result_bind memory.resolve].
    unfold index. replace (Z.to_nat (Z.of_N n)) with (N.to_nat n) by lia.
    destruct ((0 <=? Z.of_N n) && (Z.of_N n <? Z.of_nat (length vs))) eqn:Hr.
    + destruct (vs !! N.to_nat n); reflexivity.
    + destruct (vs !! N.to_nat n) eqn:Hl; [|reflexivity].
      apply lookup_lt_Some in Hl.
      rewrite andb_false_iff, Z.leb_gt, Z.ltb_ge in Hr. lia.
Qed.

Lemma foldl_walk_resolve (segs : list memory.segment) (ptr : data.Value) :
  forallb memory.segment_ok segs = true ->
  foldl memory.walk (Ok ptr) (map memory.inner_of segs) = memory.resolve ptr segs.
Proof.
  revert ptr. induction segs as [|s segs IH]; intros ptr Hok; [reflexivity|].
  cbn [forallb] in Hok. apply andb_true_iff in Hok as [Hs Hok].
  cbn [map foldl].
  pose proof (walk_inner_of ptr s segs Hs) as Hstep.
  destruct (memory.walk (Ok ptr) (memory.inner_of s)) as [v|e|p].
  - rewrite Hstep. now apply IH.
  - contradiction.
  - rewrite Hstep. apply foldl_walk_Panic.
Qed.

(** ** Go maps *)

Lemma at_key_insert_eq (m : gmap string data.Value) (k : string) (v : data.Value) :
  data.at_key (<[k := v]> m) k = v.
Proof. unfold data.at_key. now rewrite lookup_insert_eq. Qed.

Lemma at_key_present (m : gmap string data.Value) (k : string) (v : data.Value) :
  m !! k = Some v -> data.at_key m k = v.
Proof. intros H. unfold data.at_key. now rewrite H. Qed.

Lemma at_key_absent (m : gmap string data.Value) (k : string) :
  m !! k = None -> data.at_key m k = data.Nil.
Proof. intros H. unfold data.at_key. now rewrite H. Qed.

(** ** Structural projection *)

Section Projection.

(** The projection of the values stored under the keys. *)
Variable proj : data.Value -> result structpb.Value.

(** [func (m Map) ToStructValue]: the loop leaves out the keys whose value
    is nil or [*Null] and keeps every other key with the projection of its
    value. *)
Lemma range_skip_null_spec (fs : gmap string data.Value)
    (mp : gmap string structpb.Value) :
  map_fold (data.range_skip_null proj) (Ok ∅) fs = Ok mp ->
  forall k,
    match fs !! k with
    | None | Some data.Nil | Some data.Null => mp !! k = None
    | Some v => exists s, proj v = Ok s /\ mp !! k = Some s
    end.
Proof.
  revert mp.
  apply (map_fold_weak_ind
           (fun r (m : gmap string data.Value) =>
              forall mp, r = Ok mp ->
              forall k, match m !! k with
                        | None | Some data.Nil | Some data.Null => mp !! k = None
                        | Some v => exists s, proj v = Ok s /\ mp !! k = Some s
                        end)).
  - intros mp [= <-] k. now rewrite !lookup_empty.
  - intros i x m r Hi IH mp Hstep k.
    unfold data.range_skip_null in Hstep.
    apply bind_Ok in Hstep as (mp0 & -> & Hstep).
    specialize (IH mp0 eq_refl).
    destruct (decide (i = k)) as [-> | Hne].
    + rewrite lookup_insert_eq.
      specialize (IH k). rewrite Hi in IH.
      destruct x; try (injection Hstep as <-; exact IH);
        apply bind_Ok in Hstep as (sv & Hsv & [= <-]);
        exists sv; (split; [exact Hsv | apply lookup_insert_eq]).
    + rewrite lookup_insert_ne by exact Hne.
      specialize (IH k).
      assert (Hmp : mp !! k = mp0 !! k).
      { destruct x; try (injection Hstep as <-; reflexivity);
          apply bind_Ok in Hstep as (sv & _ & [= <-]);
          now rewrite lookup_insert_ne. }
      now rewrite Hmp.
Qed.

(** [func (m *Map) ToStructValue]: the loop keeps every key; a nil value
    is written as a null literal, any other value as its projection. *)
Lemma range_keep_null_spec (fs : gmap string data.Value)
    (mp : gmap string structpb.Value) :
  map_fold (data.range_keep_null proj) (Ok ∅) fs = Ok mp ->
  forall k,
    match fs !! k with
    | None => mp !! k = None
    | Some data.Nil => mp !! k = Some structpb.NullValue
    | Some v => exists s, proj v = Ok s /\ mp !! k = Some s
    end.
Proof.
  revert mp.
  apply (map_fold_weak_ind
           (fun r (m : gmap string data.Value) =>
              forall mp, r = Ok mp ->
              forall k, match m !! k with
                        | None => mp !! k = None
                        | Some data.Nil => mp !! k = Some structpb.NullValue
                        | Some v => exists s, proj v = Ok s /\ mp !! k = Some s
                        end)).
  - intros mp [= <-] k. now rewrite !lookup_empty.
  - intros i x m r Hi IH mp Hstep k.
    unfold data.range_keep_null in Hstep.
    apply bind_Ok in Hstep as (mp0 & -> & Hstep).
    specialize (IH mp0 eq_refl).
    destruct (decide (i = k)) as [-> | Hne].
    + rewrite lookup_insert_eq.
      destruct x; try (injection Hstep as <-; apply lookup_insert_eq);
        apply bind_Ok in Hstep as (sv & Hsv & [= <-]);
        exists sv; (split; [exact Hsv | apply lookup_insert_eq]).
    + rewrite lookup_insert_ne by exact Hne.
      specialize (IH k).
      assert (Hmp : mp !! k = mp0 !! k).
      { destruct x; try (injection Hstep as <-; now rewrite lookup_insert_ne);
          apply bind_Ok in Hstep as (sv & _ & [= <-]);
          now rewrite lookup_insert_ne. }
      now rewrite Hmp.
Qed.

(** The loop over the elements of an array keeps length and positions. *)
Lemma mapM_result_spec (vs : list data.Value) (l : list structpb.Value) :
  mapM proj vs = Ok l ->
  length l = length vs
  /\ forall i v, vs !! i = Some v -> exists s, proj v = Ok s /\ l !! i = Some s.
Proof.
  revert l. induction vs as [|v vs IH]; intros l H.
  - injection H as <-. split; [reflexivity|]. intros i v Hv. discriminate.
  - cbn [mapM] in H.
    apply bind_Ok in H as (s & Hs & H).
    apply bind_Ok in H as (l' & Hl' & [= <-]).
    destruct (IH l' Hl') as [Hlen Hnth].
    split; [simpl; now rewrite Hlen|].
    intros [|i] x Hx.
    + injection Hx as <-. eauto.
    + apply (Hnth i x Hx).
Qed.

End Projection.

Lemma ToStructValue_Map (rev : data.MapRevision) (fs : gmap string data.Value) :
  data.ToStructValue rev (data.Map fs)
  = structpb.NewStructValue <$>
      map_fold
        (match rev with
         | data.ValueReceiver => data.range_skip_null (data.ToStructValue rev)
         | data.PointerReceiver => data.range_keep_null (data.ToStructValue rev)
         end) (Ok ∅) fs.
Proof. reflexivity. Qed.

Lemma ToStructValue_Array (rev : data.MapRevision) (vs : list data.Value) :
  data.ToStructValue rev (data.Array vs)
  = structpb.ListValue <$> mapM (data.ToStructValue rev) vs.
Proof. reflexivity. Qed.

(** C8, as the code has it.  The revision of [Map.ToStructValue] with a
    value receiver leaves out of the object every key whose value is nil
    or [Null] and keeps the others.  The revision with a pointer receiver
    leaves out no key: a key whose value is nil or [Null] stays, with a
    null literal.  The projection of an array has the length of the array
    and a null literal at every index that holds a [Null]. *)
Theorem projection_of_null_entries :
  (forall fs s,
      data.ToStructValue data.ValueReceiver (data.Map fs) = Ok s ->
      exists mp,
        s = structpb.StructValue mp
        /\ (forall k, fs !! k = Some data.Null \/ fs !! k = Some data.Nil ->
                      mp !! k = None)
        /\ (forall k, is_Some (mp !! k) <->
                      exists v, fs !! k = Some v /\ v <> data.Null /\ v <> data.Nil))
  /\ (forall fs s,
        data.ToStructValue data.PointerReceiver (data.Map fs) = Ok s ->
        exists mp,
          s = structpb.StructValue mp
          /\ (forall k, fs !! k = Some data.Null \/ fs !! k = Some data.Nil ->
                        mp !! k = Some structpb.NullValue)
          /\ (forall k, is_Some (mp !! k) <-> is_Some (fs !! k)))
  /\ (forall rev vs s,
        data.ToStructValue rev (data.Array vs) = Ok s ->
        exists l,
          s = structpb.ListValue l
          /\ length l = length vs
          /\ (forall i, vs !! i = Some data.Null -> l !! i = Some structpb.NullValue)).
Proof.
  split; [|split].
  - intros fs s H. rewrite ToStructValue_Map in H.
    destruct (map_fold _ _ fs) as [mp| |] eqn:Hfold; try discriminate.
    injection H as <-. exists mp. split; [reflexivity|].
    pose proof (range_skip_null_spec _ fs mp Hfold) as Hspec.
    split.
    + intros k [Hk | Hk]; specialize (Hspec k); now rewrite Hk in Hspec.
    + intros k. specialize (Hspec k). split.
      * intros [sv Hsv]. destruct (fs !! k) as [v|]; [|congruence].
        exists v. split; [reflexivity|].
        destruct v; (split; [|]); congruence.
      * intros (v & Hv & Hnull & Hnil). rewrite Hv in Hspec.
        destruct v; try congruence; destruct Hspec as (sv & _ & ->); eauto.
  - intros fs s H. rewrite ToStructValue_Map in H.
    destruct (map_fold _ _ fs) as [mp| |] eqn:Hfold; try discriminate.
    injection H as <-. exists mp. split; [reflexivity|].
    pose proof (range_keep_null_spec _ fs mp Hfold) as Hspec.
    split.
    + intros k [Hk | Hk]; specialize (Hspec k); rewrite Hk in Hspec.
      * destruct Hspec as (sv & Hsv & ->). now injection Hsv as <-.
      * exact Hspec.
    + intros k. specialize (Hspec k).
      destruct (fs !! k) as [v|].
      * split; [eauto|]. intros _.
        destruct v; try (rewrite Hspec; eauto); destruct Hspec as (sv & _ & ->); eauto.
      * rewrite Hspec. split; intros [? ?]; discriminate.
  - intros rev vs s H. rewrite ToStructValue_Array in H.
    destruct (mapM _ vs) as [l| |] eqn:HmapM; try discriminate.
    injection H as <-. exists l. split; [reflexivity|].
    apply mapM_result_spec in HmapM as [Hlen Hnth].
    split; [exact Hlen|].
    intros i Hi. destruct (Hnth i _ Hi) as (sv & Hsv & ->).
    now injection Hsv as <-.
Qed.

(** ** The workflow memory *)

Section Properties.

Context {Recipe_t JSONObject : Type}.
Variable rev : data.MapRevision.
Variable protojson_Marshal : structpb.Value -> result redis.bytes.
Variable json_Unmarshal : redis.bytes -> result JSONObject.
Variable gob_Encode_Event : memory.Event JSONObject -> result redis.bytes.
Variable gob_Encode_wfm : memory.snapshot Recipe_t -> result redis.bytes.
Variable gob_Decode_wfm : redis.bytes -> result (memory.snapshot Recipe_t).

Local Abbreviation wfm_t := (memory.workflowMemory Recipe_t).
Local Abbreviation SetComponentData :=
  (memory.SetComponentData rev protojson_Marshal json_Unmarshal gob_Encode_Event).
Local Abbreviation SetComponentStatus := (memory.SetComponentStatus gob_Encode_Event).
Local Abbreviation SetPipelineData :=
  (memory.SetPipelineData rev protojson_Marshal json_Unmarshal gob_Encode_Event).

Lemma root_fields_out_of_range (wfm : wfm_t) (i : Z) :
  ~ (0 <= i < memory.GetBatchSize wfm) ->
  memory.root_fields wfm i = Panic IndexOutOfRange.
Proof.
  intros Hi. unfold memory.root_fields.
  now rewrite index_out_of_range.
Qed.

Lemma root_fields_Ok (wfm : wfm_t) (i : Z) (fs : gmap string data.Value) :
  memory.root_fields wfm i = Ok fs ->
  0 <= i < memory.GetBatchSize wfm /\ memory.Data wfm !! Z.to_nat i = Some (data.Map fs).
Proof.
  unfold memory.root_fields. intros H.
  apply bind_Ok in H as (root & Hroot & Hfs).
  apply index_Ok in Hroot as [Hi Hroot].
  destruct root; try discriminate. injection Hfs as ->. auto.
Qed.

Lemma root_fields_store_root (wfm : wfm_t) (i : Z) (v : data.Value) :
  0 <= i < memory.GetBatchSize wfm ->
  memory.root_fields (memory.store_root wfm i v) i = data.Fields v.
Proof.
  intros Hi. unfold memory.root_fields, memory.store_root, memory.GetBatchSize in *.
  simpl. erewrite index_in_range; [reflexivity | |].
  - rewrite length_insert. lia.
  - apply list_lookup_insert_eq. lia.
Qed.

Lemma new_data_replicate (n : nat) :
  memory.new_data n = replicate n memory.new_root.
Proof.
  unfold memory.new_data.
  enough (H : forall k m,
             foldl (fun d idx => <[idx := memory.new_root]> d)
               (replicate k memory.new_root ++ replicate m data.Nil)%list (seq k m)
             = replicate (k + m) memory.new_root).
  { apply (H 0%nat n). }
  intros k m. revert k. induction m as [|m IH]; intros k; simpl.
  - now rewrite app_nil_r, Nat.add_0_r.
  - replace (<[k := memory.new_root]>
               (replicate k memory.new_root ++ data.Nil :: replicate m data.Nil)%list)
      with (replicate (S k) memory.new_root ++ replicate m data.Nil)%list.
    + rewrite IH. f_equal. lia.
    + rewrite insert_app_r_alt by (rewrite length_replicate; lia).
      rewrite length_replicate, Nat.sub_diag.
      change (<[0%nat := memory.new_root]> (data.Nil :: replicate m data.Nil))
        with (memory.new_root :: replicate m data.Nil).
      rewrite replicate_S_end. now rewrite <- app_assoc.
Qed.

(** C9.  After [NewWorkflowMemory(id, recipe, batchSize)], at every batch
    index [0 <= i < batchSize], [GetPipelineData(i, t)] for [t] one of
    variable, secret and output returns the empty map with a nil error. *)
Theorem new_workflow_memory_pipeline_data_empty
    (ms : memory.memoryStore Recipe_t) (workflowID : string)
    (r : option Recipe_t) (batchSize i : Z) (t : memory.PipelineDataType) :
  0 <= i < batchSize ->
  t ∈ [memory.PipelineVariable; memory.PipelineSecret; memory.PipelineOutput] ->
  exists wfm ms',
    memory.NewWorkflowMemory ms workflowID r batchSize = Ok (wfm, ms')
    /\ memory.GetBatchSize wfm = batchSize
    /\ memory.GetPipelineData wfm i t = Ok (data.NewMap None).
Proof.
  intros Hi Ht. unfold memory.NewWorkflowMemory.
  replace (batchSize <? 0) with false by lia.
  cbn [memory.workflows]. rewrite lookup_insert_eq.
  eexists _, _. split; [reflexivity|].
  rewrite new_data_replicate.
  split.
  { unfold memory.GetBatchSize. cbn [memory.Data]. rewrite length_replicate. lia. }
  unfold memory.GetPipelineData, memory.root_fields. cbn [memory.Data].
  erewrite index_in_range; cycle 1.
  - rewrite length_replicate. lia.
  - apply lookup_replicate_2. lia.
  - simpl. set_unfold in Ht.
    destruct Ht as [-> | [-> | [-> | []]]]; reflexivity.
Qed.

(** C10.  In a component whose map has no entry for the slot [t],
    [GetComponentData(i, C, t)] returns the nil value with a nil error;
    this is the state of the slot element right after
    [InitComponent(i, C)]. *)
Theorem get_component_data_unwritten_slot_is_nil :
  (forall (wfm : wfm_t) (i : Z) (C : string) (t : memory.ComponentDataType)
          (fs cfs : gmap string data.Value),
      memory.root_fields wfm i = Ok fs ->
      fs !! C = Some (data.Map cfs) ->
      cfs !! t = None ->
      memory.GetComponentData wfm i C t = Ok data.Nil)
  /\ (forall (wfm wfm' : wfm_t) (i : Z) (C : string),
        memory.InitComponent wfm i C = Ok wfm' ->
        memory.GetComponentData wfm' i C memory.ComponentDataElement = Ok data.Nil).
Proof.
  assert (Hgen : forall (wfm : wfm_t) i C t fs cfs,
             memory.root_fields wfm i = Ok fs ->
             fs !! C = Some (data.Map cfs) ->
             cfs !! t = None ->
             memory.GetComponentData wfm i C t = Ok data.Nil).
  { intros wfm i C t fs cfs Hfs HC Ht.
    unfold memory.GetComponentData, memory.component.
    rewrite Hfs. run. rewrite HC. run. cbn [data.Fields]. run.
    now rewrite at_key_absent. }
  split; [exact Hgen|].
  intros wfm wfm' i C Hinit. unfold memory.InitComponent in Hinit.
  apply bind_Ok in Hinit as (fs & Hfs & [= <-]).
  apply root_fields_Ok in Hfs as Hi. destruct Hi as [Hi _].
  eapply Hgen.
  - rewrite root_fields_store_root by exact Hi. reflexivity.
  - apply lookup_insert_eq.
  - reflexivity.
Qed.

(** C1, as the code has it.  At a batch index outside
    [0 <= i < batchSize] every operation that takes one panics on the
    indexing of [wfm.Data]; none returns an error.  Only [Get] on a
    non-empty path made of separators alone panics earlier, on the
    slicing of the empty rewritten path. *)
Theorem batch_index_out_of_range_panics
    (wfm : wfm_t) (w : memory.World) (i : Z) :
  ~ (0 <= i < memory.GetBatchSize wfm) ->
  (forall key v, memory.Set_ wfm i key v = Panic IndexOutOfRange)
  /\ (forall path,
        memory.Get wfm i path
        = match path, FieldsFunc path memory.is_separator with
          | String _ _, [] => Panic SliceBoundsOutOfRange
          | _, _ => Panic IndexOutOfRange
          end)
  /\ (forall C, memory.InitComponent wfm i C = Panic IndexOutOfRange)
  /\ (forall C t v, SetComponentData wfm w i C t v = Crash IndexOutOfRange)
  /\ (forall C t, memory.GetComponentData wfm i C t = Panic IndexOutOfRange)
  /\ (forall C t b, SetComponentStatus wfm w i C t b = Crash IndexOutOfRange)
  /\ (forall C t, memory.GetComponentStatus wfm i C t = Panic IndexOutOfRange)
  /\ (forall t v, SetPipelineData wfm w i t v = Crash IndexOutOfRange)
  /\ (forall t, memory.GetPipelineData wfm i t = Panic IndexOutOfRange).
Proof.
  intros Hi.
  pose proof (root_fields_out_of_range wfm i Hi) as Hroot.
  assert (Hidx : index (memory.Data wfm) i = Panic IndexOutOfRange)
    by (now apply index_out_of_range).
  repeat split; intros.
  - unfold memory.Set_. now rewrite Hroot.
  - unfold memory.Get. destruct path as [|c path]; [exact Hidx|].
    cbn [String.eqb].
    destruct (FieldsFunc (String c path) memory.is_separator) as [|x splits] eqn:Hf.
    + reflexivity.
    + destruct (slice_strip_Ok (foldl memory.bracketed "" (x :: splits))) as [np ->].
      * pose proof (length_foldl_bracketed (x :: splits) ""). simpl in *. lia.
      * run. now rewrite Hidx.
  - unfold memory.InitComponent. now rewrite Hroot.
  - unfold memory.SetComponentData, memory.write_component_data, memory.component.
    now rewrite Hroot.
  - unfold memory.GetComponentData, memory.component. now rewrite Hroot.
  - unfold memory.SetComponentStatus, memory.write_component_status, memory.component.
    now rewrite Hroot.
  - unfold memory.GetComponentStatus, memory.component. now rewrite Hroot.
  - unfold memory.SetPipelineData, memory.write_pipeline_data. now rewrite Hroot.
  - unfold memory.GetPipelineData. now rewrite Hroot.
Qed.

(** *** The assignments *)

Lemma write_pipeline_data_Ok (wfm wfm' : wfm_t) i t v :
  memory.write_pipeline_data wfm i t v = Ok wfm' ->
  exists fs,
    memory.root_fields wfm i = Ok fs
    /\ wfm' = memory.store_root wfm i (data.Map (<[t := v]> fs)).
Proof.
  unfold memory.write_pipeline_data. intros H.
  apply bind_Ok in H as (fs & Hfs & [= <-]). eauto.
Qed.

Lemma component_Ok (wfm : wfm_t) i C fs comp :
  memory.component wfm i C = Ok (fs, comp) ->
  memory.root_fields wfm i = Ok fs /\ fs !! C = Some comp.
Proof.
  unfold memory.component. intros H.
  apply bind_Ok in H as (fs' & Hfs & H).
  destruct (fs' !! C) eqn:HC; [|discriminate].
  injection H as -> ->. auto.
Qed.

Lemma write_component_data_Ok (wfm wfm' : wfm_t) i C t v :
  memory.write_component_data wfm i C t v = Ok wfm' ->
  exists fs cfs,
    memory.root_fields wfm i = Ok fs
    /\ fs !! C = Some (data.Map cfs)
    /\ wfm' = memory.store_root wfm i
                (data.Map (<[C := data.Map (<[t := v]> cfs)]> fs)).
Proof.
  unfold memory.write_component_data. intros H.
  apply bind_Ok in H as ([fs comp] & Hc & H).
  apply component_Ok in Hc as [Hfs HC].
  apply bind_Ok in H as (cfs & Hcfs & [= <-]).
  destruct comp; try discriminate. injection Hcfs as ->. eauto.
Qed.

Lemma write_component_status_Ok (wfm wfm' : wfm_t) i C t b :
  memory.write_component_status wfm i C t b = Ok wfm' ->
  exists fs cfs sfs,
    memory.root_fields wfm i = Ok fs
    /\ fs !! C = Some (data.Map cfs)
    /\ cfs !! "status" = Some (data.Map sfs)
    /\ wfm' = memory.store_root wfm i
                (data.Map (<[C := data.Map
                   (<["status" := data.Map (<[t := data.Boolean b]> sfs)]> cfs)]> fs)).
Proof.
  unfold memory.write_component_status. intros H.
  apply bind_Ok in H as ([fs comp] & Hc & H).
  apply component_Ok in Hc as [Hfs HC].
  apply bind_Ok in H as (cfs & Hcfs & H).
  destruct comp; try discriminate. injection Hcfs as ->.
  apply bind_Ok in H as (sfs & Hsfs & [= <-]).
  unfold data.at_key in Hsfs.
  destruct (cfs !! "status") as [st|] eqn:Hst; [|discriminate].
  destruct st; try discriminate. injection Hsfs as ->.
  eauto 10.
Qed.

(** After an assignment under a component, the component is read back
    from the new root. *)
Lemma component_store_root (wfm : wfm_t) i C fs comp :
  0 <= i < memory.GetBatchSize wfm ->
  memory.component (memory.store_root wfm i (data.Map (<[C := comp]> fs))) i C
  = Ok (<[C := comp]> fs, comp).
Proof.
  intros Hi. unfold memory.component.
  rewrite root_fields_store_root by exact Hi.
  cbn [data.Fields]. run. now rewrite lookup_insert_eq.
Qed.

(** *** Publication *)

Lemma publish_returns_nil (wfm wfm' : wfm_t) w w' ev :
  memory.publish gob_Encode_Event wfm w ev = Done None (wfm', w') ->
  wfm' = wfm
  /\ memory.now w' = memory.now w
  /\ exists event, ev = Ok event
                   /\ memory.publishes gob_Encode_Event w w' (memory.ID wfm) event.
Proof.
  unfold memory.publish. destruct ev as [event| |]; run; try discriminate.
  destruct (gob_Encode_Event event) as [buf| |] eqn:Hbuf; try discriminate.
  unfold redis.Publish. destruct (redis.fault (memory.redisClient w)); [discriminate|].
  intros [= <- <-]. repeat split. exists event. split; [reflexivity|].
  exists buf. split; [exact Hbuf | reflexivity].
Qed.

Lemma publish_with_fault (wfm : wfm_t) w e event buf :
  gob_Encode_Event event = Ok buf ->
  memory.publish gob_Encode_Event wfm (memory.with_fault w e) (Ok event)
  = Done (Some e) (wfm, memory.with_fault w e).
Proof.
  intros Hbuf. unfold memory.publish. run. rewrite Hbuf. reflexivity.
Qed.

Lemma publishes_encodes w w' channel (event : memory.Event JSONObject) :
  memory.publishes gob_Encode_Event w w' channel event ->
  exists buf, gob_Encode_Event event = Ok buf.
Proof. intros (buf & Hbuf & _). eauto. Qed.

(** *** Events of the mutations *)

Lemma pipeline_data_event_published
    (wfm wfm' : wfm_t) (w w' : memory.World) (i : Z)
    (t : memory.PipelineDataType) (v : data.Value) :
  memory.streaming wfm = true ->
  SetPipelineData wfm w i t v = Done None (wfm', w') ->
  exists d,
    memory.publishes gob_Encode_Event w w' (memory.ID wfm)
      (memory.pipeline_data_event w t d).
Proof.
  intros Hstream H. unfold memory.SetPipelineData in H.
  destruct (memory.write_pipeline_data wfm i t v) as [wfm1| |] eqn:Hw; try discriminate.
  apply write_pipeline_data_Ok in Hw as (fs & Hfs & ->).
  cbn [memory.streaming memory.store_root] in H. rewrite Hstream in H.
  apply publish_returns_nil in H as (-> & _ & event & Hev & Hpub).
  destruct (memory.to_dynamic rev protojson_Marshal json_Unmarshal v) as [d| |];
    try discriminate.
  injection Hev as <-. eauto.
Qed.

(** C4, as the code has it.  With streaming enabled, a
    [SetPipelineData(i, T, v)] that returns nil has published exactly one
    message whatever [T] is.  The message is a pipeline_output_updated
    event exactly when [T] is output; for every other [T] it is the
    encoding of the empty [Event{}]. *)
Theorem set_pipeline_data_publishes_for_every_type
    (wfm wfm' : wfm_t) (w w' : memory.World) (i : Z)
    (t : memory.PipelineDataType) (v : data.Value) :
  memory.streaming wfm = true ->
  SetPipelineData wfm w i t v = Done None (wfm', w') ->
  exists d event,
    memory.to_dynamic rev protojson_Marshal json_Unmarshal v = Ok d
    /\ memory.publishes gob_Encode_Event w w' (memory.ID wfm) event
    /\ (t = memory.PipelineOutput ->
        event = memory.mkEvent memory.PipelineOutputUpdated
                  (memory.PipelineCompletedEventData (memory.now w) 0 d))
    /\ (t <> memory.PipelineOutput -> event = memory.zeroEvent)
    /\ (memory.Event_Event event = memory.PipelineOutputUpdated
        <-> t = memory.PipelineOutput).
Proof.
  intros Hstream H. unfold memory.SetPipelineData in H.
  destruct (memory.write_pipeline_data wfm i t v) as [wfm1| |] eqn:Hw; try discriminate.
  apply write_pipeline_data_Ok in Hw as (fs & Hfs & ->).
  cbn [memory.streaming memory.store_root] in H. rewrite Hstream in H.
  apply publish_returns_nil in H as (-> & _ & event & Hev & Hpub).
  destruct (memory.to_dynamic rev protojson_Marshal json_Unmarshal v) as [d| |] eqn:Hd;
    try discriminate.
  injection Hev as <-. exists d. eexists. split; [reflexivity|].
  split; [exact Hpub|].
  unfold memory.pipeline_data_event.
  destruct (String.eqb_spec t memory.PipelineOutput) as [-> | Hne].
  - repeat split; try reflexivity; try congruence.
  - repeat split; try congruence; try discriminate.
Qed.

(** C5, as the code has it.  The payload of the event that a
    [SetComponentData] on input or output, or a [SetPipelineData] on
    output, publishes has [BatchIndex] 0 at every batch index [i]: the
    struct literals leave the field out.  The event of
    [SetComponentStatus] carries [i]. *)
Theorem data_events_have_batch_index_zero
    (wfm wfm' : wfm_t) (w w' : memory.World) (i : Z) :
  memory.streaming wfm = true ->
  (forall C t v,
      t = memory.ComponentDataInput \/ t = memory.ComponentDataOutput ->
      SetComponentData wfm w i C t v = Done None (wfm', w') ->
      exists event,
        memory.publishes gob_Encode_Event w w' (memory.ID wfm) event
        /\ memory.Event_Event event
           = (if String.eqb t memory.ComponentDataInput
              then memory.ComponentInputUpdated else memory.ComponentOutputUpdated)
        /\ memory.BatchIndex_of (memory.Event_Data event) = Some 0)
  /\ (forall v,
        SetPipelineData wfm w i memory.PipelineOutput v = Done None (wfm', w') ->
        exists event,
          memory.publishes gob_Encode_Event w w' (memory.ID wfm) event
          /\ memory.Event_Event event = memory.PipelineOutputUpdated
          /\ memory.BatchIndex_of (memory.Event_Data event) = Some 0)
  /\ (forall C t b,
        SetComponentStatus wfm w i C t b = Done None (wfm', w') ->
        exists event,
          memory.publishes gob_Encode_Event w w' (memory.ID wfm) event
          /\ memory.Event_Event event = memory.ComponentStatusUpdated
          /\ memory.BatchIndex_of (memory.Event_Data event) = Some i).
Proof.
  intros Hstream. split; [|split].
  - intros C t v Ht H. unfold memory.SetComponentData in H.
    destruct (memory.write_component_data wfm i C t v) as [wfm1| |] eqn:Hw;
      try discriminate.
    apply write_component_data_Ok in Hw as (fs & cfs & Hfs & HC & ->).
    cbn [memory.streaming memory.store_root] in H. rewrite Hstream in H.
    apply publish_returns_nil in H as (-> & _ & event & Hev & Hpub).
    destruct (memory.to_dynamic rev protojson_Marshal json_Unmarshal v) as [d| |];
      try discriminate.
    injection Hev as <-. eexists. split; [exact Hpub|].
    unfold memory.component_data_event.
    destruct Ht as [-> | ->]; split; reflexivity.
  - intros v H.
    destruct (pipeline_data_event_published wfm wfm' w w' i
                memory.PipelineOutput v Hstream H) as (d & Hpub).
    eexists. split; [exact Hpub|]. split; reflexivity.
  - intros C t b H. unfold memory.SetComponentStatus in H.
    destruct (memory.write_component_status wfm i C t b) as [wfm1| |] eqn:Hw;
      try discriminate.
    apply write_component_status_Ok in Hw as (fs & cfs & sfs & Hfs & HC & Hst & ->).
    cbn [memory.streaming memory.store_root] in H. rewrite Hstream in H.
    apply publish_returns_nil in H as (-> & _ & event & Hev & Hpub).
    exists event. split; [exact Hpub|].
    unfold memory.component_status_event in Hev.
    repeat (apply bind_Ok in Hev as (? & _ & Hev)).
    injection Hev as <-. split; reflexivity.
Qed.

Lemma component_status_written_then_published
    (wfm wfm' : wfm_t) (w w' : memory.World) (i : Z) (C : string)
    (t : memory.ComponentStatusType) (b : bool) :
  memory.streaming wfm = true ->
  SetComponentStatus wfm w i C t b = Done None (wfm', w') ->
  exists event,
    memory.write_component_status wfm i C t b = Ok wfm'
    /\ memory.component_status_event wfm' w i C = Ok event
    /\ (exists buf, gob_Encode_Event event = Ok buf)
    /\ memory.GetComponentStatus wfm' i C t = Ok b.
Proof.
  intros Hstream H. unfold memory.SetComponentStatus in H.
  destruct (memory.write_component_status wfm i C t b) as [wfm1| |] eqn:Hw;
    try discriminate.
  apply write_component_status_Ok in Hw as Hw'.
  destruct Hw' as (fs & cfs & sfs & Hfs & HC & Hst & ->).
  apply root_fields_Ok in Hfs as Hi. destruct Hi as [Hi _].
  cbn [memory.streaming memory.store_root] in H. rewrite Hstream in H.
  apply publish_returns_nil in H as (-> & _ & event & Hev & Hpub).
  exists event. split; [reflexivity|]. split; [exact Hev|].
  split; [eapply publishes_encodes; exact Hpub|].
  unfold memory.GetComponentStatus.
  rewrite component_store_root by exact Hi. run.
  unfold memory.status_fields. cbn [data.Fields]. run.
  rewrite at_key_insert_eq. cbn [data.Fields]. run.
  now rewrite at_key_insert_eq.
Qed.

Lemma streaming_store_root (wfm : wfm_t) (i : Z) (v : data.Value) :
  memory.streaming (memory.store_root wfm i v) = memory.streaming wfm.
Proof. reflexivity. Qed.

(** [SetComponentStatus] returns nil on a component whose status map
    holds the three flags, when streaming is enabled, the server answers
    and the encoder accepts the event. *)
Lemma set_component_status_returns_nil
    (wfm : wfm_t) (w : memory.World) (i : Z) (C : string)
    (t : memory.ComponentStatusType) (b : bool)
    (fs cfs sfs : gmap string data.Value) :
  memory.root_fields wfm i = Ok fs ->
  fs !! C = Some (data.Map cfs) ->
  cfs !! "status" = Some (data.Map sfs) ->
  (forall tag,
      tag ∈ [memory.ComponentStatusStarted; memory.ComponentStatusSkipped;
             memory.ComponentStatusCompleted] ->
      exists b', sfs !! tag = Some (data.Boolean b')) ->
  memory.streaming wfm = true ->
  redis.fault (memory.redisClient w) = None ->
  (forall event, exists buf, gob_Encode_Event event = Ok buf) ->
  exists wfm' w', SetComponentStatus wfm w i C t b = Done None (wfm', w').
Proof.
  intros Hfs HC Hst Hflags Hstream Hup Hgob.
  apply root_fields_Ok in Hfs as Hi. destruct Hi as [Hi _].
  assert (Hflag : forall tag,
             tag ∈ [memory.ComponentStatusStarted; memory.ComponentStatusSkipped;
                    memory.ComponentStatusCompleted] ->
             exists b', data.at_key (<[t := data.Boolean b]> sfs) tag = data.Boolean b').
  { intros tag Htag. destruct (decide (t = tag)) as [<- | Hne].
    - rewrite at_key_insert_eq. eauto.
    - destruct (Hflags tag Htag) as [b' Hb'].
      exists b'. apply at_key_present. now rewrite lookup_insert_ne. }
  unfold memory.SetComponentStatus, memory.write_component_status, memory.component.
  rewrite Hfs. run. rewrite HC. run. cbn [data.Fields]. run.
  rewrite (at_key_present _ _ _ Hst). cbn [data.Fields]. run.
  rewrite streaming_store_root, Hstream.
  unfold memory.component_status_event.
  rewrite root_fields_store_root by exact Hi.
  cbn [data.Fields]. run. rewrite at_key_insert_eq.
  unfold memory.status_fields. cbn [data.Fields]. run.
  rewrite at_key_insert_eq. cbn [data.Fields]. run.
  unfold data.NewBoolean.
  destruct (Hflag memory.ComponentStatusStarted) as [b1 ->]; [set_unfold; auto|].
  destruct (Hflag memory.ComponentStatusSkipped) as [b2 ->]; [set_unfold; auto|].
  destruct (Hflag memory.ComponentStatusCompleted) as [b3 ->]; [set_unfold; auto|].
  cbn [data.GetBoolean]. run.
  unfold memory.publish. run.
  match goal with
  | |- context [gob_Encode_Event ?ev] => destruct (Hgob ev) as [buf ->]
  end.
  unfold redis.Publish. rewrite Hup. eauto.
Qed.

(** The component that [InitComponent] installs is such a component. *)
Lemma set_component_status_after_init
    (wfm wfm1 : wfm_t) (w : memory.World) (i : Z) (C : string)
    (t : memory.ComponentStatusType) (b : bool) :
  memory.InitComponent wfm i C = Ok wfm1 ->
  memory.streaming wfm = true ->
  redis.fault (memory.redisClient w) = None ->
  (forall event, exists buf, gob_Encode_Event event = Ok buf) ->
  exists wfm' w', SetComponentStatus wfm1 w i C t b = Done None (wfm', w').
Proof.
  intros Hinit Hstream Hup Hgob. unfold memory.InitComponent in Hinit.
  apply bind_Ok in Hinit as (fs & Hfs & [= <-]).
  apply root_fields_Ok in Hfs as [Hi _].
  eapply set_component_status_returns_nil; try eassumption.
  - rewrite root_fields_store_root by exact Hi. reflexivity.
  - apply lookup_insert_eq.
  - reflexivity.
  - intros tag Htag. set_unfold in Htag.
    destruct Htag as [-> | [-> | [-> | []]]]; eexists; reflexivity.
Qed.

(** C6.  With streaming enabled, a [SetComponentStatus(i, C, t, b)] that
    returns nil has published exactly one message, a
    component_status_updated event for [C] and [i], and the three flags
    of its payload are those that [GetComponentStatus] reads from the
    memory after the call. *)
Theorem set_component_status_publishes_the_new_triple
    (wfm wfm' : wfm_t) (w w' : memory.World) (i : Z) (C : string)
    (t : memory.ComponentStatusType) (b : bool) :
  memory.streaming wfm = true ->
  SetComponentStatus wfm w i C t b = Done None (wfm', w') ->
  exists started skipped completed,
    memory.publishes gob_Encode_Event w w' (memory.ID wfm)
      (memory.mkEvent memory.ComponentStatusUpdated
         (memory.ComponentStatusEventData (memory.now w) C i
            {[ memory.ComponentStatusStarted := started;
               memory.ComponentStatusSkipped := skipped;
               memory.ComponentStatusCompleted := completed ]}))
    /\ memory.GetComponentStatus wfm' i C memory.ComponentStatusStarted = Ok started
    /\ memory.GetComponentStatus wfm' i C memory.ComponentStatusSkipped = Ok skipped
    /\ memory.GetComponentStatus wfm' i C memory.ComponentStatusCompleted = Ok completed
    /\ memory.GetComponentStatus wfm' i C t = Ok b.
Proof.
  intros Hstream H. unfold memory.SetComponentStatus in H.
  destruct (memory.write_component_status wfm i C t b) as [wfm1| |] eqn:Hw;
    try discriminate.
  apply write_component_status_Ok in Hw as (fs & cfs & sfs & Hfs & HC & Hst & ->).
  apply root_fields_Ok in Hfs as Hi. destruct Hi as [Hi _].
  cbn [memory.streaming memory.store_root] in H. rewrite Hstream in H.
  apply publish_returns_nil in H as (-> & _ & event & Hev & Hpub).
  set (sfs' := <[t := data.Boolean b]> sfs) in *.
  set (comp := data.Map (<["status" := data.Map sfs']> cfs)) in *.
  assert (Hread : forall tag,
             memory.GetComponentStatus
               (memory.store_root wfm i (data.Map (<[C := comp]> fs))) i C tag
             = data.GetBoolean (data.at_key sfs' tag)).
  { intros tag. unfold memory.GetComponentStatus.
    rewrite component_store_root by exact Hi. run.
    unfold memory.status_fields, comp. cbn [data.Fields]. run.
    rewrite at_key_insert_eq. reflexivity. }
  unfold memory.component_status_event in Hev.
  rewrite root_fields_store_root in Hev by exact Hi.
  cbn [data.Fields] in Hev. run in Hev.
  rewrite at_key_insert_eq in Hev.
  unfold memory.status_fields, comp in Hev. cbn [data.Fields] in Hev. run in Hev.
  rewrite at_key_insert_eq in Hev. cbn [data.Fields] in Hev. run in Hev.
  apply bind_Ok in Hev as (started & Hstarted & Hev).
  apply bind_Ok in Hev as (skipped & Hskipped & Hev).
  apply bind_Ok in Hev as (completed & Hcompleted & Hev).
  injection Hev as <-.
  exists started, skipped, completed.
  split; [exact Hpub|].
  rewrite !Hread. repeat split; try assumption.
  unfold sfs'. now rewrite at_key_insert_eq.
Qed.

(** C7.  With streaming enabled, let a mutation return nil when the bus
    accepts the event.  When instead the bus refuses it with [e], the
    same call returns [e] and leaves the memory in the same state as the
    call that published: the value, or the flag, just written is read
    back. *)
Theorem publish_failure_keeps_the_mutation
    (wfm : wfm_t) (w : memory.World) (e : error) (i : Z) :
  memory.streaming wfm = true ->
  (forall C t v wfm1 w1,
      SetComponentData wfm w i C t v = Done None (wfm1, w1) ->
      SetComponentData wfm (memory.with_fault w e) i C t v
      = Done (Some e) (wfm1, memory.with_fault w e)
      /\ memory.GetComponentData wfm1 i C t = Ok v)
  /\ (forall C t b wfm1 w1,
        SetComponentStatus wfm w i C t b = Done None (wfm1, w1) ->
        SetComponentStatus wfm (memory.with_fault w e) i C t b
        = Done (Some e) (wfm1, memory.with_fault w e)
        /\ memory.GetComponentStatus wfm1 i C t = Ok b)
  /\ (forall t v wfm1 w1,
        SetPipelineData wfm w i t v = Done None (wfm1, w1) ->
        SetPipelineData wfm (memory.with_fault w e) i t v
        = Done (Some e) (wfm1, memory.with_fault w e)
        /\ memory.GetPipelineData wfm1 i t = Ok v).
Proof.
  intros Hstream. split; [|split].
  - intros C t v wfm1 w1 H. unfold memory.SetComponentData in *.
    destruct (memory.write_component_data wfm i C t v) as [wfm2| |] eqn:Hw;
      try discriminate.
    apply write_component_data_Ok in Hw as (fs & cfs & Hfs & HC & ->).
    apply root_fields_Ok in Hfs as Hi. destruct Hi as [Hi _].
    cbn [memory.streaming memory.store_root] in *. rewrite Hstream in *.
    apply publish_returns_nil in H as (-> & _ & event & Hev & Hpub).
    apply publishes_encodes in Hpub as [buf Hbuf].
    destruct (memory.to_dynamic rev protojson_Marshal json_Unmarshal v) as [d| |];
      try discriminate.
    injection Hev as <-. split.
    + run. apply publish_with_fault with (buf := buf). exact Hbuf.
    + unfold memory.GetComponentData.
      rewrite component_store_root by exact Hi. run. cbn [data.Fields]. run.
      now rewrite at_key_insert_eq.
  - intros C t b wfm1 w1 H.
    destruct (component_status_written_then_published wfm wfm1 w w1 i C t b
                Hstream H) as (event & Hw & Hev & Hbuf & Hread).
    split; [|exact Hread].
    unfold memory.SetComponentStatus. rewrite Hw.
    assert (Hs : memory.streaming wfm1 = true).
    { apply write_component_status_Ok in Hw as (? & ? & ? & _ & _ & _ & ->).
      exact Hstream. }
    rewrite Hs.
    change (memory.component_status_event wfm1 (memory.with_fault w e) i C)
      with (memory.component_status_event (JSONObject := JSONObject) wfm1 w i C).
    rewrite Hev. destruct Hbuf as [buf Hbuf].
    apply publish_with_fault with (buf := buf). exact Hbuf.
  - intros t v wfm1 w1 H. unfold memory.SetPipelineData in *.
    destruct (memory.write_pipeline_data wfm i t v) as [wfm2| |] eqn:Hw;
      try discriminate.
    apply write_pipeline_data_Ok in Hw as (fs & Hfs & ->).
    apply root_fields_Ok in Hfs as Hi. destruct Hi as [Hi _].
    cbn [memory.streaming memory.store_root] in *. rewrite Hstream in *.
    apply publish_returns_nil in H as (-> & _ & event & Hev & Hpub).
    apply publishes_encodes in Hpub as [buf Hbuf].
    destruct (memory.to_dynamic rev protojson_Marshal json_Unmarshal v) as [d| |];
      try discriminate.
    injection Hev as <-. split.
    + run. apply publish_with_fault with (buf := buf). exact Hbuf.
    + unfold memory.GetPipelineData.
      rewrite root_fields_store_root by exact Hi. cbn [data.Fields]. run.
      now rewrite lookup_insert_eq.
Qed.

(** *** Snapshot and restore *)

Local Abbreviation WriteWorkflowMemoryToRedis :=
  (memory.WriteWorkflowMemoryToRedis gob_Encode_wfm).
Local Abbreviation LoadWorkflowMemoryFromRedis :=
  (memory.LoadWorkflowMemoryFromRedis gob_Decode_wfm).

(** The reads of a workflow memory look at [Data] only. *)
Lemma reads_depend_on_Data (wfm wfm' : wfm_t) :
  memory.Data wfm' = memory.Data wfm ->
  memory.GetBatchSize wfm' = memory.GetBatchSize wfm
  /\ (forall i path, memory.Get wfm' i path = memory.Get wfm i path)
  /\ (forall i t, memory.GetPipelineData wfm' i t = memory.GetPipelineData wfm i t)
  /\ (forall i C t, memory.GetComponentData wfm' i C t = memory.GetComponentData wfm i C t)
  /\ (forall i C t,
         memory.GetComponentStatus wfm' i C t = memory.GetComponentStatus wfm i C t).
Proof.
  intros HData.
  unfold memory.GetBatchSize, memory.Get, memory.GetPipelineData,
    memory.GetComponentData, memory.GetComponentStatus, memory.component,
    memory.root_fields.
  rewrite HData. repeat split.
Qed.

(** C3.  Let [gob] encode the exported fields of a registered workflow
    memory and decode the bytes back to the same fields.  While the server
    answers, [WriteWorkflowMemoryToRedis] returns nil, and a
    [LoadWorkflowMemoryFromRedis] of the same identifier at any instant
    before the hour is over returns a workflow memory, registered under
    the identifier, whose batch size, recipe and reads by [Get],
    [GetPipelineData], [GetComponentData] and [GetComponentStatus] are
    those of the original. *)
Theorem snapshot_restore_preserves_reads
    (ms : memory.memoryStore Recipe_t) (w : memory.World) (workflowID : string)
    (wfm : wfm_t) (buf : redis.bytes) :
  memory.workflows ms !! workflowID = Some wfm ->
  redis.fault (memory.redisClient w) = None ->
  gob_Encode_wfm (memory.exported wfm) = Ok buf ->
  gob_Decode_wfm buf = Ok (memory.exported wfm) ->
  exists w1,
    WriteWorkflowMemoryToRedis ms w workflowID = Done None w1
    /\ forall (ms2 : memory.memoryStore Recipe_t) (later : memory.Time),
         later < memory.now w + memory.Hour ->
         exists wfm' ms',
           LoadWorkflowMemoryFromRedis ms2
             (memory.mkWorld (memory.redisClient w1) later) workflowID
           = Ok (wfm', ms')
           /\ memory.workflows ms' !! workflowID = Some wfm'
           /\ memory.ID wfm' = workflowID
           /\ memory.GetRecipe wfm' = memory.GetRecipe wfm
           /\ memory.GetBatchSize wfm' = memory.GetBatchSize wfm
           /\ (forall i path, memory.Get wfm' i path = memory.Get wfm i path)
           /\ (forall i t,
                  memory.GetPipelineData wfm' i t = memory.GetPipelineData wfm i t)
           /\ (forall i C t,
                  memory.GetComponentData wfm' i C t = memory.GetComponentData wfm i C t)
           /\ (forall i C t,
                  memory.GetComponentStatus wfm' i C t
                  = memory.GetComponentStatus wfm i C t).
Proof.
  intros Hreg Hup Henc Hdec.
  unfold memory.WriteWorkflowMemoryToRedis. rewrite Hreg, Henc.
  unfold redis.Set_. rewrite Hup.
  eexists. split; [reflexivity|].
  intros ms2 later Hlater.
  unfold memory.LoadWorkflowMemoryFromRedis, redis.Get.
  cbn [memory.redisClient memory.now redis.fault redis.keys].
  rewrite lookup_insert_eq.
  replace (later <? memory.now w + memory.Hour) with true by lia.
  run. rewrite Hdec. run.
  eexists _, _. split; [reflexivity|].
  cbn [memory.workflows]. rewrite lookup_insert_eq.
  split; [reflexivity|]. split; [reflexivity|]. split; [reflexivity|].
  apply reads_depend_on_Data. reflexivity.
Qed.

(** Once the hour is over the snapshot is gone. *)
Lemma snapshot_expires
    (ms ms2 : memory.memoryStore Recipe_t) (w w1 : memory.World)
    (workflowID : string) (later : memory.Time) :
  WriteWorkflowMemoryToRedis ms w workflowID = Done None w1 ->
  memory.now w + memory.Hour <= later ->
  LoadWorkflowMemoryFromRedis ms2
    (memory.mkWorld (memory.redisClient w1) later) workflowID
  = Err redis.Nil.
Proof.
  unfold memory.WriteWorkflowMemoryToRedis, redis.Set_.
  destruct (memory.workflows ms !! workflowID); [|discriminate].
  destruct (gob_Encode_wfm _); try discriminate.
  destruct (redis.fault (memory.redisClient w)) eqn:Hup; [discriminate|].
  intros [= <-] Hlater.
  unfold memory.LoadWorkflowMemoryFromRedis, redis.Get.
  cbn [memory.redisClient memory.now redis.fault redis.keys].
  rewrite lookup_insert_eq.
  replace (later <? memory.now w + memory.Hour) with false by lia.
  reflexivity.
Qed.

(** *** The path resolver *)

Lemma walk_never_fails (r : result data.Value) (s : string) :
  (forall e, r <> Err e) -> forall e, memory.walk r s <> Err e.
Proof.
  intros Hr e. unfold memory.walk.
  destruct r as [ptr|e'|p]; run; [| now destruct (Hr e') | discriminate].
  destruct (Atoi s) as [n|].
  - destruct ptr; try discriminate. cbn [data.Values]. run.
    apply index_never_fails.
  - unfold slice. destruct (_ && _); [|discriminate]. run.
    destruct ptr; discriminate.
Qed.

Lemma foldl_walk_never_fails (ss : list string) (r : result data.Value) :
  (forall e, r <> Err e) -> forall e, foldl memory.walk r ss <> Err e.
Proof.
  revert r. induction ss as [|s ss IH]; intros r Hr; [exact Hr|].
  cbn [foldl]. apply IH. now apply walk_never_fails.
Qed.

(** [Get] has no error to return: it returns a value or panics. *)
Lemma Get_never_returns_an_error (wfm : wfm_t) (i : Z) (path : string) (e : error) :
  memory.Get wfm i path <> Err e.
Proof.
  unfold memory.Get. destruct (String.eqb path ""); [apply index_never_fails|].
  unfold slice at 1. destruct (_ && _); [|discriminate]. run.
  destruct (index (memory.Data wfm) i) as [ptr|e'|p] eqn:Hidx; run.
  - apply foldl_walk_never_fails. discriminate.
  - now apply index_never_fails in Hidx.
  - discriminate.
Qed.

(** The walk, step by step. *)
Lemma resolve_app (ptr : data.Value) (segs segs' : list memory.segment) :
  memory.resolve ptr (segs ++ segs')
  = memory.resolve ptr segs ≫= fun v => memory.resolve v segs'.
Proof.
  revert ptr. induction segs as [|s segs IH]; intros ptr; [reflexivity|].
  destruct s as [k | n]; cbn [app memory.resolve].
  - destruct ptr; try reflexivity. apply IH.
  - destruct ptr as [| | | | |vs|]; try reflexivity.
    destruct (vs !! N.to_nat n); [apply IH | reflexivity].
Qed.

Lemma resolve_key (ptr : data.Value) (k : string) :
  memory.resolve ptr [memory.Key k]
  = match ptr with
    | data.Map fs => Ok (default data.Nil (fs !! k))
    | _ => Panic InterfaceConversion
    end.
Proof. destruct ptr; reflexivity. Qed.

Lemma resolve_index (ptr : data.Value) (n : N) :
  memory.resolve ptr [memory.Index n]
  = match ptr with
    | data.Array vs =>
        match vs !! N.to_nat n with
        | Some v => Ok v
        | None => Panic IndexOutOfRange
        end
    | _ => Panic InterfaceConversion
    end.
Proof. destruct ptr; reflexivity. Qed.

(** [Get] on the text of a well-formed path is the walk along its
    segments. *)
Lemma Get_render (wfm : wfm_t) (i : Z) (root : data.Value) (segs : list memory.segment) :
  0 <= i < memory.GetBatchSize wfm ->
  memory.Data wfm !! Z.to_nat i = Some root ->
  memory.well_formed segs = true ->
  memory.Get wfm i (memory.render segs) = memory.resolve root segs.
Proof.
  intros Hi Hroot Hwf.
  assert (Hne : segs <> []) by (intros ->; discriminate).
  assert (Hok : forallb memory.segment_ok segs = true).
  { destruct segs; [discriminate | exact Hwf]. }
  unfold memory.Get. rewrite (render_not_empty segs Hwf).
  rewrite (FieldsFunc_render segs Hok).
  rewrite (foldl_bracketed segs "" Hne Hok).
  change ("" +:+ "[" +:+ memory.join (map memory.inner_of segs) +:+ "]")
    with (String "[" (memory.join (map memory.inner_of segs) +:+ "]")).
  rewrite slice_inside by reflexivity. run.
  rewrite (index_in_range _ _ root Hi Hroot). run.
  destruct segs as [|s rest]; [congruence|].
  unfold Split. cbn [map]. rewrite Split_join.
  - rewrite append_nil_l. apply (foldl_walk_resolve (s :: rest) root Hok).
  - change (forallb memory.no_open (map memory.inner_of (s :: rest)) = true).
    rewrite forallb_forall. intros x [seg [<- Hin]]%in_map_iff.
    apply inner_of_no_open.
    rewrite forallb_forall in Hok. now apply Hok.
Qed.

Lemma well_formed_app (segs : list memory.segment) (s : memory.segment) :
  forallb memory.segment_ok segs = true -> memory.segment_ok s = true ->
  memory.well_formed (segs ++ [s]) = true.
Proof.
  intros Hsegs Hs. unfold memory.well_formed.
  destruct (segs ++ [s])%list as [|x l] eqn:E.
  - now destruct segs.
  - rewrite <- E, forallb_app, Hsegs. cbn [forallb]. now rewrite Hs.
Qed.

(** C2, as the code has it.  At a batch index in range, [Get] on the
    empty path returns the root, and on a well-formed path it returns no
    error: it is the walk [resolve] along the segments of the path from
    the value at the batch index.  When the
    walk has reached a value [v] and one segment is left: a key on a map
    returns the entry with a nil error, the nil value when the key is
    absent; a key on anything but a map panics; an index on an array
    returns the element and panics out of range; an index on anything but
    an array panics. *)
Theorem get_resolves_well_formed_paths
    (wfm : wfm_t) (i : Z) (root : data.Value) :
  0 <= i < memory.GetBatchSize wfm ->
  memory.Data wfm !! Z.to_nat i = Some root ->
  memory.Get wfm i "" = Ok root
  /\ (forall segs,
        memory.well_formed segs = true ->
        memory.Get wfm i (memory.render segs) = memory.resolve root segs
        /\ forall e, memory.Get wfm i (memory.render segs) <> Err e)
  /\ (forall segs k v,
        forallb memory.segment_ok segs = true ->
        memory.segment_ok (memory.Key k) = true ->
        memory.resolve root segs = Ok v ->
        memory.Get wfm i (memory.render (segs ++ [memory.Key k]))
        = match v with
          | data.Map fs => Ok (default data.Nil (fs !! k))
          | _ => Panic InterfaceConversion
          end)
  /\ (forall segs n v,
        forallb memory.segment_ok segs = true ->
        memory.segment_ok (memory.Index n) = true ->
        memory.resolve root segs = Ok v ->
        memory.Get wfm i (memory.render (segs ++ [memory.Index n]))
        = match v with
          | data.Array vs =>
              match vs !! N.to_nat n with
              | Some x => Ok x
              | None => Panic IndexOutOfRange
              end
          | _ => Panic InterfaceConversion
          end).
Proof.
  intros Hi Hroot. split; [|split; [|split]].
  - unfold memory.Get. cbn [String.eqb]. now apply index_in_range.
  - intros segs Hwf. split; [now apply Get_render|].
    intros e. apply Get_never_returns_an_error.
  - intros segs k v Hsegs Hk Hv.
    rewrite (Get_render wfm i root) by (try assumption; now apply well_formed_app).
    rewrite resolve_app, Hv. run. apply resolve_key.
  - intros segs n v Hsegs Hn Hv.
    rewrite (Get_render wfm i root) by (try assumption; now apply well_formed_app).
    rewrite resolve_app, Hv. run. apply resolve_index.
Qed.

(** *** Further properties of the spec *)

(** X1.  After [InitComponent(i, C)] the three status flags of [C] are
    false and its input, output and setup are empty maps. *)
Theorem init_component_installs_the_skeleton
    (wfm wfm' : wfm_t) (i : Z) (C : string) :
  memory.InitComponent wfm i C = Ok wfm' ->
  (forall t,
      t ∈ [memory.ComponentStatusStarted; memory.ComponentStatusSkipped;
           memory.ComponentStatusCompleted] ->
      memory.GetComponentStatus wfm' i C t = Ok false)
  /\ (forall t,
        t ∈ [memory.ComponentDataInput; memory.ComponentDataOutput;
             memory.ComponentDataSetup] ->
        memory.GetComponentData wfm' i C t = Ok (data.NewMap None)).
Proof.
  intros Hinit. unfold memory.InitComponent in Hinit.
  apply bind_Ok in Hinit as (fs & Hfs & [= <-]).
  apply root_fields_Ok in Hfs as [Hi _].
  split; intros t Ht.
  - unfold memory.GetComponentStatus.
    rewrite component_store_root by exact Hi. run.
    set_unfold in Ht. destruct Ht as [-> | [-> | [-> | []]]]; reflexivity.
  - unfold memory.GetComponentData.
    rewrite component_store_root by exact Hi. run.
    set_unfold in Ht. destruct Ht as [-> | [-> | [-> | []]]]; reflexivity.
Qed.

(** X2.  [Set(i, key, v)] followed by [Get(i, key)] returns [v]. *)
Theorem set_then_get_returns_the_value
    (wfm wfm' : wfm_t) (i : Z) (key : string) (v : data.Value) :
  memory.segment_ok (memory.Key key) = true ->
  memory.Set_ wfm i key v = Ok wfm' ->
  memory.Get wfm' i key = Ok v.
Proof.
  intros Hkey Hset. unfold memory.Set_ in Hset.
  apply bind_Ok in Hset as (fs & Hfs & [= <-]).
  apply root_fields_Ok in Hfs as [Hi _].
  rewrite <- (append_nil_r key) at 2.
  change (key +:+ "") with (memory.render [memory.Key key]).
  rewrite (Get_render _ i (data.Map (<[key := v]> fs))).
  - cbn [memory.resolve]. now rewrite at_key_insert_eq.
  - unfold memory.GetBatchSize, memory.store_root in *. cbn [memory.Data].
    rewrite length_insert. exact Hi.
  - unfold memory.store_root. cbn [memory.Data].
    apply list_lookup_insert_eq. unfold memory.GetBatchSize in Hi. lia.
  - unfold memory.well_formed. cbn [forallb]. now rewrite Hkey.
Qed.

(** X3.  [PurgeWorkflowMemory] returns nil, a second call too, and
    leaves the store as the first did; the workflow is then not found. *)
Theorem purge_is_idempotent (ms : memory.memoryStore Recipe_t) (workflowID : string) :
  memory.PurgeWorkflowMemory ms workflowID
  = (None, (memory.PurgeWorkflowMemory ms workflowID).2)
  /\ memory.PurgeWorkflowMemory (memory.PurgeWorkflowMemory ms workflowID).2 workflowID
     = (None, (memory.PurgeWorkflowMemory ms workflowID).2)
  /\ memory.GetWorkflowMemory (memory.PurgeWorkflowMemory ms workflowID).2 workflowID
     = Err (Errorf "workflow memory not found").
Proof.
  unfold memory.PurgeWorkflowMemory, memory.GetWorkflowMemory.
  cbn [snd memory.workflows].
  split; [reflexivity|]. split.
  - now rewrite delete_delete_eq.
  - now rewrite lookup_delete_eq.
Qed.


(** X5.  While streaming is disabled no setter publishes. *)
Theorem no_event_without_streaming
    (wfm wfm' : wfm_t) (w w' : memory.World) (err : option error) (i : Z) :
  memory.streaming wfm = false ->
  (forall C t v, SetComponentData wfm w i C t v = Done err (wfm', w') -> w' = w)
  /\ (forall C t b, SetComponentStatus wfm w i C t b = Done err (wfm', w') -> w' = w)
  /\ (forall t v, SetPipelineData wfm w i t v = Done err (wfm', w') -> w' = w).
Proof.
  intros Hoff. split; [|split].
  - intros C t v H. unfold memory.SetComponentData in H.
    destruct (memory.write_component_data wfm i C t v) as [wfm1| |] eqn:Hw;
      try discriminate; [|now injection H].
    apply write_component_data_Ok in Hw as (? & ? & _ & _ & ->).
    cbn [memory.streaming memory.store_root] in H. rewrite Hoff in H. now injection H.
  - intros C t b H. unfold memory.SetComponentStatus in H.
    destruct (memory.write_component_status wfm i C t b) as [wfm1| |] eqn:Hw;
      try discriminate; [|now injection H].
    apply write_component_status_Ok in Hw as (? & ? & ? & _ & _ & _ & ->).
    cbn [memory.streaming memory.store_root] in H. rewrite Hoff in H. now injection H.
  - intros t v H. unfold memory.SetPipelineData in H.
    destruct (memory.write_pipeline_data wfm i t v) as [wfm1| |] eqn:Hw;
      try discriminate; [|now injection H].
    apply write_pipeline_data_Ok in Hw as (? & _ & ->).
    cbn [memory.streaming memory.store_root] in H. rewrite Hoff in H. now injection H.
Qed.

(** *** The registry and the durable store *)


(** X7.  [WriteWorkflowMemoryToRedis] never publishes.  When it returns an
    error (the workflow is not registered, [gob] refuses, the server
    refuses) it has changed nothing; when it returns nil it has written
    the one key [pipeline_trigger:id], with the encoding of the registered
    memory and an expiry one hour ahead. *)
Theorem write_to_redis_touches_one_key
    (ms : memory.memoryStore Recipe_t) (w w' : memory.World) (workflowID : string)
    (err : option error) :
  WriteWorkflowMemoryToRedis ms w workflowID = Done err w' ->
  redis.messages (memory.redisClient w') = redis.messages (memory.redisClient w)
  /\ memory.now w' = memory.now w
  /\ match err with
     | Some _ => redis.keys (memory.redisClient w') = redis.keys (memory.redisClient w)
     | None =>
         exists wfm buf,
           memory.workflows ms !! workflowID = Some wfm
           /\ gob_Encode_wfm (memory.exported wfm) = Ok buf
           /\ redis.keys (memory.redisClient w')
              = <[memory.trigger_key workflowID := (buf, memory.now w + memory.Hour)]>
                  (redis.keys (memory.redisClient w))
     end
  /\ (memory.workflows ms !! workflowID = None ->
      err = Some (Errorf "workflow memory not found")).
Proof.
  unfold memory.WriteWorkflowMemoryToRedis.
  destruct (memory.workflows ms !! workflowID) as [wfm|] eqn:Hreg.
  - destruct (gob_Encode_wfm (memory.exported wfm)) as [buf|e|p] eqn:Henc;
      [| intros [= <- <-]; repeat split; discriminate | discriminate].
    unfold redis.Set_. destruct (redis.fault (memory.redisClient w)) as [e|].
    + intros [= <- <-]. repeat split; discriminate.
    + intros [= <- <-]. cbn. repeat split; [eauto | discriminate].
  - intros [= <- <-]. repeat split.
Qed.

(** Two identifiers have two keys. *)
Lemma trigger_key_inj (id1 id2 : string) :
  memory.trigger_key id1 = memory.trigger_key id2 -> id1 = id2.
Proof. unfold memory.trigger_key. apply String.app_inj. Qed.

(** X8.  A snapshot written for one workflow is not disturbed by a later
    write for another: after it, [LoadWorkflowMemoryFromRedis] of the
    first identifier returns what it returned before. *)
Theorem write_keeps_other_snapshots
    (ms ms2 : memory.memoryStore Recipe_t) (w w' : memory.World)
    (id1 id2 : string) (err : option error) :
  WriteWorkflowMemoryToRedis ms w id2 = Done err w' ->
  id1 <> id2 ->
  LoadWorkflowMemoryFromRedis ms2 w' id1 = LoadWorkflowMemoryFromRedis ms2 w id1.
Proof.
  intros Hwrite Hne.
  assert (Hkey : memory.trigger_key id2 <> memory.trigger_key id1).
  { intros H. apply trigger_key_inj in H. congruence. }
  unfold memory.WriteWorkflowMemoryToRedis in Hwrite.
  destruct (memory.workflows ms !! id2) as [wfm|]; [|now injection Hwrite as _ <-].
  destruct (gob_Encode_wfm (memory.exported wfm)) as [buf|e|p];
    [| now injection Hwrite as _ <- | discriminate].
  unfold redis.Set_ in Hwrite.
  destruct (redis.fault (memory.redisClient w)) as [e|] eqn:Hup;
    injection Hwrite as _ <-; [reflexivity|].
  unfold memory.LoadWorkflowMemoryFromRedis, redis.Get.
  cbn [memory.redisClient memory.now redis.fault redis.keys].
  rewrite Hup. now rewrite lookup_insert_ne.
Qed.

(** X9.  Whatever was stored, a memory that [LoadWorkflowMemoryFromRedis]
    returns has the identifier asked for, is registered under it in place
    of any memory that was there, and does not stream: on it the three
    setters publish nothing, until [EnableStreaming] is called again.  The
    other identifiers keep their memory. *)
Theorem restored_memory_does_not_stream
    (ms ms' : memory.memoryStore Recipe_t) (w : memory.World) (workflowID : string)
    (wfm' : wfm_t) :
  LoadWorkflowMemoryFromRedis ms w workflowID = Ok (wfm', ms') ->
  memory.ID wfm' = workflowID
  /\ memory.streaming wfm' = false
  /\ memory.GetWorkflowMemory ms' workflowID = Ok wfm'
  /\ (forall other, other <> workflowID ->
        memory.GetWorkflowMemory ms' other = memory.GetWorkflowMemory ms other)
  /\ (forall w1 w2 i t v err wfm2,
        SetPipelineData wfm' w1 i t v = Done err (wfm2, w2) -> w2 = w1)
  /\ (forall w1 w2 i C t v err wfm2,
        SetComponentData wfm' w1 i C t v = Done err (wfm2, w2) -> w2 = w1)
  /\ (forall w1 w2 i C t b err wfm2,
        SetComponentStatus wfm' w1 i C t b = Done err (wfm2, w2) -> w2 = w1).
Proof.
  unfold memory.LoadWorkflowMemoryFromRedis. intros H.
  apply bind_Ok in H as (raw & _ & H). apply bind_Ok in H as (sn & _ & [= <- <-]).
  split; [reflexivity|]. split; [reflexivity|].
  unfold memory.GetWorkflowMemory. cbn [memory.workflows].
  split; [now rewrite lookup_insert_eq|].
  split; [intros other Hother; now rewrite lookup_insert_ne|].
  split; [|split].
  - intros w1 w2 i t v err wfm2 Hset. unfold memory.SetPipelineData in Hset.
    destruct (memory.write_pipeline_data _ i t v) as [wfm1| |] eqn:Hw;
      try discriminate; [|now injection Hset].
    apply write_pipeline_data_Ok in Hw as (? & _ & ->). now injection Hset.
  - intros w1 w2 i C t v err wfm2 Hset. unfold memory.SetComponentData in Hset.
    destruct (memory.write_component_data _ i C t v) as [wfm1| |] eqn:Hw;
      try discriminate; [|now injection Hset].
    apply write_component_data_Ok in Hw as (? & ? & _ & _ & ->). now injection Hset.
  - intros w1 w2 i C t b err wfm2 Hset. unfold memory.SetComponentStatus in Hset.
    destruct (memory.write_component_status _ i C t b) as [wfm1| |] eqn:Hw;
      try discriminate; [|now injection Hset].
    apply write_component_status_Ok in Hw as (? & ? & ? & _ & _ & _ & ->).
    now injection Hset.
Qed.

(** X10.  One hour after [WriteWorkflowMemoryToRedis] returned nil, and at
    any later instant, [LoadWorkflowMemoryFromRedis] fails with
    [redis.Nil] and registers nothing; an identifier for which nothing was
    written fails in the same way at once. *)
Theorem load_fails_without_a_live_snapshot
    (ms ms2 : memory.memoryStore Recipe_t) (w w1 : memory.World)
    (workflowID : string) (later : memory.Time) :
  WriteWorkflowMemoryToRedis ms w workflowID = Done None w1 ->
  memory.now w + memory.Hour <= later ->
  LoadWorkflowMemoryFromRedis ms2
    (memory.mkWorld (memory.redisClient w1) later) workflowID
  = Err redis.Nil
  /\ forall other,
       redis.keys (memory.redisClient w) !! memory.trigger_key other = None ->
       other <> workflowID ->
       LoadWorkflowMemoryFromRedis ms2 w1 other = Err redis.Nil.
Proof.
  intros Hwrite Hlater. split; [now apply (snapshot_expires ms ms2 w w1)|].
  intros other Hkey Hother.
  unfold memory.WriteWorkflowMemoryToRedis, redis.Set_ in Hwrite.
  destruct (memory.workflows ms !! workflowID); [|discriminate].
  destruct (gob_Encode_wfm _); try discriminate.
  destruct (redis.fault (memory.redisClient w)) eqn:Hup; [discriminate|].
  injection Hwrite as <-.
  unfold memory.LoadWorkflowMemoryFromRedis, redis.Get.
  cbn [memory.redisClient memory.now redis.fault redis.keys].
  rewrite lookup_insert_ne, Hkey; [reflexivity|].
  intros H. apply trigger_key_inj in H. congruence.
Qed.

(** *** Components that do not exist, and errors after the assignment *)

(** X11.  On a component that was never initialised the four component
    operations return the error "component C not exist"; the setters
    leave the memory as it was and publish nothing, streaming or not. *)
Theorem missing_component_is_an_error
    (wfm : wfm_t) (w : memory.World) (i : Z) (C : string)
    (fs : gmap string data.Value) :
  memory.root_fields wfm i = Ok fs ->
  fs !! C = None ->
  (forall t v, SetComponentData wfm w i C t v
               = Done (Some (memory.component_not_exist C)) (wfm, w))
  /\ (forall t, memory.GetComponentData wfm i C t = Err (memory.component_not_exist C))
  /\ (forall t b, SetComponentStatus wfm w i C t b
                  = Done (Some (memory.component_not_exist C)) (wfm, w))
  /\ (forall t, memory.GetComponentStatus wfm i C t
                = Err (memory.component_not_exist C)).
Proof.
  intros Hfs HC.
  assert (Hc : memory.component wfm i C = Err (memory.component_not_exist C)).
  { unfold memory.component. rewrite Hfs. run. now rewrite HC. }
  repeat split; intros.
  - unfold memory.SetComponentData, memory.write_component_data. now rewrite Hc.
  - unfold memory.GetComponentData. now rewrite Hc.
  - unfold memory.SetComponentStatus, memory.write_component_status. now rewrite Hc.
  - unfold memory.GetComponentStatus. now rewrite Hc.
Qed.

Lemma publish_Done (wfm wfm' : wfm_t) w w' ev err :
  memory.publish gob_Encode_Event wfm w ev = Done err (wfm', w') ->
  wfm' = wfm
  /\ memory.now w' = memory.now w
  /\ redis.keys (memory.redisClient w') = redis.keys (memory.redisClient w)
  /\ (err <> None -> w' = w)
  /\ (err = None ->
      exists buf, redis.messages (memory.redisClient w')
                  = (redis.messages (memory.redisClient w) ++ [(memory.ID wfm, buf)])%list).
Proof.
  unfold memory.publish.
  destruct (ev ≫= gob_Encode_Event) as [buf|e|p]; [| |discriminate].
  - unfold redis.Publish. destruct w as [[ks msgs [e|]] t]; cbn.
    + intros [= <- <- <-]. repeat split. discriminate.
    + intros [= <- <- <-]. repeat split; [congruence | eauto].
  - intros [= <- <- <-]. repeat split. discriminate.
Qed.

(** X12.  The assignment comes first.  When the component exists, a
    [SetComponentData] or [SetComponentStatus] that returns, with nil or
    with any error (of the conversion of the value, of the encoder, of
    the server), has written: the matching getter reads the new value.
    So has a [SetPipelineData] that returns. *)
Theorem setters_write_before_anything_can_fail
    (wfm wfm' : wfm_t) (w w' : memory.World) (i : Z) (err : option error)
    (fs : gmap string data.Value) :
  memory.root_fields wfm i = Ok fs ->
  (forall C comp t v,
      fs !! C = Some comp ->
      SetComponentData wfm w i C t v = Done err (wfm', w') ->
      memory.GetComponentData wfm' i C t = Ok v)
  /\ (forall C comp t b,
        fs !! C = Some comp ->
        SetComponentStatus wfm w i C t b = Done err (wfm', w') ->
        memory.GetComponentStatus wfm' i C t = Ok b)
  /\ (forall t v,
        SetPipelineData wfm w i t v = Done err (wfm', w') ->
        memory.GetPipelineData wfm' i t = Ok v).
Proof.
  intros Hfs. split; [|split].
  - intros C comp t v HC H. unfold memory.SetComponentData in H.
    destruct (memory.write_component_data wfm i C t v) as [wfm1|e|] eqn:Hw;
      try discriminate.
    + apply write_component_data_Ok in Hw as (fs' & cfs & Hfs' & HC' & ->).
      apply root_fields_Ok in Hfs' as Hi. destruct Hi as [Hi _].
      assert (wfm' = memory.store_root wfm i
                       (data.Map (<[C := data.Map (<[t := v]> cfs)]> fs'))) as ->.
      { cbn [memory.streaming memory.store_root] in H.
        destruct (memory.streaming wfm); [|now injection H].
        now apply publish_Done in H as (-> & _). }
      unfold memory.GetComponentData.
      rewrite component_store_root by exact Hi. run. cbn [data.Fields]. run.
      now rewrite at_key_insert_eq.
    + unfold memory.write_component_data, memory.component in Hw.
      rewrite Hfs in Hw. run in Hw. rewrite HC in Hw. run in Hw.
      destruct comp; discriminate.
  - intros C comp t b HC H. unfold memory.SetComponentStatus in H.
    destruct (memory.write_component_status wfm i C t b) as [wfm1|e|] eqn:Hw;
      try discriminate.
    + apply write_component_status_Ok in Hw as (fs' & cfs & sfs & Hfs' & HC' & Hst & ->).
      apply root_fields_Ok in Hfs' as Hi. destruct Hi as [Hi _].
      match type of H with
      | context [memory.store_root wfm i ?root] =>
          assert (wfm' = memory.store_root wfm i root) as ->
      end.
      { cbn [memory.streaming memory.store_root] in H.
        destruct (memory.streaming wfm); [|now injection H].
        now apply publish_Done in H as (-> & _). }
      unfold memory.GetComponentStatus.
      rewrite component_store_root by exact Hi. run.
      unfold memory.status_fields. cbn [data.Fields]. run.
      rewrite at_key_insert_eq. cbn [data.Fields]. run.
      now rewrite at_key_insert_eq.
    + unfold memory.write_component_status, memory.component in Hw.
      rewrite Hfs in Hw. run in Hw. rewrite HC in Hw. run in Hw.
      destruct comp; try discriminate.
      cbn [data.Fields] in Hw. run in Hw.
      destruct (data.at_key _ "status"); discriminate.
  - intros t v H. unfold memory.SetPipelineData in H.
    destruct (memory.write_pipeline_data wfm i t v) as [wfm1|e|] eqn:Hw;
      try discriminate.
    + apply write_pipeline_data_Ok in Hw as (fs' & Hfs' & ->).
      apply root_fields_Ok in Hfs' as Hi. destruct Hi as [Hi _].
      assert (wfm' = memory.store_root wfm i (data.Map (<[t := v]> fs'))) as ->.
      { cbn [memory.streaming memory.store_root] in H.
        destruct (memory.streaming wfm); [|now injection H].
        now apply publish_Done in H as (-> & _). }
      unfold memory.GetPipelineData.
      rewrite root_fields_store_root by exact Hi. cbn [data.Fields]. run.
      now rewrite lookup_insert_eq.
    + unfold memory.write_pipeline_data, memory.root_fields in Hw.
      destruct (index (memory.Data wfm) i) as [root|e0|] eqn:Hroot; try discriminate.
      * run in Hw. destruct root; discriminate.
      * now apply index_never_fails in Hroot.
Qed.

Lemma publish_at_most_one (wfm wfm' : wfm_t) w w' ev err :
  memory.publish gob_Encode_Event wfm w ev = Done err (wfm', w') ->
  wfm' = wfm /\ memory.at_most_one_message w w' (memory.ID wfm) err.
Proof.
  intros H. apply publish_Done in H as (-> & Hnow & Hkeys & Herr & Hmsg).
  split; [reflexivity|]. split; [exact Hkeys|]. split; [exact Hnow|].
  destruct err as [e|]; [now apply Herr | right; now apply Hmsg].
Qed.

Lemma at_most_one_message_refl (w : memory.World) channel err :
  memory.at_most_one_message w w channel err.
Proof. repeat split. destruct err; auto. Qed.

(** X13.  One call of a setter sends at most one message, on the channel
    named by the identifier of the workflow, and writes no key; a call
    that returns an error has sent nothing.  The identifier, the batch
    size, the recipe and the streaming flag of the memory stay as they
    were. *)
Theorem one_call_sends_at_most_one_message
    (wfm wfm' : wfm_t) (w w' : memory.World) (i : Z) (C : string)
    (tc : memory.ComponentDataType) (ts : memory.ComponentStatusType)
    (tp : memory.PipelineDataType) (v : data.Value) (b : bool)
    (r : exec (wfm_t * memory.World)) (err : option error) :
  r = SetComponentData wfm w i C tc v
  \/ r = SetComponentStatus wfm w i C ts b
  \/ r = SetPipelineData wfm w i tp v ->
  r = Done err (wfm', w') ->
  memory.at_most_one_message w w' (memory.ID wfm) err
  /\ memory.ID wfm' = memory.ID wfm
  /\ memory.GetBatchSize wfm' = memory.GetBatchSize wfm
  /\ memory.GetRecipe wfm' = memory.GetRecipe wfm
  /\ memory.streaming wfm' = memory.streaming wfm.
Proof.
  assert (Hsize : forall j x, memory.GetBatchSize (memory.store_root wfm j x)
                              = memory.GetBatchSize wfm).
  { intros j x. unfold memory.GetBatchSize, memory.store_root. cbn [memory.Data].
    now rewrite length_insert. }
  assert (Hstored : forall j x,
             (if memory.streaming (memory.store_root wfm j x)
              then exists ev, memory.publish gob_Encode_Event
                                (memory.store_root wfm j x) w ev = r
              else r = Done None (memory.store_root wfm j x, w)) ->
             r = Done err (wfm', w') ->
             memory.at_most_one_message w w' (memory.ID wfm) err
             /\ memory.ID wfm' = memory.ID wfm
             /\ memory.GetBatchSize wfm' = memory.GetBatchSize wfm
             /\ memory.GetRecipe wfm' = memory.GetRecipe wfm
             /\ memory.streaming wfm' = memory.streaming wfm).
  { intros j x Hr Hdone.
    destruct (memory.streaming (memory.store_root wfm j x)).
    - destruct Hr as (ev & Hr). rewrite Hdone in Hr.
      apply publish_at_most_one in Hr as (-> & Hone).
      split; [exact Hone|]. now rewrite Hsize.
    - rewrite Hr in Hdone. injection Hdone as <- <- <-.
      split; [apply at_most_one_message_refl|]. now rewrite Hsize. }
  intros [-> | [-> | ->]] Hdone.
  - unfold memory.SetComponentData in *.
    destruct (memory.write_component_data wfm i C tc v) as [wfm1|e|] eqn:Hw;
      try discriminate.
    + apply write_component_data_Ok in Hw as (fs & cfs & _ & _ & ->).
      eapply Hstored; [|exact Hdone].
      destruct (memory.streaming _); eauto.
    + injection Hdone as <- <- <-.
      split; [apply at_most_one_message_refl | auto].
  - unfold memory.SetComponentStatus in *.
    destruct (memory.write_component_status wfm i C ts b) as [wfm1|e|] eqn:Hw;
      try discriminate.
    + apply write_component_status_Ok in Hw as (fs & cfs & sfs & _ & _ & _ & ->).
      eapply Hstored; [|exact Hdone].
      destruct (memory.streaming _); eauto.
    + injection Hdone as <- <- <-.
      split; [apply at_most_one_message_refl | auto].
  - unfold memory.SetPipelineData in *.
    destruct (memory.write_pipeline_data wfm i tp v) as [wfm1|e|] eqn:Hw;
      try discriminate.
    + apply write_pipeline_data_Ok in Hw as (fs & _ & ->).
      eapply Hstored; [|exact Hdone].
      destruct (memory.streaming _); eauto.
    + injection Hdone as <- <- <-.
      split; [apply at_most_one_message_refl | auto].
Qed.

(** X14.  [SendWorkflowStatusEvent] does not look at the registry: for
    any identifier, registered or not, it sends the encoding of the event
    on the channel of that name.  It returns the error of the encoder or
    of the server, and then has sent nothing. *)
Theorem send_workflow_status_event_publishes
    (w w' : memory.World) (workflowID : string)
    (event : memory.Event JSONObject) (err : option error) :
  memory.SendWorkflowStatusEvent gob_Encode_Event w workflowID event = Done err w' ->
  memory.at_most_one_message w w' workflowID err
  /\ (err = None -> memory.publishes gob_Encode_Event w w' workflowID event)
  /\ (forall e, gob_Encode_Event event = Err e -> err = Some e)
  /\ (forall buf e, gob_Encode_Event event = Ok buf ->
                    redis.fault (memory.redisClient w) = Some e -> err = Some e).
Proof.
  unfold memory.SendWorkflowStatusEvent, memory.publishes, memory.at_most_one_message.
  destruct (gob_Encode_Event event) as [buf|e|p]; [| |discriminate].
  - unfold redis.Publish. destruct w as [[ks msgs [e|]] t]; cbn.
    + intros [= <- <-]. repeat split; try discriminate. congruence.
    + intros [= <- <-]. repeat split; eauto; discriminate.
  - intros [= <- <-]. repeat split; try discriminate. congruence.
Qed.

(** X15.  [SetComponentData] publishes for every data type too: with
    streaming enabled, a call on setup or element (any type other than
    input and output) that returns nil has sent one message, the encoding
    of the empty [Event{}]. *)
Theorem set_component_data_publishes_for_every_type
    (wfm wfm' : wfm_t) (w w' : memory.World) (i : Z) (C : string)
    (t : memory.ComponentDataType) (v : data.Value) :
  memory.streaming wfm = true ->
  t <> memory.ComponentDataInput ->
  t <> memory.ComponentDataOutput ->
  SetComponentData wfm w i C t v = Done None (wfm', w') ->
  memory.publishes gob_Encode_Event w w' (memory.ID wfm) memory.zeroEvent.
Proof.
  intros Hstream Hin Hout H. unfold memory.SetComponentData in H.
  destruct (memory.write_component_data wfm i C t v) as [wfm1| |] eqn:Hw;
    try discriminate.
  apply write_component_data_Ok in Hw as (fs & cfs & Hfs & HC & ->).
  cbn [memory.streaming memory.store_root] in H. rewrite Hstream in H.
  apply publish_returns_nil in H as (-> & _ & event & Hev & Hpub).
  destruct (memory.to_dynamic rev protojson_Marshal json_Unmarshal v) as [d| |];
    try discriminate.
  injection Hev as <-. unfold memory.component_data_event in Hpub.
  apply String.eqb_neq in Hin, Hout. now rewrite Hin, Hout in Hpub.
Qed.

(** X16.  A nil value cannot be streamed: with streaming enabled,
    [SetPipelineData(i, t, nil)], and [SetComponentData(i, C, t, nil)] on
    a component that exists, panic on the call of [ToStructValue] on the
    nil interface. *)
Theorem nil_value_panics_when_streaming
    (wfm : wfm_t) (w : memory.World) (i : Z) (fs : gmap string data.Value) :
  memory.streaming wfm = true ->
  memory.root_fields wfm i = Ok fs ->
  (forall t, SetPipelineData wfm w i t data.Nil = Crash NilDereference)
  /\ (forall C cfs t,
        fs !! C = Some (data.Map cfs) ->
        SetComponentData wfm w i C t data.Nil = Crash NilDereference).
Proof.
  intros Hstream Hfs. split.
  - intros t. unfold memory.SetPipelineData, memory.write_pipeline_data.
    rewrite Hfs. run. cbn [memory.streaming memory.store_root]. now rewrite Hstream.
  - intros C cfs t HC.
    unfold memory.SetComponentData, memory.write_component_data, memory.component.
    rewrite Hfs. run. rewrite HC. run. cbn [data.Fields]. run.
    cbn [memory.streaming memory.store_root]. now rewrite Hstream.
Qed.


(** X18.  The status flags are not validated.  Right after
    [InitComponent(i, C)], [GetComponentStatus(i, C, t)] for a [t] other
    than started, skipped and completed panics on the type assertion of
    the absent entry; it returns neither false nor an error. *)
Theorem unknown_status_flag_panics
    (wfm wfm' : wfm_t) (i : Z) (C : string) (t : memory.ComponentStatusType) :
  memory.InitComponent wfm i C = Ok wfm' ->
  t <> memory.ComponentStatusStarted ->
  t <> memory.ComponentStatusSkipped ->
  t <> memory.ComponentStatusCompleted ->
  memory.GetComponentStatus wfm' i C t = Panic InterfaceConversion.
Proof.
  unfold memory.InitComponent. intros H Hstarted Hskipped Hcompleted.
  apply bind_Ok in H as (fs & Hfs & [= <-]).
  apply root_fields_Ok in Hfs as Hi. destruct Hi as [Hi _].
  unfold memory.GetComponentStatus.
  rewrite component_store_root by exact Hi. run.
  unfold memory.status_fields, memory.compMemory. cbn [data.NewMap data.Fields]. run.
  rewrite at_key_present with (v := data.Map {[ "started" := data.NewBoolean false;
                                               "skipped" := data.NewBoolean false;
                                               "completed" := data.NewBoolean false ]})
    by reflexivity.
  cbn [data.Fields]. run.
  rewrite at_key_absent; [reflexivity|].
  rewrite !lookup_insert_ne
    by (intros <-; first [now apply Hstarted | now apply Hskipped]).
  apply lookup_singleton_ne. intros <-. now apply Hcompleted.
Qed.

(** X19.  Of the four pipeline data types a new workflow memory holds
    three: at every batch index in range, [GetPipelineData] for the output
    template, or for any name other than variable, secret and output,
    returns the error "t not exist". *)
Theorem pipeline_data_absent_until_set
    (ms ms' : memory.memoryStore Recipe_t) (workflowID : string)
    (r : option Recipe_t) (batchSize i : Z) (wfm : wfm_t)
    (t : memory.PipelineDataType) :
  memory.NewWorkflowMemory ms workflowID r batchSize = Ok (wfm, ms') ->
  0 <= i < batchSize ->
  t ∉ [memory.PipelineVariable; memory.PipelineSecret; memory.PipelineOutput] ->
  memory.GetPipelineData wfm i t = Err (Errorf (t +:+ " not exist"))
  /\ memory.GetPipelineData wfm i memory.PipelineOutputTemplate
     = Err (Errorf "_output not exist").
Proof.
  unfold memory.NewWorkflowMemory. intros H Hi Ht.
  destruct (batchSize <? 0); [discriminate|].
  cbn [memory.workflows] in H. rewrite lookup_insert_eq in H.
  injection H as <- <-. rewrite new_data_replicate.
  assert (Hroot : forall k, k ∉ [memory.PipelineVariable; memory.PipelineSecret;
                                 memory.PipelineOutput] ->
            memory.GetPipelineData
              (memory.mkWorkflowMemory workflowID
                 (replicate (Z.to_nat batchSize) memory.new_root) r false) i k
            = Err (Errorf (k +:+ " not exist"))).
  { intros k Hk. unfold memory.GetPipelineData, memory.root_fields. cbn [memory.Data].
    erewrite index_in_range; cycle 1.
    - rewrite length_replicate. lia.
    - apply lookup_replicate_2. lia.
    - unfold memory.new_root. run. cbn [data.NewMap data.Fields]. run.
      set_unfold in Hk.
      rewrite !lookup_insert_ne by (intros <-; apply Hk; auto).
      rewrite lookup_singleton_ne by (intros <-; apply Hk; auto).
      reflexivity. }
  split; [now apply Hroot|].
  apply (Hroot memory.PipelineOutputTemplate).
  set_unfold. intros [H | [H | [H | []]]]; discriminate.
Qed.

(** *** The separators of a path *)

Lemma FieldsFunc_from_sep_swap (f : ascii -> bool) (c1 c2 : ascii) (p q : string) :
  f c1 = true -> f c2 = true ->
  forall cur,
    FieldsFunc_from f cur (p +:+ String c1 q) = FieldsFunc_from f cur (p +:+ String c2 q).
Proof.
  intros H1 H2. induction p as [|c p IH]; intros cur.
  - rewrite !append_nil_l. cbn [FieldsFunc_from]. now rewrite H1, H2.
  - rewrite !append_cons. cbn [FieldsFunc_from]. now rewrite !IH.
Qed.

Lemma FieldsFunc_from_sep_twice (f : ascii -> bool) (c1 c2 : ascii) (p q : string) :
  f c1 = true -> f c2 = true ->
  forall cur,
    FieldsFunc_from f cur (p +:+ String c1 (String c2 q))
    = FieldsFunc_from f cur (p +:+ String c1 q).
Proof.
  intros H1 H2. induction p as [|c p IH]; intros cur.
  - rewrite !append_nil_l. cbn [FieldsFunc_from String.eqb]. now rewrite H1, H2.
  - rewrite !append_cons. cbn [FieldsFunc_from]. now rewrite !IH.
Qed.

Lemma FieldsFunc_from_sep_last (f : ascii -> bool) (c : ascii) (p : string) :
  f c = true ->
  forall cur, FieldsFunc_from f cur (p +:+ String c "") = FieldsFunc_from f cur p.
Proof.
  intros H. induction p as [|c' p IH]; intros cur.
  - rewrite append_nil_l. cbn [FieldsFunc_from]. now rewrite H.
  - rewrite append_cons. cbn [FieldsFunc_from]. now rewrite !IH.
Qed.

Lemma append_not_empty (p : string) (c : ascii) (q : string) :
  String.eqb (p +:+ String c q) "" = false.
Proof. now destruct p. Qed.

Lemma Get_fields (wfm : wfm_t) (i : Z) (p q : string) :
  String.eqb p "" = false -> String.eqb q "" = false ->
  FieldsFunc p memory.is_separator = FieldsFunc q memory.is_separator ->
  memory.Get wfm i p = memory.Get wfm i q.
Proof. intros Hp Hq Hfields. unfold memory.Get. now rewrite Hp, Hq, Hfields. Qed.

(** X20.  [Get] reads a path through its fields, the runs between
    separators, so it does not tell a dot from an opening bracket, nor
    one separator from several: a leading or a trailing dot of a
    non-empty path is ignored, [p.q] and [p[q] resolve alike, and so do
    [p..q] and [p.q].  A non-empty path made of separators only panics
    on the slicing of the empty rewritten path, at every batch index,
    where the empty path returns the root. *)
Theorem get_ignores_the_kind_of_separator (wfm : wfm_t) (i : Z) :
  (forall p, p <> "" -> memory.Get wfm i ("." +:+ p) = memory.Get wfm i p)
  /\ (forall p, p <> "" -> memory.Get wfm i (p +:+ ".") = memory.Get wfm i p)
  /\ (forall p q, memory.Get wfm i (p +:+ "." +:+ q) = memory.Get wfm i (p +:+ "[" +:+ q))
  /\ (forall p q, memory.Get wfm i (p +:+ ".." +:+ q) = memory.Get wfm i (p +:+ "." +:+ q))
  /\ (forall p, p <> "" -> FieldsFunc p memory.is_separator = [] ->
                memory.Get wfm i p = Panic SliceBoundsOutOfRange)
  /\ memory.Get wfm i "" = index (memory.Data wfm) i.
Proof.
  split; [|split; [|split; [|split; [|split]]]].
  - intros p Hp. apply Get_fields; [reflexivity | now apply String.eqb_neq | reflexivity].
  - intros p Hp.
    apply Get_fields; [apply append_not_empty | now apply String.eqb_neq |].
    now apply FieldsFunc_from_sep_last.
  - intros p q. apply Get_fields; try apply append_not_empty.
    now apply FieldsFunc_from_sep_swap.
  - intros p q. apply Get_fields; try apply append_not_empty.
    now apply FieldsFunc_from_sep_twice.
  - intros p Hp Hfields. unfold memory.Get.
    apply String.eqb_neq in Hp. now rewrite Hp, Hfields.
  - reflexivity.
Qed.

End Properties.

(** ** The operator [crop]

    The properties are stated for images of at most 2^29 pixels a side,
    at coordinates below 2^29 in absolute value: there no operation of
    the operator wraps around. *)

Lemma wrap_small (z : Z) : - 2 ^ 63 <= z < 2 ^ 63 -> int.wrap z = z.
Proof.
  intros Hz. unfold int.wrap.
  rewrite Z.mod_small by lia. lia.
Qed.

Lemma Set_if (b : bool) (p : image.RGBA) (x y : Z) (c1 c2 : color.Color) :
  (if b then image.Set_ p x y c1 else image.Set_ p x y c2)
  = image.Set_ p x y (if b then c1 else c2).
Proof. now destruct b. Qed.

Lemma RGBA_Rect_Set (p : image.RGBA) (x y : Z) (c : color.Color) :
  image.RGBA_Rect (image.Set_ p x y c) = image.RGBA_Rect p.
Proof. unfold image.Set_. now destruct (image.In _ _). Qed.

Lemma RGBAAt_Set (p : image.RGBA) (x y : Z) (c : color.Color) (px py : Z) :
  image.RGBAAt (image.Set_ p x y c) px py
  = if image.In (image.mkPoint px py) (image.RGBA_Rect p) && (px =? x) && (py =? y)
    then color.RGBAModel_Convert c
    else image.RGBAAt p px py.
Proof.
  unfold image.RGBAAt. rewrite RGBA_Rect_Set. unfold image.Set_.
  destruct (image.In (image.mkPoint x y) (image.RGBA_Rect p)) eqn:Hin; cbn [image.Pix].
  - destruct (image.In (image.mkPoint px py) (image.RGBA_Rect p)); [|reflexivity].
    rewrite andb_true_l. reflexivity.
  - destruct (image.In (image.mkPoint px py) (image.RGBA_Rect p)) eqn:Hin'; [|reflexivity].
    rewrite andb_true_l.
    destruct (Z.eqb_spec px x) as [-> | ?]; [|reflexivity].
    destruct (Z.eqb_spec py y) as [-> | ?]; [|reflexivity].
    congruence.
Qed.

(** A loop nest that sets, for [x] in [xs] and [y] in [ys], the pixel
    [(dx x, dy y)] to a colour that the pixel determines. *)
Section Paint.

Variables (dx dy : Z -> Z) (c : Z -> Z -> color.Color).
Variable col : Z -> Z -> color.RGBA.

Lemma paint_row (xs : list Z) (y : Z) (p : image.RGBA) :
  (forall x, x ∈ xs -> color.RGBAModel_Convert (c x y) = col (dx x) (dy y)) ->
  let q := foldl (fun s x => image.Set_ s (dx x) (dy y) (c x y)) p xs in
  image.RGBA_Rect q = image.RGBA_Rect p
  /\ forall px py,
       image.RGBAAt q px py
       = if image.In (image.mkPoint px py) (image.RGBA_Rect p)
            && existsb (fun x => dx x =? px) xs && (dy y =? py)
         then col px py else image.RGBAAt p px py.
Proof.
  induction xs as [|a xs IH] using rev_ind; intros Hcol q.
  - split; [reflexivity|]. intros px py. subst q. cbn [foldl existsb].
    now rewrite andb_false_r.
  - subst q. rewrite foldl_app. cbn [foldl].
    destruct IH as [HRect HAt].
    { intros x Hx. apply Hcol. set_solver. }
    split; [now rewrite RGBA_Rect_Set|].
    intros px py. rewrite RGBAAt_Set, HRect, HAt.
    rewrite existsb_app. cbn [existsb]. rewrite orb_false_r.
    destruct (image.In (image.mkPoint px py) (image.RGBA_Rect p)); [|reflexivity].
    rewrite !andb_true_l.
    destruct (Z.eqb_spec px (dx a)) as [-> | Hne].
    + rewrite Z.eqb_refl, orb_true_r, andb_true_l.
      destruct (Z.eqb_spec py (dy y)) as [-> | Hne'].
      * rewrite Z.eqb_refl. apply Hcol. set_solver.
      * replace (dy y =? py) with false by lia. now rewrite andb_false_r.
    + replace (dx a =? px) with false by lia. now rewrite orb_false_r.
Qed.

Lemma paint_rows (xs ys : list Z) (p : image.RGBA) :
  (forall x y, x ∈ xs -> y ∈ ys ->
               color.RGBAModel_Convert (c x y) = col (dx x) (dy y)) ->
  let q := foldl (fun s y => foldl (fun s x => image.Set_ s (dx x) (dy y) (c x y)) s xs)
             p ys in
  image.RGBA_Rect q = image.RGBA_Rect p
  /\ forall px py,
       image.RGBAAt q px py
       = if image.In (image.mkPoint px py) (image.RGBA_Rect p)
            && existsb (fun x => dx x =? px) xs && existsb (fun y => dy y =? py) ys
         then col px py else image.RGBAAt p px py.
Proof.
  induction ys as [|b ys IH] using rev_ind; intros Hcol q.
  - split; [reflexivity|]. intros px py. subst q. cbn [foldl existsb].
    now rewrite andb_false_r.
  - subst q. rewrite foldl_app. cbn [foldl].
    destruct IH as [HRect HAt].
    { intros x y Hx Hy. apply Hcol; set_solver. }
    destruct (paint_row xs b
                (foldl (fun s y => foldl (fun s x => image.Set_ s (dx x) (dy y) (c x y)) s xs)
                   p ys)) as [HRect' HAt'].
    { intros x Hx. apply Hcol; set_solver. }
    split; [now rewrite HRect'|].
    intros px py. rewrite HAt', HRect, HAt.
    rewrite existsb_app. cbn [existsb]. rewrite orb_false_r.
    destruct (image.In (image.mkPoint px py) (image.RGBA_Rect p)); [|reflexivity].
    rewrite !andb_true_l.
    destruct (existsb (fun x => dx x =? px) xs); [|reflexivity].
    rewrite !andb_true_l.
    destruct (dy b =? py); [now rewrite orb_true_r|].
    now rewrite orb_false_r.
Qed.

End Paint.

Lemma existsb_seqZ (f : Z -> Z) (lo len px : Z) (b : bool) :
  ((exists x, lo <= x < lo + len /\ f x = px) <-> b = true) ->
  existsb (fun x => f x =? px) (seqZ lo len) = b.
Proof.
  intros H. apply Bool.eq_iff_eq_true. rewrite <- H, existsb_exists.
  split.
  - intros (x & Hx & Hf). apply list_elem_of_In, elem_of_seqZ in Hx.
    exists x. split; [exact Hx | lia].
  - intros (x & Hx & Hf). exists x. split; [|lia].
    apply list_elem_of_In, elem_of_seqZ. exact Hx.
Qed.

Lemma squares_small (dx dy : Z) :
  - 2 ^ 31 < dx < 2 ^ 31 -> - 2 ^ 31 < dy < 2 ^ 31 ->
  int.add (int.mul dx dx) (int.mul dy dy) = dx * dx + dy * dy.
Proof.
  intros Hx Hy.
  assert (0 <= dx * dx <= (2 ^ 31 - 1) * (2 ^ 31 - 1)) by nia.
  assert (0 <= dy * dy <= (2 ^ 31 - 1) * (2 ^ 31 - 1)) by nia.
  unfold int.add, int.mul.
  rewrite (wrap_small (dx * dx)), (wrap_small (dy * dy)) by lia.
  now rewrite wrap_small by lia.
Qed.

(** The test of [isInsideRoundedCorner] on numbers far from the ends of
    [int]. *)
Lemma isInsideRoundedCorner_small (x y width height radius rs : Z) :
  - 2 ^ 30 <= radius <= 2 ^ 30 ->
  0 <= width < 2 ^ 30 -> 0 <= height < 2 ^ 30 ->
  0 <= x < width -> 0 <= y < height ->
  operator.isInsideRoundedCorner x y width height radius rs
  = if (x <? radius) && (y <? radius) then
      (radius - x - 1) * (radius - x - 1) + (radius - y - 1) * (radius - y - 1) <? rs
    else if (width - radius <=? x) && (y <? radius) then
      (x - (width - radius)) * (x - (width - radius))
      + (radius - y - 1) * (radius - y - 1) <? rs
    else if (x <? radius) && (height - radius <=? y) then
      (radius - x - 1) * (radius - x - 1)
      + (y - (height - radius)) * (y - (height - radius)) <? rs
    else if (width - radius <=? x) && (height - radius <=? y) then
      (x - (width - radius)) * (x - (width - radius))
      + (y - (height - radius)) * (y - (height - radius)) <? rs
    else true.
Proof.
  intros Hr Hw Hh Hx Hy. unfold operator.isInsideRoundedCorner.
  unfold int.sub. rewrite !(wrap_small (_ - radius)) by lia.
  rewrite !(wrap_small (radius - _)) by lia.
  rewrite !(wrap_small (_ - 1)) by lia.
  rewrite !(wrap_small (_ - (_ - _))) by lia.
  cbv zeta. rewrite !squares_small by lia. reflexivity.
Qed.

(** X22.  When the image is at least two radii wide and high, the four
    rounded corners mirror each other: [isInsideRoundedCorner] gives the
    same answer at [(x, y)], at [(width - 1 - x, y)] and at
    [(x, height - 1 - y)]. *)
Theorem rounded_corners_are_symmetric (x y width height radius rs : Z) :
  0 <= radius ->
  2 * radius <= width < 2 ^ 30 ->
  2 * radius <= height < 2 ^ 30 ->
  0 <= x < width -> 0 <= y < height ->
  operator.isInsideRoundedCorner (width - 1 - x) y width height radius rs
  = operator.isInsideRoundedCorner x y width height radius rs
  /\ operator.isInsideRoundedCorner x (height - 1 - y) width height radius rs
     = operator.isInsideRoundedCorner x y width height radius rs.
Proof.
  intros Hr Hw Hh Hx Hy.
  rewrite !isInsideRoundedCorner_small by lia.
  split.
  - destruct (Z.ltb_spec x radius), (Z.leb_spec (width - radius) x),
      (Z.ltb_spec (width - 1 - x) radius), (Z.leb_spec (width - radius) (width - 1 - x));
      try lia; cbn [andb];
      destruct (y <? radius), (height - radius <=? y); cbn [andb];
      try reflexivity; f_equal; ring.
  - destruct (Z.ltb_spec y radius), (Z.leb_spec (height - radius) y),
      (Z.ltb_spec (height - 1 - y) radius), (Z.leb_spec (height - radius) (height - 1 - y));
      try lia; cbn [andb];
      destruct (x <? radius), (width - radius <=? x); cbn [andb];
      try reflexivity; f_equal; ring.
Qed.

Lemma foldl_ext_in {A B : Type} (f g : A -> B -> A) (l : list B) (a : A) :
  (forall a x, x ∈ l -> f a x = g a x) -> foldl f a l = foldl g a l.
Proof.
  revert a. induction l as [|b l IH]; intros a H; [reflexivity|].
  cbn [foldl]. rewrite H by set_solver. apply IH.
  intros a' x Hx. apply H. set_solver.
Qed.

Lemma paint_for (xlo xhi ylo yhi : Z) (dx dy : Z -> Z) (c : Z -> Z -> color.Color)
    (col : Z -> Z -> color.RGBA) (body : Z -> Z -> image.RGBA -> image.RGBA)
    (p : image.RGBA) :
  (forall x y s, xlo <= x < xhi -> ylo <= y < yhi ->
                 body x y s = image.Set_ s (dx x) (dy y) (c x y)) ->
  (forall x y, xlo <= x < xhi -> ylo <= y < yhi ->
               color.RGBAModel_Convert (c x y) = col (dx x) (dy y)) ->
  let q := int.for_ ylo yhi (fun y s => int.for_ xlo xhi (fun x s => body x y s) s) p in
  image.RGBA_Rect q = image.RGBA_Rect p
  /\ forall px py,
       image.RGBAAt q px py
       = if image.In (image.mkPoint px py) (image.RGBA_Rect p)
            && existsb (fun x => dx x =? px) (seqZ xlo (xhi - xlo))
            && existsb (fun y => dy y =? py) (seqZ ylo (yhi - ylo))
         then col px py else image.RGBAAt p px py.
Proof.
  intros Hbody Hcol q. subst q. unfold int.for_.
  erewrite foldl_ext_in; [apply (paint_rows dx dy c col)|].
  - intros x y Hx Hy. apply elem_of_seqZ in Hx, Hy. apply Hcol; lia.
  - intros s y Hy. cbn beta. apply foldl_ext_in.
    intros s' x Hx. apply elem_of_seqZ in Hx, Hy. apply Hbody; lia.
Qed.

Lemma existsb_range (lo len px : Z) :
  existsb (fun x => x =? px) (seqZ lo len) = (lo <=? px) && (px <? lo + len).
Proof.
  apply (existsb_seqZ (fun x => x)).
  rewrite andb_true_iff, Z.leb_le, Z.ltb_lt. split.
  - intros (x & Hx & ->). lia.
  - intros H. exists px. lia.
Qed.

Lemma NewRGBA_small (r : image.Rectangle) :
  0 <= image.Dx r < 2 ^ 30 -> 0 <= image.Dy r < 2 ^ 30 ->
  image.NewRGBA r = Some (image.mkRGBA r (fun _ _ => color.mkRGBA 0 0 0 0)).
Proof.
  intros Hx Hy. unfold image.NewRGBA, image.mul3NonNeg.
  assert (0 <= image.Dx r * image.Dy r < 2 ^ 60) by nia.
  replace ((4 <? 0) || (image.Dx r <? 0) || (image.Dy r <? 0)) with false by lia.
  replace (2 ^ 64 <=? 4 * image.Dx r) with false by lia.
  replace (2 ^ 64 <=? 4 * image.Dx r * image.Dy r) with false by lia.
  replace (2 ^ 63 <=? 4 * image.Dx r * image.Dy r) with false by lia.
  now replace (4 * image.Dx r * image.Dy r <? 0) with false by lia.
Qed.

Lemma Rect_origin (width height : Z) :
  0 <= width -> 0 <= height ->
  image.Rect 0 0 width height
  = image.mkRectangle (image.mkPoint 0 0) (image.mkPoint width height).
Proof.
  intros Hw Hh. unfold image.Rect.
  replace (width <? 0) with false by lia. now replace (height <? 0) with false by lia.
Qed.

Lemma cropCornerRadius_At (img : image.Image) (radius : Z) :
  - 2 ^ 29 < image.X (image.Min (image.Bounds img)) <= image.X (image.Max (image.Bounds img)) ->
  image.X (image.Max (image.Bounds img)) < 2 ^ 29 ->
  - 2 ^ 29 < image.Y (image.Min (image.Bounds img)) <= image.Y (image.Max (image.Bounds img)) ->
  image.Y (image.Max (image.Bounds img)) < 2 ^ 29 ->
  exists result,
    operator.cropCornerRadius img radius = Some result
    /\ image.RGBA_Rect result = image.Bounds img
    /\ forall x y,
         image.RGBAAt result x y
         = if image.In (image.mkPoint x y) (image.Bounds img)
              && (0 <=? x) && (x <? image.Dx (image.Bounds img))
              && (0 <=? y) && (y <? image.Dy (image.Bounds img))
              && operator.isInsideRoundedCorner x y (image.Dx (image.Bounds img))
                   (image.Dy (image.Bounds img)) radius (int.mul radius radius)
           then color.RGBAModel_Convert (image.At img x y)
           else color.mkRGBA 0 0 0 0.
Proof.
  set (b := image.Bounds img). intros HX HX' HY HY'.
  assert (Hdx : image.Dx b = image.X (image.Max b) - image.X (image.Min b)).
  { unfold image.Dx, int.sub. apply wrap_small. lia. }
  assert (Hdy : image.Dy b = image.Y (image.Max b) - image.Y (image.Min b)).
  { unfold image.Dy, int.sub. apply wrap_small. lia. }
  unfold operator.cropCornerRadius. fold b.
  rewrite NewRGBA_small by lia. cbn [mbind option_bind].
  eexists. split; [reflexivity|].
  match goal with
  | |- context [int.for_ 0 ?h (fun y s => int.for_ 0 ?w (fun x s' => @?body x y s') s) ?p] =>
      destruct (paint_for 0 w 0 h (fun x => x) (fun y => y)
                  (fun x y => if operator.isInsideRoundedCorner x y w h radius
                                   (int.mul radius radius)
                              then image.At img x y else color.Transparent)
                  (fun x y => if operator.isInsideRoundedCorner x y w h radius
                                   (int.mul radius radius)
                              then color.RGBAModel_Convert (image.At img x y)
                              else color.mkRGBA 0 0 0 0)
                  body p) as [HRect HAt]
  end.
  - intros x y s _ _. cbn beta. apply Set_if.
  - intros x y _ _. now destruct (operator.isInsideRoundedCorner _ _ _ _ _ _).
  - cbn beta in HRect, HAt. split; [exact HRect|].
    intros x y. rewrite HAt. cbn [image.RGBA_Rect].
    rewrite !existsb_range, !Z.sub_0_r, !Z.add_0_l.
    unfold image.RGBAAt. cbn [image.RGBA_Rect image.Pix].
    destruct (image.In (image.mkPoint x y) b), (0 <=? x), (x <? image.Dx b),
      (0 <=? y), (y <? image.Dy b),
      (operator.isInsideRoundedCorner x y (image.Dx b) (image.Dy b) radius
         (int.mul radius radius)); reflexivity.
Qed.

(** X21.  On an image whose bounds start at the origin,
    [cropCornerRadius] returns an image of the same bounds in which the
    pixel at [(x, y)] is the pixel of the input where
    [isInsideRoundedCorner] holds, and transparent where it does not. *)
Theorem crop_corner_radius_pixels
    (img : image.Image) (width height radius x y : Z) :
  image.Bounds img = image.Rect 0 0 width height ->
  0 <= width < 2 ^ 29 -> 0 <= height < 2 ^ 29 ->
  0 <= x < width -> 0 <= y < height ->
  exists result,
    operator.cropCornerRadius img radius = Some result
    /\ image.RGBA_Rect result = image.Bounds img
    /\ image.RGBAAt result x y
       = if operator.isInsideRoundedCorner x y width height radius (int.mul radius radius)
         then color.RGBAModel_Convert (image.At img x y)
         else color.RGBAModel_Convert color.Transparent.
Proof.
  intros Hb Hw Hh Hx Hy. rewrite Rect_origin in Hb by lia.
  destruct (cropCornerRadius_At img radius) as (result & Hres & HRect & HAt);
    try (rewrite Hb; cbn; lia).
  exists result. split; [exact Hres|]. split; [exact HRect|].
  rewrite HAt, Hb. unfold image.Dx, image.Dy, image.In, int.sub. cbn.
  rewrite !Z.sub_0_r, !wrap_small by lia.
  replace (0 <=? x) with true by lia. replace (x <? width) with true by lia.
  replace (0 <=? y) with true by lia. replace (y <? height) with true by lia.
  reflexivity.
Qed.





(** *** The conversions to and from [float64] *)

Lemma round53_exact (n : Z) : 0 <= n < 2 ^ 53 -> float64.round53 n = n.
Proof.
  intros Hn. unfold float64.round53.
  destruct (Z.leb_spec (Z.log2 (Z.abs n) - 52) 0) as [_ | He]; [reflexivity|].
  rewrite Z.abs_eq in He by lia.
  assert (0 < n) by (destruct (Z.eq_dec n 0) as [-> | ?]; [discriminate He | lia]).
  assert (Z.log2 n < 53) by (apply Z.log2_lt_pow2; lia).
  lia.
Qed.

Lemma round53_large (n : Z) : 2 ^ 53 <= n -> 2 ^ 53 <= float64.round53 n.
Proof.
  intros Hn. unfold float64.round53. rewrite Z.abs_eq by lia.
  destruct (Z.leb_spec (Z.log2 n - 52) 0) as [_ | He]; [exact Hn|].
  set (e := Z.log2 n - 52) in *.
  assert (Hpow : 2 ^ 52 * 2 ^ e <= n).
  { rewrite <- Z.pow_add_r by lia. replace (52 + e) with (Z.log2 n) by lia.
    apply Z.log2_spec. lia. }
  assert (He2 : 2 <= 2 ^ e).
  { change 2 with (2 ^ 1) at 1. apply Z.pow_le_mono_r; lia. }
  assert (Hq : 2 ^ 52 <= Z.shiftr n e).
  { rewrite Z.shiftr_div_pow2 by lia. apply Z.div_le_lower_bound; lia. }
  rewrite Z.sgn_pos by lia. rewrite Z.shiftl_mul_pow2 by lia.
  destruct (_ || _); nia.
Qed.

(** The corner radius that [crop] computes in [float64] is the one the
    circle branch computes in [int]. *)
Lemma corner_radius_clamp (corner width height : Z) :
  0 < corner < 2 ^ 63 -> 0 < width < 2 ^ 29 -> 0 < height < 2 ^ 29 ->
  float64.to_int
    (float64.Min (float64.of_int corner)
       (float64.halve (float64.Min (float64.of_int width) (float64.of_int height))))
  = Z.min corner (Z.min width height / 2).
Proof.
  intros Hc Hw Hh. unfold float64.of_int.
  rewrite (round53_exact width), (round53_exact height) by lia.
  assert (Hm : float64.halve (float64.Min (2 * width) (2 * height)) = Z.min width height).
  { unfold float64.halve, float64.Min.
    destruct (Z.ltb_spec (2 * width) (2 * height));
      rewrite Z.mul_comm, Z.quot_mul by lia; lia. }
  rewrite Hm. unfold float64.Min, float64.to_int.
  assert (Hquot : forall z, 0 <= z -> Z.quot z 2 = z / 2)
    by (intros z Hz; apply Z.quot_div_nonneg; lia).
  set (m := Z.min width height) in *.
  assert (Hmpos : 0 < m < 2 ^ 29) by lia.
  pose proof (Z.div_mod m 2 ltac:(lia)) as Hdm.
  pose proof (Z.mod_pos_bound m 2 ltac:(lia)) as Hmod.
  destruct (Z.ltb_spec corner (2 ^ 53)) as [Hsmall | Hlarge].
  - rewrite round53_exact by lia.
    destruct (Z.ltb_spec (2 * corner) m).
    + rewrite Z.mul_comm, Z.quot_mul by lia. rewrite wrap_small by lia. lia.
    + rewrite Hquot by lia. rewrite wrap_small by lia. lia.
  - pose proof (round53_large corner Hlarge).
    destruct (Z.ltb_spec (2 * float64.round53 corner) m); [lia|].
    rewrite Hquot by lia. rewrite wrap_small by lia. lia.
Qed.

(** *** [crop] *)

Lemma crop_rectangle (img : image.Image) (top right bottom left : Z) :
  let width := image.Dx (image.Bounds img) in
  let height := image.Dy (image.Bounds img) in
  let w := width - left - right in
  let h := height - top - bottom in
  0 <= width < 2 ^ 29 -> 0 <= height < 2 ^ 29 ->
  0 <= left -> 0 <= top -> 0 <= right -> 0 <= bottom ->
  0 < w -> 0 < h ->
  exists croppedImg,
    image.RGBA_Rect croppedImg = image.Rect 0 0 w h
    /\ (forall x y,
          image.RGBAAt croppedImg x y
          = if (0 <=? x) && (x <? w) && (0 <=? y) && (y <? h)
            then color.RGBAModel_Convert (image.At img (x + left) (y + top))
            else color.mkRGBA 0 0 0 0)
    /\ forall corner circle,
         operator.crop (operator.mkCropInput corner circle top right bottom left) img
         = if 0 <? circle then
             operator.of_option
               (operator.cropCircle (image.as_Image croppedImg) (w / 2) (h / 2)
                  (Z.min circle (Z.min w h / 2)))
           else if 0 <? corner then
             operator.of_option
               (operator.cropCornerRadius (image.as_Image croppedImg)
                  (float64.to_int
                     (float64.Min (float64.of_int corner)
                        (float64.halve
                           (float64.Min (float64.of_int w) (float64.of_int h))))))
           else operator.Returns croppedImg.
Proof.
  intros width height w h Hw Hh Hl Ht Hr Hb Hw' Hh'.
  unfold operator.crop. cbn [operator.LeftOffset operator.TopOffset operator.RightOffset
    operator.BottomOffset operator.CircleRadius operator.CornerRadius].
  fold width height.
  assert (Hx2 : int.sub width (right)
                = width - right).
  { unfold int.sub. apply wrap_small. lia. }
  assert (Hy2 : int.sub height (bottom)
                = height - bottom).
  { unfold int.sub. apply wrap_small. lia. }
  rewrite Hx2, Hy2.
  assert (Hw2 : int.sub (width - right) left = w).
  { unfold int.sub. rewrite wrap_small by lia. lia. }
  assert (Hh2 : int.sub (height - bottom) top = h).
  { unfold int.sub. rewrite wrap_small by lia. lia. }
  rewrite Hw2, Hh2.
  replace ((left <? 0) || (top <? 0)
           || (width <? width - right)
           || (height <? height - bottom)
           || (width - right <=? left)
           || (height - bottom <=? top)) with false by lia.
  rewrite Rect_origin by lia.
  assert (HDx : image.Dx (image.mkRectangle (image.mkPoint 0 0) (image.mkPoint w h)) = w).
  { unfold image.Dx, int.sub. cbn. rewrite wrap_small by lia. lia. }
  assert (HDy : image.Dy (image.mkRectangle (image.mkPoint 0 0) (image.mkPoint w h)) = h).
  { unfold image.Dy, int.sub. cbn. rewrite wrap_small by lia. lia. }
  rewrite NewRGBA_small by lia.
  match goal with
  | |- context [int.for_ ?ylo ?yhi
                  (fun y s => int.for_ ?xlo ?xhi (fun x s' => @?body x y s') s) ?p] =>
      destruct (paint_for xlo xhi ylo yhi (fun x => int.sub x left) (fun y => int.sub y top)
                  (fun x y => image.At img x y)
                  (fun x y => color.RGBAModel_Convert (image.At img (x + left) (y + top)))
                  body p) as [HRect HAt];
      [| | set (croppedImg := int.for_ ylo yhi _ p) in *]
  end.
  - intros x y s _ _. reflexivity.
  - intros x y Hx Hy. unfold int.sub. rewrite !wrap_small by lia.
    f_equal. f_equal; lia.
  - cbn beta in HRect, HAt. cbn [image.RGBA_Rect] in HRect, HAt.
    exists croppedImg. split; [exact HRect|]. split.
    + intros x y. rewrite HAt.
      rewrite (existsb_seqZ (fun x => int.sub x left) _ _ x ((0 <=? x) && (x <? w))); cycle 1.
      { rewrite andb_true_iff, Z.leb_le, Z.ltb_lt. unfold int.sub. split.
        - intros (x' & Hx' & <-). rewrite wrap_small by lia. lia.
        - intros Hx. exists (x + left). rewrite wrap_small by lia. lia. }
      rewrite (existsb_seqZ (fun y => int.sub y top) _ _ y ((0 <=? y) && (y <? h))); cycle 1.
      { rewrite andb_true_iff, Z.leb_le, Z.ltb_lt. unfold int.sub. split.
        - intros (y' & Hy' & <-). rewrite wrap_small by lia. lia.
        - intros Hy. exists (y + top). rewrite wrap_small by lia. lia. }
      unfold image.RGBAAt, image.In. cbn.
      destruct (0 <=? x), (x <? w), (0 <=? y), (y <? h); reflexivity.
    + intros corner circle. rewrite HRect, HDx, HDy.
      assert (Hdiv : forall z, 0 <= z < 2 ^ 29 -> int.div z 2 = z / 2).
      { intros z Hz. unfold int.div. rewrite Z.quot_div_nonneg by lia.
        apply wrap_small. split; [|apply Z.div_lt_upper_bound]; try lia.
        transitivity 0; [lia | apply Z.div_pos; lia]. }
      rewrite !Hdiv by lia.
      destruct (0 <? circle); [|reflexivity].
      f_equal. f_equal.
      destruct (Z.ltb_spec h w);
        [replace (Z.min w h) with h by lia | replace (Z.min w h) with w by lia];
        rewrite ?Hdiv by lia;
        match goal with |- context [?a <? ?b] => destruct (Z.ltb_spec a b) end; lia.
Qed.

(** X25.  [crop] returns the error "invalid crop dimensions" exactly
    when an offset is negative or the offsets leave no column or no row:
    it accepts the offsets that are not negative with
    [left + right < width] and [top + bottom < height], and no others. *)
Theorem crop_accepts_exactly_the_proper_offsets
    (inputStruct : operator.cropInput) (img : image.Image) :
  0 <= image.Dx (image.Bounds img) < 2 ^ 29 ->
  0 <= image.Dy (image.Bounds img) < 2 ^ 29 ->
  - 2 ^ 62 < operator.LeftOffset inputStruct < 2 ^ 62 ->
  - 2 ^ 62 < operator.TopOffset inputStruct < 2 ^ 62 ->
  - 2 ^ 62 < operator.RightOffset inputStruct < 2 ^ 62 ->
  - 2 ^ 62 < operator.BottomOffset inputStruct < 2 ^ 62 ->
  operator.crop inputStruct img = operator.Fails (Errorf "invalid crop dimensions")
  <-> ~ (0 <= operator.LeftOffset inputStruct
         /\ 0 <= operator.TopOffset inputStruct
         /\ 0 <= operator.RightOffset inputStruct
         /\ 0 <= operator.BottomOffset inputStruct
         /\ operator.LeftOffset inputStruct + operator.RightOffset inputStruct
            < image.Dx (image.Bounds img)
         /\ operator.TopOffset inputStruct + operator.BottomOffset inputStruct
            < image.Dy (image.Bounds img)).
Proof.
  destruct inputStruct as [corner circle top right bottom left].
  cbn [operator.LeftOffset operator.TopOffset operator.RightOffset operator.BottomOffset].
  intros Hw Hh Hl Ht Hr Hb. split.
  - intros Hfails (Hl' & Ht' & Hr' & Hb' & Hx & Hy).
    destruct (crop_rectangle img top right bottom left) as (p & _ & _ & Hcrop); try lia.
    rewrite Hcrop in Hfails.
    destruct (0 <? circle); [|destruct (0 <? corner)];
      try discriminate;
      match type of Hfails with
      | operator.of_option ?o = _ => destruct o; discriminate
      end.
  - intros Hbad. unfold operator.crop.
    cbn [operator.LeftOffset operator.TopOffset operator.RightOffset
           operator.BottomOffset].
    unfold int.sub.
    rewrite (wrap_small (image.Dx (image.Bounds img) - right)) by lia.
    rewrite (wrap_small (image.Dy (image.Bounds img) - bottom)) by lia.
    match goal with
    | |- (if ?c then _ else _) = _ => replace c with true by lia
    end.
    reflexivity.
Qed.

(** X26.  With neither radius positive, [crop] returns the rectangle:
    an image at the origin, [width - left - right] wide and
    [height - top - bottom] high, whose pixel at [(x, y)] is the pixel of
    the input at [(x + left, y + top)]. *)
Theorem crop_without_radius_copies_the_rectangle
    (inputStruct : operator.cropInput) (img : image.Image) :
  0 <= image.Dx (image.Bounds img) < 2 ^ 29 ->
  0 <= image.Dy (image.Bounds img) < 2 ^ 29 ->
  0 <= operator.LeftOffset inputStruct ->
  0 <= operator.TopOffset inputStruct ->
  0 <= operator.RightOffset inputStruct ->
  0 <= operator.BottomOffset inputStruct ->
  operator.LeftOffset inputStruct + operator.RightOffset inputStruct
  < image.Dx (image.Bounds img) ->
  operator.TopOffset inputStruct + operator.BottomOffset inputStruct
  < image.Dy (image.Bounds img) ->
  operator.CircleRadius inputStruct <= 0 ->
  operator.CornerRadius inputStruct <= 0 ->
  exists croppedImg,
    operator.crop inputStruct img = operator.Returns croppedImg
    /\ image.RGBA_Rect croppedImg
       = image.Rect 0 0
           (image.Dx (image.Bounds img) - operator.LeftOffset inputStruct
            - operator.RightOffset inputStruct)
           (image.Dy (image.Bounds img) - operator.TopOffset inputStruct
            - operator.BottomOffset inputStruct)
    /\ forall x y,
         image.In (image.mkPoint x y) (image.RGBA_Rect croppedImg) = true ->
         image.RGBAAt croppedImg x y
         = color.RGBAModel_Convert
             (image.At img (x + operator.LeftOffset inputStruct)
                (y + operator.TopOffset inputStruct)).
Proof.
  destruct inputStruct as [corner circle top right bottom left].
  cbn [operator.LeftOffset operator.TopOffset operator.RightOffset operator.BottomOffset
         operator.CircleRadius operator.CornerRadius].
  intros Hw Hh Hl Ht Hr Hb Hx Hy Hcircle Hcorner.
  destruct (crop_rectangle img top right bottom left) as (p & HRect & HAt & Hcrop);
    try lia.
  exists p. split; [|split; [exact HRect|]].
  - rewrite Hcrop. replace (0 <? circle) with false by lia.
    now replace (0 <? corner) with false by lia.
  - intros x y Hin. rewrite HAt. rewrite HRect, Rect_origin in Hin by lia.
    unfold image.In in Hin. cbn in Hin. now rewrite Hin.
Qed.

(** X27.  [crop] rounds what it has cropped.  With a positive circle
    radius it returns [cropCircle] of the rectangle, at the centre
    [(w / 2, h / 2)]; otherwise, with a positive corner radius,
    [cropCornerRadius] of the rectangle; the circle wins when both are
    positive.  Either radius is limited to half of the smaller side: the
    computation of the corner radius in [float64] and that of the circle
    radius in [int] give the same number. *)
Theorem crop_rounds_after_cropping
    (img : image.Image) (corner circle top right bottom left w h : Z) :
  w = image.Dx (image.Bounds img) - left - right ->
  h = image.Dy (image.Bounds img) - top - bottom ->
  0 <= image.Dx (image.Bounds img) < 2 ^ 29 ->
  0 <= image.Dy (image.Bounds img) < 2 ^ 29 ->
  0 <= left -> 0 <= top -> 0 <= right -> 0 <= bottom -> 0 < w -> 0 < h ->
  corner < 2 ^ 63 ->
  exists croppedImg,
    operator.crop (operator.mkCropInput 0 0 top right bottom left) img
    = operator.Returns croppedImg
    /\ operator.crop (operator.mkCropInput corner circle top right bottom left) img
       = if 0 <? circle then
           operator.of_option
             (operator.cropCircle (image.as_Image croppedImg) (w / 2) (h / 2)
                (Z.min circle (Z.min w h / 2)))
         else if 0 <? corner then
           operator.of_option
             (operator.cropCornerRadius (image.as_Image croppedImg)
                (Z.min corner (Z.min w h / 2)))
         else operator.Returns croppedImg.
Proof.
  intros -> -> Hw Hh Hl Ht Hr Hb Hw' Hh' Hcorner.
  destruct (crop_rectangle img top right bottom left) as (p & HRect & HAt & Hcrop);
    try lia.
  exists p. split; [now rewrite Hcrop|].
  rewrite Hcrop.
  destruct (0 <? circle); [reflexivity|].
  destruct (Z.ltb_spec 0 corner); [|reflexivity].
  now rewrite corner_radius_clamp by lia.
Qed.

(** * The properties at work *)

(** C1: a batch index out of range is answered by a panic, not by an
    error. *)
Lemma batch_index_out_of_range_is_no_error :
  memory.GetBatchSize scenario.fresh = 2
  /\ memory.Get scenario.fresh 2 "variable" = Panic IndexOutOfRange
  /\ memory.GetPipelineData scenario.fresh (-1) "variable" = Panic IndexOutOfRange
  /\ (forall e, memory.Get scenario.fresh 2 "variable" <> Err e).
Proof.
  split; [reflexivity|]. split; [reflexivity|]. split; [reflexivity|].
  intros e. discriminate.
Qed.

Lemma batch_index_out_of_range_panics_witness :
  ~ (0 <= 2 < memory.GetBatchSize scenario.fresh)
  /\ memory.GetPipelineData scenario.fresh 2 "secret" = Panic IndexOutOfRange
  /\ scenario.SetPipelineData scenario.fresh scenario.world0 2 "secret" data.Null
     = Crash IndexOutOfRange.
Proof.
  assert (H : ~ (0 <= 2 < memory.GetBatchSize scenario.fresh)).
  { unfold memory.GetBatchSize. simpl. lia. }
  split; [exact H|].
  pose proof (batch_index_out_of_range_panics (JSONObject := unit) scenario.rev
                scenario.protojson_Marshal scenario.json_Unmarshal
                scenario.gob_Encode_Event scenario.fresh scenario.world0 2 H) as T.
  split; [apply T | apply T].
Defined.

(** C2: scenario S3.  The index 2 of a two-element array and a key
    applied to an array make [Get] panic; an absent key is answered by
    the nil value and a nil error. *)
Lemma get_panics_instead_of_failing :
  0 <= 0 < memory.GetBatchSize scenario.s3
  /\ memory.Get scenario.s3 0 "a.b[1].c" = Ok (data.Number 20)
  /\ memory.Get scenario.s3 0 "a.b[2].c" = Panic IndexOutOfRange
  /\ memory.Get scenario.s3 0 "a.b.c" = Panic InterfaceConversion
  /\ memory.Get scenario.s3 0 "a.x" = Ok data.Nil.
Proof.
  split; [unfold memory.GetBatchSize; simpl; lia|].
  repeat split; vm_compute; reflexivity.
Qed.

Lemma get_resolves_well_formed_paths_witness :
  memory.render [memory.Key "a"; memory.Key "b"; memory.Index 1; memory.Key "c"]
  = "a.b[1].c"
  /\ memory.Get scenario.s3 0 "a.b[1].c"
     = memory.resolve scenario.nested
         [memory.Key "a"; memory.Key "b"; memory.Index 1; memory.Key "c"]
  /\ memory.resolve scenario.nested
       [memory.Key "a"; memory.Key "b"; memory.Index 1; memory.Key "c"]
     = Ok (data.Number 20).
Proof.
  split; [vm_compute; reflexivity|].
  split; [|vm_compute; reflexivity].
  assert (Hi : 0 <= 0 < memory.GetBatchSize scenario.s3)
    by (unfold memory.GetBatchSize; simpl; lia).
  destruct (get_resolves_well_formed_paths scenario.s3 0 scenario.nested Hi eq_refl)
    as (_ & Hwalk & _ & _).
  apply (Hwalk [memory.Key "a"; memory.Key "b"; memory.Index 1; memory.Key "c"]).
  vm_compute. reflexivity.
Defined.

(** C3: scenario S4 on the store that holds [started]. *)
Lemma snapshot_restore_preserves_reads_witness :
  exists w1,
    memory.WriteWorkflowMemoryToRedis scenario.gob_Encode_wfm scenario.store1
      scenario.world0 "w1" = Done None w1
    /\ exists wfm' ms',
         memory.LoadWorkflowMemoryFromRedis scenario.gob_Decode_wfm scenario.store0
           (memory.mkWorld (memory.redisClient w1) 1000) "w1" = Ok (wfm', ms')
         /\ memory.GetBatchSize wfm' = 2
         /\ memory.GetComponentStatus wfm' 1 "c1" "started"
            = memory.GetComponentStatus scenario.started 1 "c1" "started".
Proof.
  destruct (snapshot_restore_preserves_reads
              scenario.gob_Encode_wfm scenario.gob_Decode_wfm
              scenario.store1 scenario.world0 "w1" scenario.started
              (list_byte_of_string "w1") eq_refl eq_refl eq_refl eq_refl)
    as (w1 & Hwrite & Hload).
  exists w1. split; [exact Hwrite|].
  destruct (Hload scenario.store0 1000) as (wfm' & ms' & H & _ & _ & _ & Hsize & _ & _ & _ & Hst).
  { vm_compute. reflexivity. }
  exists wfm', ms'. split; [exact H|]. split; [rewrite Hsize; reflexivity|].
  apply Hst.
Defined.

(** C4: with streaming enabled, setting the variables publishes a
    message, the encoding of the empty event. *)
Lemma set_pipeline_data_publishes_for_every_type_witness :
  let r := scenario.SetPipelineData scenario.started scenario.world0 0
             memory.PipelineVariable (data.Map ∅) in
  let s := scenario.state_of r (scenario.started, scenario.world0) in
  r = Done None s
  /\ redis.messages (memory.redisClient s.2) = [("w1", [])]
  /\ memory.publishes scenario.gob_Encode_Event scenario.world0 s.2 "w1"
       memory.zeroEvent.
Proof.
  intros r s.
  assert (Hr : r = Done None (s.1, s.2)) by (vm_compute; reflexivity).
  split; [vm_compute; reflexivity|]. split; [vm_compute; reflexivity|].
  destruct (set_pipeline_data_publishes_for_every_type scenario.rev
              scenario.protojson_Marshal scenario.json_Unmarshal
              scenario.gob_Encode_Event scenario.started s.1 scenario.world0 s.2 0
              memory.PipelineVariable (data.Map ∅) eq_refl Hr)
    as (d & event & _ & Hpub & _ & Hzero & _).
  rewrite <- Hzero; [exact Hpub | discriminate].
Defined.

(** C5: an input written at batch index 1 is announced with batch
    index 0. *)
Lemma data_events_have_batch_index_zero_witness :
  let r := scenario.SetComponentData scenario.started scenario.world0 1 "c1"
             memory.ComponentDataInput (data.Map ∅) in
  let s := scenario.state_of r (scenario.started, scenario.world0) in
  r = Done None s
  /\ exists event,
       memory.publishes scenario.gob_Encode_Event scenario.world0 s.2 "w1" event
       /\ memory.Event_Event event = memory.ComponentInputUpdated
       /\ memory.BatchIndex_of (memory.Event_Data event) = Some 0.
Proof.
  intros r s.
  assert (Hr : r = Done None (s.1, s.2)) by (vm_compute; reflexivity).
  split; [vm_compute; reflexivity|].
  destruct (data_events_have_batch_index_zero scenario.rev
              scenario.protojson_Marshal scenario.json_Unmarshal
              scenario.gob_Encode_Event scenario.started s.1 scenario.world0 s.2 1
              eq_refl) as (Hdata & _ & _).
  apply (Hdata "c1" memory.ComponentDataInput (data.Map ∅) (or_introl eq_refl) Hr).
Defined.

(** C6: the first step of scenario S2. *)
Lemma set_component_status_publishes_the_new_triple_witness :
  let r := scenario.SetComponentStatus scenario.started scenario.world0 1 "c1"
             memory.ComponentStatusStarted true in
  let s := scenario.state_of r (scenario.started, scenario.world0) in
  r = Done None s
  /\ memory.publishes scenario.gob_Encode_Event scenario.world0 s.2 "w1"
       (memory.mkEvent memory.ComponentStatusUpdated
          (memory.ComponentStatusEventData 0 "c1" 1
             {[ memory.ComponentStatusStarted := true;
                memory.ComponentStatusSkipped := false;
                memory.ComponentStatusCompleted := false ]}))
  /\ memory.GetComponentStatus s.1 1 "c1" memory.ComponentStatusStarted = Ok true.
Proof.
  intros r s.
  assert (Hr : r = Done None (s.1, s.2)) by (vm_compute; reflexivity).
  split; [vm_compute; reflexivity|].
  destruct (set_component_status_publishes_the_new_triple
              scenario.gob_Encode_Event scenario.started s.1 scenario.world0 s.2 1
              "c1" memory.ComponentStatusStarted true eq_refl Hr)
    as (started & skipped & completed & Hpub & Hstarted & Hskipped & Hcompleted & Ht).
  split; [|exact Ht].
  assert (Hs : started = true) by (rewrite Ht in Hstarted; congruence).
  assert (Hk : skipped = false).
  { assert (E : memory.GetComponentStatus s.1 1 "c1" memory.ComponentStatusSkipped
                = Ok false) by (vm_compute; reflexivity).
    rewrite E in Hskipped. congruence. }
  assert (Hc : completed = false).
  { assert (E : memory.GetComponentStatus s.1 1 "c1" memory.ComponentStatusCompleted
                = Ok false) by (vm_compute; reflexivity).
    rewrite E in Hcompleted. congruence. }
  subst. exact Hpub.
Defined.

(** C7: the server is down while an input is written. *)
Lemma publish_failure_keeps_the_mutation_witness :
  let e := Foreign "redis" "connection refused" in
  let r := scenario.SetComponentData scenario.started scenario.world0 1 "c1"
             memory.ComponentDataInput (data.Map ∅) in
  let s := scenario.state_of r (scenario.started, scenario.world0) in
  r = Done None s
  /\ scenario.SetComponentData scenario.started
       (memory.with_fault scenario.world0 e) 1 "c1"
       memory.ComponentDataInput (data.Map ∅)
     = Done (Some e) (s.1, memory.with_fault scenario.world0 e)
  /\ memory.GetComponentData s.1 1 "c1" memory.ComponentDataInput = Ok (data.Map ∅).
Proof.
  intros e r s.
  assert (Hr : r = Done None (s.1, s.2)) by (vm_compute; reflexivity).
  split; [vm_compute; reflexivity|].
  destruct (publish_failure_keeps_the_mutation scenario.rev
              scenario.protojson_Marshal scenario.json_Unmarshal
              scenario.gob_Encode_Event scenario.started scenario.world0 e 1 eq_refl)
    as (Hdata & _ & _).
  apply (Hdata "c1" memory.ComponentDataInput (data.Map ∅) s.1 s.2 Hr).
Defined.

(** C8: the revision of [Map.ToStructValue] with a pointer receiver
    keeps a key whose value is [Null]; the other revision drops it. *)
Lemma pointer_receiver_keeps_null_keys :
  data.ToStructValue data.PointerReceiver
    (data.Map {[ "k" := data.Null; "n" := data.Number 1 ]})
  = Ok (structpb.StructValue
          {[ "k" := structpb.NullValue; "n" := structpb.NumberValue 1 ]})
  /\ data.ToStructValue data.ValueReceiver
       (data.Map {[ "k" := data.Null; "n" := data.Number 1 ]})
     = Ok (structpb.StructValue {[ "n" := structpb.NumberValue 1 ]})
  /\ data.ToStructValue data.ValueReceiver (data.Array [data.Null; data.Number 1])
     = Ok (structpb.ListValue [structpb.NullValue; structpb.NumberValue 1]).
Proof. repeat split; vm_compute; reflexivity. Qed.

(** C9: scenario S5 before any write. *)
Lemma new_workflow_memory_pipeline_data_empty_witness :
  exists wfm ms',
    memory.NewWorkflowMemory scenario.store0 "w2" None 3 = Ok (wfm, ms')
    /\ memory.GetBatchSize wfm = 3
    /\ memory.GetPipelineData wfm 1 memory.PipelineVariable = Ok (data.Map ∅).
Proof.
  apply (new_workflow_memory_pipeline_data_empty scenario.store0 "w2" None 3 1
           memory.PipelineVariable).
  - lia.
  - set_solver.
Defined.

(** C10: the slot element of a component just initialised. *)
Lemma get_component_data_unwritten_slot_is_nil_witness :
  memory.InitComponent scenario.fresh 1 "c1" = Ok scenario.initialised
  /\ memory.GetComponentData scenario.initialised 1 "c1" memory.ComponentDataElement
     = Ok data.Nil.
Proof.
  assert (H : memory.InitComponent scenario.fresh 1 "c1" = Ok scenario.initialised)
    by (vm_compute; reflexivity).
  split; [exact H|].
  apply (proj2 (get_component_data_unwritten_slot_is_nil (Recipe_t := unit)) _ _ _ _ H).
Defined.

(** X1: the skeleton of [c1] in [initialised]. *)
Lemma init_component_installs_the_skeleton_witness :
  memory.InitComponent scenario.fresh 1 "c1" = Ok scenario.initialised
  /\ memory.GetComponentStatus scenario.initialised 1 "c1"
       memory.ComponentStatusCompleted = Ok false
  /\ memory.GetComponentData scenario.initialised 1 "c1" memory.ComponentDataSetup
     = Ok (data.Map ∅).
Proof.
  assert (H : memory.InitComponent scenario.fresh 1 "c1" = Ok scenario.initialised)
    by (vm_compute; reflexivity).
  split; [exact H|].
  destruct (init_component_installs_the_skeleton _ _ _ _ H) as [Hstatus Hdata].
  split; [apply Hstatus | apply Hdata]; set_solver.
Defined.

(** X2: scenario S1 with [Set]. *)
Lemma set_then_get_returns_the_value_witness :
  let v := data.Map {[ "name" := data.String "Ada" ]} in
  let wfm' := memory.store_root scenario.fresh 0
                (data.Map (<["profile" := v]>
                   {[ "variable" := data.Map ∅; "secret" := data.Map ∅;
                      "output" := data.Map ∅ ]})) in
  memory.Set_ scenario.fresh 0 "profile" v = Ok wfm'
  /\ memory.Get wfm' 0 "profile" = Ok v
  /\ memory.Get wfm' 0 "profile.name" = Ok (data.String "Ada").
Proof.
  intros v wfm'.
  assert (H : memory.Set_ scenario.fresh 0 "profile" v = Ok wfm')
    by (vm_compute; reflexivity).
  split; [exact H|]. split; [|vm_compute; reflexivity].
  apply (set_then_get_returns_the_value scenario.fresh wfm' 0 "profile" v eq_refl H).
Defined.


(** X5: without streaming the message log stays empty. *)
Lemma no_event_without_streaming_witness :
  let r := scenario.SetComponentStatus scenario.initialised scenario.world0 1 "c1"
             memory.ComponentStatusStarted true in
  let s := scenario.state_of r (scenario.initialised, scenario.world0) in
  r = Done None s /\ s.2 = scenario.world0.
Proof.
  intros r s.
  assert (Hr : r = Done None (s.1, s.2)) by (vm_compute; reflexivity).
  split; [vm_compute; reflexivity|].
  destruct (no_event_without_streaming scenario.rev
              scenario.protojson_Marshal scenario.json_Unmarshal
              scenario.gob_Encode_Event scenario.initialised s.1 scenario.world0 s.2
              None 1 eq_refl) as (_ & Hstatus & _).
  apply (Hstatus "c1" memory.ComponentStatusStarted true Hr).
Defined.


(** X7: the snapshot of [w1] is the one key of the server. *)
Lemma write_to_redis_touches_one_key_witness :
  let r := memory.WriteWorkflowMemoryToRedis scenario.gob_Encode_wfm scenario.store1
             scenario.world0 "w1" in
  let w1 := scenario.state_of r scenario.world0 in
  r = Done None w1
  /\ redis.messages (memory.redisClient w1) = []
  /\ memory.now w1 = 0.
Proof.
  intros r w1.
  assert (Hr : r = Done None w1) by (vm_compute; reflexivity).
  destruct (write_to_redis_touches_one_key scenario.gob_Encode_wfm scenario.store1
              scenario.world0 w1 "w1" None Hr) as (Hmsg & Hnow & _).
  split; [exact Hr|]. split; [exact Hmsg | exact Hnow].
Defined.

(** X8: writing [w2] leaves the snapshot of [w1] readable. *)
Lemma write_keeps_other_snapshots_witness :
  let w1 := scenario.state_of
              (memory.WriteWorkflowMemoryToRedis scenario.gob_Encode_wfm scenario.store2
                 scenario.world0 "w1") scenario.world0 in
  let r := memory.WriteWorkflowMemoryToRedis scenario.gob_Encode_wfm scenario.store2
             w1 "w2" in
  let w2 := scenario.state_of r w1 in
  r = Done None w2
  /\ memory.LoadWorkflowMemoryFromRedis scenario.gob_Decode_wfm scenario.store0 w2 "w1"
     = memory.LoadWorkflowMemoryFromRedis scenario.gob_Decode_wfm scenario.store0 w1 "w1"
  /\ exists wfm ms,
       memory.LoadWorkflowMemoryFromRedis scenario.gob_Decode_wfm scenario.store0 w1 "w1"
       = Ok (wfm, ms).
Proof.
  intros w1 r w2.
  assert (Hr : r = Done None w2) by (vm_compute; reflexivity).
  split; [exact Hr|]. split.
  - apply (write_keeps_other_snapshots scenario.gob_Encode_wfm scenario.gob_Decode_wfm
             scenario.store2 scenario.store0 w1 w2 "w1" "w2" None Hr).
    discriminate.
  - eexists _, _. vm_compute. reflexivity.
Defined.

(** X9: the memory read back from the snapshot of [started], which
    streams, does not. *)
Lemma restored_memory_does_not_stream_witness :
  let w1 := scenario.state_of
              (memory.WriteWorkflowMemoryToRedis scenario.gob_Encode_wfm scenario.store1
                 scenario.world0 "w1") scenario.world0 in
  memory.streaming scenario.started = true
  /\ exists wfm' ms',
       memory.LoadWorkflowMemoryFromRedis scenario.gob_Decode_wfm scenario.store0 w1 "w1"
       = Ok (wfm', ms')
       /\ memory.streaming wfm' = false
       /\ memory.GetWorkflowMemory ms' "w1" = Ok wfm'.
Proof.
  intros w1. split; [reflexivity|].
  destruct (memory.LoadWorkflowMemoryFromRedis scenario.gob_Decode_wfm scenario.store0
              w1 "w1") as [[wfm' ms']| |] eqn:Hload; try (vm_compute in Hload; discriminate).
  exists wfm', ms'. split; [reflexivity|].
  destruct (restored_memory_does_not_stream scenario.rev scenario.protojson_Marshal
              scenario.json_Unmarshal scenario.gob_Encode_Event scenario.gob_Decode_wfm
              scenario.store0 ms' w1 "w1" wfm' Hload) as (_ & Hstream & Hget & _).
  split; [exact Hstream | exact Hget].
Defined.

(** X10: one hour after the write the snapshot is gone. *)
Lemma load_fails_without_a_live_snapshot_witness :
  let r := memory.WriteWorkflowMemoryToRedis scenario.gob_Encode_wfm scenario.store1
             scenario.world0 "w1" in
  let w1 := scenario.state_of r scenario.world0 in
  r = Done None w1
  /\ memory.LoadWorkflowMemoryFromRedis scenario.gob_Decode_wfm scenario.store0
       (memory.mkWorld (memory.redisClient w1) memory.Hour) "w1" = Err redis.Nil
  /\ memory.LoadWorkflowMemoryFromRedis scenario.gob_Decode_wfm scenario.store0
       w1 "w2" = Err redis.Nil.
Proof.
  intros r w1.
  assert (Hr : r = Done None w1) by (vm_compute; reflexivity).
  destruct (load_fails_without_a_live_snapshot scenario.gob_Encode_wfm
              scenario.gob_Decode_wfm scenario.store1 scenario.store0 scenario.world0 w1
              "w1" memory.Hour Hr) as [Hlate Hother].
  { vm_compute. discriminate. }
  split; [exact Hr|]. split; [exact Hlate|].
  apply Hother; [reflexivity | discriminate].
Defined.

(** X11: the component [c9] was never initialised. *)
Lemma missing_component_is_an_error_witness :
  memory.GetComponentData scenario.started 1 "c9" memory.ComponentDataInput
  = Err (Errorf "component c9 not exist")
  /\ scenario.SetComponentStatus scenario.started scenario.world0 1 "c9"
       memory.ComponentStatusStarted true
     = Done (Some (Errorf "component c9 not exist")) (scenario.started, scenario.world0).
Proof.
  destruct (missing_component_is_an_error scenario.rev scenario.protojson_Marshal
              scenario.json_Unmarshal scenario.gob_Encode_Event
              scenario.started scenario.world0 1 "c9"
              (<["c1" := memory.compMemory]>
                 {[ "variable" := data.Map ∅; "secret" := data.Map ∅;
                    "output" := data.Map ∅ ]}))
    as (_ & Hget & Hset & _).
  - reflexivity.
  - vm_compute. reflexivity.
  - split; [apply Hget | apply Hset].
Defined.

(** X12: the conversion of the value fails, and the value is stored. *)
Lemma setters_write_before_anything_can_fail_witness :
  let refuses (s : structpb.Value) : result redis.bytes :=
    Err (Foreign "protojson" "invalid UTF-8") in
  let v := data.Map {[ "x" := data.Number 1 ]} in
  let r := memory.SetComponentData scenario.rev refuses scenario.json_Unmarshal
             scenario.gob_Encode_Event scenario.started scenario.world0 1 "c1"
             memory.ComponentDataInput v in
  let s := scenario.state_of r (scenario.started, scenario.world0) in
  r = Done (Some (Foreign "protojson" "invalid UTF-8")) s
  /\ memory.GetComponentData s.1 1 "c1" memory.ComponentDataInput = Ok v.
Proof.
  intros refuses v r s.
  assert (Hr : r = Done (Some (Foreign "protojson" "invalid UTF-8")) (s.1, s.2))
    by (vm_compute; reflexivity).
  split; [vm_compute; reflexivity|].
  destruct (setters_write_before_anything_can_fail scenario.rev refuses
              scenario.json_Unmarshal scenario.gob_Encode_Event
              scenario.started s.1 scenario.world0 s.2 1
              (Some (Foreign "protojson" "invalid UTF-8"))
              (<["c1" := memory.compMemory]>
                 {[ "variable" := data.Map ∅; "secret" := data.Map ∅;
                    "output" := data.Map ∅ ]}) eq_refl) as (Hdata & _).
  apply (Hdata "c1" memory.compMemory memory.ComponentDataInput v); [|exact Hr].
  vm_compute. reflexivity.
Defined.

(** X13: one message, on the channel [w1]. *)
Lemma one_call_sends_at_most_one_message_witness :
  let r := scenario.SetPipelineData scenario.started scenario.world0 0
             memory.PipelineVariable (data.Map ∅) in
  let s := scenario.state_of r (scenario.started, scenario.world0) in
  r = Done None s
  /\ memory.at_most_one_message scenario.world0 s.2 "w1" None
  /\ memory.GetBatchSize s.1 = 2.
Proof.
  intros r s.
  assert (Hr : r = Done None (s.1, s.2)) by (vm_compute; reflexivity).
  split; [vm_compute; reflexivity|].
  destruct (one_call_sends_at_most_one_message scenario.rev scenario.protojson_Marshal
              scenario.json_Unmarshal scenario.gob_Encode_Event
              scenario.started s.1 scenario.world0 s.2 0 "c1"
              memory.ComponentDataInput memory.ComponentStatusStarted
              memory.PipelineVariable (data.Map ∅) true r None)
    as (Hone & _ & Hsize & _).
  - right. right. reflexivity.
  - exact Hr.
  - split; [exact Hone | exact Hsize].
Defined.

(** X14: an event for an identifier that no workflow has. *)
Lemma send_workflow_status_event_publishes_witness :
  let event := memory.mkEvent memory.PipelineStarted memory.NoData in
  let r := memory.SendWorkflowStatusEvent scenario.gob_Encode_Event scenario.world0
             "nobody" event in
  let w1 := scenario.state_of r scenario.world0 in
  memory.GetWorkflowMemory scenario.store1 "nobody"
  = Err (Errorf "workflow memory not found")
  /\ r = Done None w1
  /\ memory.publishes scenario.gob_Encode_Event scenario.world0 w1 "nobody" event.
Proof.
  intros event r w1. split; [reflexivity|].
  assert (Hr : r = Done None w1) by (vm_compute; reflexivity).
  split; [exact Hr|].
  destruct (send_workflow_status_event_publishes scenario.gob_Encode_Event
              scenario.world0 w1 "nobody" event None Hr) as (_ & Hpub & _).
  now apply Hpub.
Defined.

(** X15: setting the setup of [c1] sends the empty event. *)
Lemma set_component_data_publishes_for_every_type_witness :
  let r := scenario.SetComponentData scenario.started scenario.world0 1 "c1"
             memory.ComponentDataSetup (data.Map ∅) in
  let s := scenario.state_of r (scenario.started, scenario.world0) in
  r = Done None s
  /\ memory.publishes scenario.gob_Encode_Event scenario.world0 s.2 "w1" memory.zeroEvent.
Proof.
  intros r s.
  assert (Hr : r = Done None (s.1, s.2)) by (vm_compute; reflexivity).
  split; [vm_compute; reflexivity|].
  apply (set_component_data_publishes_for_every_type scenario.rev
           scenario.protojson_Marshal scenario.json_Unmarshal scenario.gob_Encode_Event
           scenario.started s.1 scenario.world0 s.2 1 "c1" memory.ComponentDataSetup
           (data.Map ∅) eq_refl); [discriminate | discriminate | exact Hr].
Defined.

(** X16: the nil value, with streaming enabled. *)
Lemma nil_value_panics_when_streaming_witness :
  scenario.SetPipelineData scenario.started scenario.world0 0 memory.PipelineVariable
    data.Nil = Crash NilDereference
  /\ scenario.SetPipelineData scenario.initialised scenario.world0 0
       memory.PipelineVariable data.Nil
     = Done None
         (memory.mkWorkflowMemory "w1"
            [data.Map {[ "variable" := data.Nil; "secret" := data.Map ∅;
                         "output" := data.Map ∅ ]};
             data.Map (<["c1" := memory.compMemory]>
                         {[ "variable" := data.Map ∅; "secret" := data.Map ∅;
                            "output" := data.Map ∅ ]})]
            None false, scenario.world0).
Proof.
  split; [|vm_compute; reflexivity].
  destruct (nil_value_panics_when_streaming scenario.rev scenario.protojson_Marshal
              scenario.json_Unmarshal scenario.gob_Encode_Event
              scenario.started scenario.world0 0
              {[ "variable" := data.Map ∅; "secret" := data.Map ∅;
                 "output" := data.Map ∅ ]} eq_refl eq_refl) as [Hpipeline _].
  apply Hpipeline.
Defined.


(** X18: the flag [errored] does not exist. *)
Lemma unknown_status_flag_panics_witness :
  memory.InitComponent scenario.fresh 1 "c1" = Ok scenario.initialised
  /\ memory.GetComponentStatus scenario.initialised 1 "c1" "errored"
     = Panic InterfaceConversion.
Proof.
  assert (Hinit : memory.InitComponent scenario.fresh 1 "c1" = Ok scenario.initialised)
    by (vm_compute; reflexivity).
  split; [exact Hinit|].
  apply (unknown_status_flag_panics scenario.fresh scenario.initialised 1 "c1" "errored"
           Hinit); discriminate.
Defined.

(** X19: the output template of a new workflow. *)
Lemma pipeline_data_absent_until_set_witness :
  memory.GetPipelineData scenario.fresh 1 memory.PipelineOutputTemplate
  = Err (Errorf "_output not exist").
Proof.
  destruct (pipeline_data_absent_until_set scenario.store0
              (memory.mkMemoryStore {[ "w1" := scenario.fresh ]}) "w1" None 2 1
              scenario.fresh memory.PipelineOutputTemplate) as [Habsent _].
  - vm_compute. reflexivity.
  - lia.
  - set_unfold. intros [H | [H | [H | []]]]; discriminate.
  - exact Habsent.
Defined.

(** Decide a closed comparison by evaluation. *)
Ltac computed :=
  vm_compute; repeat split; first [reflexivity | discriminate].

(** X21: with a radius of 4 the corner of the picture is cut, and the
    pixel next to it is kept. *)
Lemma crop_corner_radius_pixels_witness :
  exists result,
    operator.cropCornerRadius scenario.picture 4 = Some result
    /\ image.RGBAAt result 0 0 = color.mkRGBA 0 0 0 0
    /\ image.RGBAAt result 1 0 = color.mkRGBA 1 0 0 255.
Proof.
  destruct (crop_corner_radius_pixels scenario.picture 8 6 4 0 0)
    as (result & Hres & _ & Hcorner); [computed .. |].
  destruct (crop_corner_radius_pixels scenario.picture 8 6 4 1 0)
    as (result' & Hres' & _ & Hnext); [computed .. |].
  rewrite Hres in Hres'. injection Hres' as <-.
  exists result. split; [exact Hres|]. split; [exact Hcorner | exact Hnext].
Defined.

(** X22: the corners of an image of eight by six pixels, radius 3. *)
Lemma rounded_corners_are_symmetric_witness :
  operator.isInsideRoundedCorner 7 0 8 6 3 9 = operator.isInsideRoundedCorner 0 0 8 6 3 9
  /\ operator.isInsideRoundedCorner 0 5 8 6 3 9 = operator.isInsideRoundedCorner 0 0 8 6 3 9.
Proof. apply (rounded_corners_are_symmetric 0 0 8 6 3 9); lia. Defined.



(** X25: offsets that leave no column of the picture. *)
Lemma crop_accepts_exactly_the_proper_offsets_witness :
  operator.crop (operator.mkCropInput 0 0 0 4 0 4) scenario.picture
  = operator.Fails (Errorf "invalid crop dimensions").
Proof.
  apply (crop_accepts_exactly_the_proper_offsets (operator.mkCropInput 0 0 0 4 0 4)
           scenario.picture); [computed .. |].
  cbn. intros (_ & _ & _ & _ & H & _). discriminate H.
Defined.

(** X26: the picture without a frame of one pixel. *)
Lemma crop_without_radius_copies_the_rectangle_witness :
  exists croppedImg,
    operator.crop (operator.mkCropInput 0 0 1 1 1 1) scenario.picture
    = operator.Returns croppedImg
    /\ image.RGBA_Rect croppedImg = image.Rect 0 0 6 4
    /\ image.RGBAAt croppedImg 0 0 = color.mkRGBA 1 1 0 255.
Proof.
  destruct (crop_without_radius_copies_the_rectangle
              (operator.mkCropInput 0 0 1 1 1 1) scenario.picture)
    as (croppedImg & Hcrop & HRect & HAt);
    [computed .. |].
  exists croppedImg. split; [exact Hcrop|]. split; [exact HRect|].
  rewrite HAt; [reflexivity|]. rewrite HRect. reflexivity.
Defined.

(** X27: a corner radius of 9 on the picture is limited to 3. *)
Lemma crop_rounds_after_cropping_witness :
  exists croppedImg,
    operator.crop (operator.mkCropInput 0 0 0 0 0 0) scenario.picture
    = operator.Returns croppedImg
    /\ operator.crop (operator.mkCropInput 9 0 0 0 0 0) scenario.picture
       = operator.of_option (operator.cropCornerRadius (image.as_Image croppedImg) 3).
Proof.
  destruct (crop_rounds_after_cropping scenario.picture 9 0 0 0 0 0 8 6)
    as (croppedImg & Hplain & Hround);
    [computed .. |].
  exists croppedImg. split; [exact Hplain | exact Hround].
Defined.

(** The values of the scenarios are what the operations build. *)
Lemma scenario_values :
  memory.NewWorkflowMemory scenario.store0 "w1" None 2
  = Ok (scenario.fresh, memory.mkMemoryStore {[ "w1" := scenario.fresh ]})
  /\ memory.InitComponent scenario.fresh 1 "c1" = Ok scenario.initialised
  /\ memory.streaming scenario.started = true.
Proof. repeat split; vm_compute; reflexivity. Qed.

(** Scenario S2: the four events reach the bus in the order of the
    mutations, and the flags end as started and completed. *)
Lemma lifecycle_events :
  let s := scenario.state_of scenario.lifecycle (scenario.started, scenario.world0) in
  scenario.lifecycle = Done None s
  /\ map (fun m => (m.1, string_of_list_byte m.2))
       (redis.messages (memory.redisClient s.2))
     = [("w1", memory.ComponentStatusUpdated); ("w1", memory.ComponentInputUpdated);
        ("w1", memory.ComponentOutputUpdated); ("w1", memory.ComponentStatusUpdated)]
  /\ memory.GetComponentStatus s.1 1 "c1" memory.ComponentStatusStarted = Ok true
  /\ memory.GetComponentStatus s.1 1 "c1" memory.ComponentStatusSkipped = Ok false
  /\ memory.GetComponentStatus s.1 1 "c1" memory.ComponentStatusCompleted = Ok true.
Proof. repeat split; vm_compute; reflexivity. Qed.
